(** * Cash-flow tracker (dds_app): validation, amount parsing, ledger queries
      and reference deletion, embedded from [dds_app/server.py],
      [dds_app/repository.py] and the schema of [dds_app/db.py].

    Modelling conventions.
    - Python [str] is [string], read as ASCII text: the characters of code
      point 128 and above are ordinary characters (neither white space nor
      digits).
    - Python [int] is [Z].  [Optional[int]] is [option Z].
    - A function that can raise returns [result]; [Raise e] carries the
      exception class.
    - [decimal.Decimal] follows CPython's [_decimal] under the default
      context (28 digits, ROUND_HALF_EVEN, Emax 999999, InvalidOperation
      trapped); a coefficient is a non-negative [Z].
    - A table with an integer primary key is a [gmap Z row].  Lookups by
      key are total on [Z]: the 64-bit range of SQLite integers is not
      modelled.  Foreign keys are enforced as the schema declares them.
    - HTML rendering is left out: a response keeps its status line, its
      flash messages and, for a redirect, its success text. *)

From Stdlib Require Import ZArith String Ascii Bool Lia.
From stdpp Require Import base option gmap strings list sorting.

Local Open Scope string_scope.
Local Open Scope Z_scope.

(** ** Exceptions *)

Inductive exn : Set :=
  | InvalidOperation   (* decimal.InvalidOperation *)
  | ValueError
  | OverflowError
  | DecimalOverflow    (* decimal.Overflow *)
  | KeyError
  | IntegrityError     (* sqlite3.IntegrityError *)
  | OperationalError.  (* sqlite3.OperationalError *)

Inductive result (A : Type) : Type :=
  | Ok (a : A)
  | Raise (e : exn).
Arguments Ok {A} a.
Arguments Raise {A} e.

#[global] Instance result_ret : MRet result := λ A a, Ok a.
#[global] Instance result_bind : MBind result := λ A B f m,
  match m with Ok a => f a | Raise e => Raise e end.

#[global] Instance exn_eq_dec : EqDecision exn.
Proof. solve_decision. Defined.

(** ** Python string methods used by the server *)

Module pystr.

(** [str.isspace] on ASCII: TAB..CR, FS..US and the space. *)
Definition is_space (c : ascii) : bool :=
  let n := N_of_ascii c in
  ((9 <=? n) && (n <=? 13) || (28 <=? n) && (n <=? 32))%N.

Fixpoint lstrip (s : string) : string :=
  match s with
  | String c s' => if is_space c then lstrip s' else s
  | EmptyString => EmptyString
  end.

Definition rstrip (s : string) : string := String.rev (lstrip (String.rev s)).

(** [s.strip()] *)
Definition strip (s : string) : string := rstrip (lstrip s).

(** [s.replace(old, new)] for one-character [old] and [new]. *)
Fixpoint replace_char (old new : ascii) (s : string) : string :=
  match s with
  | String c s' =>
      String (if Ascii.eqb c old then new else c) (replace_char old new s')
  | EmptyString => EmptyString
  end.

(** [s.replace(old, empty)] for a one-character [old]: every [old] is
    dropped. *)
Fixpoint remove_char (old : ascii) (s : string) : string :=
  match s with
  | String c s' =>
      if Ascii.eqb c old then remove_char old s'
      else String c (remove_char old s')
  | EmptyString => EmptyString
  end.

Definition is_digit (c : ascii) : bool :=
  let n := N_of_ascii c in ((48 <=? n) && (n <=? 57))%N.

Definition digit_value (c : ascii) : Z := Z.of_N (N_of_ascii c) - 48.

(** ASCII lower-casing of one character. *)
Definition lower (c : ascii) : ascii :=
  let n := N_of_ascii c in
  if ((65 <=? n) && (n <=? 90))%N then ascii_of_N (n + 32) else c.

Fixpoint lower_string (s : string) : string :=
  match s with
  | String c s' => String (lower c) (lower_string s')
  | EmptyString => EmptyString
  end.

(** Longest prefix of decimal digits, and what follows it. *)
Fixpoint span_digits (s : string) : string * string :=
  match s with
  | String c s' =>
      if is_digit c then
        let '(ds, rest) := span_digits s' in (String c ds, rest)
      else (EmptyString, s)
  | EmptyString => (EmptyString, EmptyString)
  end.

Fixpoint int_of_digits_from (acc : Z) (s : string) : Z :=
  match s with
  | String c s' => int_of_digits_from (10 * acc + digit_value c) s'
  | EmptyString => acc
  end.

(** Value of a string of decimal digits (0 for the empty string). *)
Definition int_of_digits (s : string) : Z := int_of_digits_from 0 s.

Definition is_empty (s : string) : bool :=
  match s with EmptyString => true | _ => false end.

(** An optional sign: [true] for a minus. *)
Definition take_sign (s : string) : bool * string :=
  match s with
  | String "-" s' => (true, s')
  | String "+" s' => (false, s')
  | _ => (false, s)
  end.

Definition all_digits (s : string) : bool :=
  let '(_, rest) := span_digits s in is_empty rest.

End pystr.

(** ** [decimal.Decimal] under the default context *)

Module decimal.

(** A finite number is [(-1)^sign * coeff * 10^exp] with [0 <= coeff].
    A NaN is quiet or signaling; its payload digits are read by the
    constructor and not kept, as nothing below looks at them. *)
Inductive Decimal : Set :=
  | Finite (sign : bool) (coeff : Z) (exp : Z)
  | Infinity (sign : bool)
  | NaN (sign : bool) (signaling : bool).

Inductive rounding : Set := ROUND_HALF_UP | ROUND_HALF_EVEN.

(** [getcontext()]: prec=28, rounding=ROUND_HALF_EVEN, Emin=-999999,
    Emax=999999, clamp=0. *)
Definition prec : Z := 28.
Definition Emax : Z := 999999.
Definition Emin : Z := -999999.
Definition Etiny : Z := Emin - prec + 1.
Definition Etop : Z := Emax - prec + 1.

(** Bounds of the constructor, which converts exactly or fails
    (64-bit [_decimal]). *)
Definition MAX_EMAX : Z := 999999999999999999.
Definition MIN_ETINY : Z := -1999999999999999997.

Fixpoint ndigits_fuel (fuel : nat) (c : Z) : Z :=
  match fuel with
  | O => 1
  | S f => if c <? 10 then 1 else 1 + ndigits_fuel f (c / 10)
  end.

(** [len(self._int)]: the number of decimal digits of a coefficient,
    1 for zero. *)
Definition ndigits (c : Z) : Z := ndigits_fuel (Z.to_nat (Z.log2 c)) c.

(** [self.adjusted()] of a finite number. *)
Definition adjusted (c e : Z) : Z := e + ndigits c - 1.

(** Drop the last [k > 0] digits of [c], rounding the way [r] says. *)
Definition round_digits (r : rounding) (c k : Z) : Z :=
  let q := c / 10 ^ k in
  let rem := c mod 10 ^ k in
  match r with
  | ROUND_HALF_UP => if 10 ^ k <=? 2 * rem then q + 1 else q
  | ROUND_HALF_EVEN =>
      if 10 ^ k <? 2 * rem then q + 1
      else if (2 * rem =? 10 ^ k) && Z.odd q then q + 1
      else q
  end.

(** [_rescale]: the coefficient of [c * 10^x] at exponent [e].  A value
    below one unit of the last kept place is first replaced by
    [1 * 10^(e-1)], as the library does. *)
Definition _rescale (r : rounding) (c x e : Z) : Z :=
  if e <=? x then c * 10 ^ (x - e)
  else
    let digits := ndigits c + x - e in
    if digits <? 0 then round_digits r 1 1
    else round_digits r c (e - x).

(** [_fix]: round a finite result to the context. *)
Definition _fix (s : bool) (c e : Z) : result Decimal :=
  if c =? 0 then Ok (Finite s 0 (Z.min (Z.max e Etiny) Emax))
  else
    let exp_min := ndigits c + e - prec in
    if Etop <? exp_min then Raise DecimalOverflow
    else
      let exp_min := Z.max exp_min Etiny in
      if e <? exp_min then
        let digits := ndigits c + e - exp_min in
        let c1 :=
          if digits <? 0 then round_digits ROUND_HALF_EVEN 1 1
          else round_digits ROUND_HALF_EVEN c (exp_min - e) in
        let '(c2, exp_min) :=
          if prec <? ndigits c1 then (c1 / 10, exp_min + 1)
          else (c1, exp_min) in
        if Etop <? exp_min then Raise DecimalOverflow
        else Ok (Finite s c2 exp_min)
      else Ok (Finite s c e).

(** [_check_nans]: [Some] of the outcome when an operand is a NaN. *)
Definition _check_nans (a b : Decimal) : option (result Decimal) :=
  match a, b with
  | NaN _ true, _ => Some (Raise InvalidOperation)
  | _, NaN _ true => Some (Raise InvalidOperation)
  | NaN s false, _ => Some (Ok (NaN s false))
  | _, NaN s false => Some (Ok (NaN s false))
  | _, _ => None
  end.

(** [self.quantize(exp, rounding=r)] *)
Definition quantize (self exp : Decimal) (r : rounding) : result Decimal :=
  match _check_nans self exp with
  | Some ans => ans
  | None =>
      match self, exp with
      | Infinity s, Infinity _ => Ok (Infinity s)
      | Infinity _, _ | _, Infinity _ => Raise InvalidOperation
      | Finite s c x, Finite _ _ e =>
          if negb ((Etiny <=? e) && (e <=? Emax)) then Raise InvalidOperation
          else if c =? 0 then _fix s 0 e
          else if Emax <? adjusted c x then Raise InvalidOperation
          else if prec <? adjusted c x - e + 1 then Raise InvalidOperation
          else
            let c1 := _rescale r c x e in
            if Emax <? adjusted c1 e then Raise InvalidOperation
            else if prec <? ndigits c1 then Raise InvalidOperation
            else _fix s c1 e
      | _, _ => Raise InvalidOperation
      end
  end.

(** [self * other] *)
Definition mul (self other : Decimal) : result Decimal :=
  match _check_nans self other with
  | Some ans => ans
  | None =>
      match self, other with
      | Infinity s, Infinity t => Ok (Infinity (xorb s t))
      | Infinity s, Finite t c _ | Finite t c _, Infinity s =>
          if c =? 0 then Raise InvalidOperation else Ok (Infinity (xorb s t))
      | Finite s c x, Finite t d y => _fix (xorb s t) (c * d) (x + y)
      | _, _ => Raise InvalidOperation
      end
  end.

(** [Decimal(n)] for a Python int. *)
Definition of_int (n : Z) : Decimal := Finite (n <? 0) (Z.abs n) 0.

(** [int(self)]: truncation towards zero. *)
Definition to_int (self : Decimal) : result Z :=
  match self with
  | NaN _ _ => Raise ValueError
  | Infinity _ => Raise OverflowError
  | Finite s c e =>
      let m :=
        if 0 <=? e then c * 10 ^ e
        else if ndigits c + e <=? 0 then 0
        else c / 10 ^ (- e) in
      Ok (if s then - m else m)
  end.

(** The numeric-string grammar after the sign: digits with an optional
    point, at least one digit, and an optional exponent part.  Returns
    the coefficient and the exponent. *)
Definition parse_number (s : string) : option (Z * Z) :=
  let '(ip, r1) := pystr.span_digits s in
  let '(fp, r2) :=
    match r1 with
    | String "." r => pystr.span_digits r
    | _ => (EmptyString, r1)
    end in
  if pystr.is_empty ip && pystr.is_empty fp then None
  else
    let coeff := pystr.int_of_digits (String.append ip fp) in
    let shift := Z.of_nat (String.length fp) in
    match r2 with
    | EmptyString => Some (coeff, - shift)
    | String c r3 =>
        if Ascii.eqb (pystr.lower c) "e" then
          let '(neg, r4) := pystr.take_sign r3 in
          let '(ed, r5) := pystr.span_digits r4 in
          if pystr.is_empty ed || negb (pystr.is_empty r5) then None
          else
            let e := pystr.int_of_digits ed in
            Some (coeff, (if neg then - e else e) - shift)
        else None
    end.

(** [Infinity], [Inf], [NaN digits] and [sNaN digits], in any case. *)
Definition parse_special (sign : bool) (s : string) : option Decimal :=
  let l := pystr.lower_string s in
  if String.eqb l "inf" || String.eqb l "infinity" then Some (Infinity sign)
  else
    match l with
    | String "n" (String "a" (String "n" p)) =>
        if pystr.all_digits p then Some (NaN sign false) else None
    | String "s" (String "n" (String "a" (String "n" p))) =>
        if pystr.all_digits p then Some (NaN sign true) else None
    | _ => None
    end.

(** The constructor keeps a finite value only if it fits the widest
    context without rounding or clamping. *)
Definition representable (c e : Z) : bool :=
  if c =? 0 then (MIN_ETINY <=? e) && (e <=? MAX_EMAX)
  else (MIN_ETINY <=? e) && (adjusted c e <=? MAX_EMAX).

(** [Decimal(value)] for a string: surrounding white space is dropped,
    underscores are dropped, then the grammar applies.  A string outside
    the grammar raises [InvalidOperation]. *)
Definition of_string (value : string) : result Decimal :=
  let s := pystr.remove_char "_" (pystr.strip value) in
  let '(sign, body) := pystr.take_sign s in
  match parse_special sign body with
  | Some d => Ok d
  | None =>
      match parse_number body with
      | Some (c, e) =>
          if representable c e then Ok (Finite sign c e)
          else Raise InvalidOperation
      | None => Raise InvalidOperation
      end
  end.

End decimal.

(** ** Helpers of [server.py] *)

(** White space that [int(str)] skips at both ends of an ASCII string. *)
Definition int_space (c : ascii) : bool :=
  let n := N_of_ascii c in ((9 <=? n) && (n <=? 13) || (n =? 32))%N.

Fixpoint int_lstrip (s : string) : string :=
  match s with
  | String c s' => if int_space c then int_lstrip s' else s
  | EmptyString => EmptyString
  end.

(** Digits of an integer literal: single underscores may separate digits.
    [prev_digit] tells whether the previous character was a digit. *)
Fixpoint int_digits (prev_digit : bool) (acc : Z) (s : string) : option Z :=
  match s with
  | EmptyString => if prev_digit then Some acc else None
  | String c s' =>
      if pystr.is_digit c then int_digits true (10 * acc + pystr.digit_value c) s'
      else if Ascii.eqb c "_" && prev_digit then int_digits false acc s'
      else None
  end.

(** [int(value)] in base 10; [None] stands for [ValueError].  The cap that
    recent interpreters put on the number of digits is not modelled. *)
Definition py_int (value : string) : option Z :=
  let s := String.rev (int_lstrip (String.rev (int_lstrip value))) in
  let '(neg, body) := pystr.take_sign s in
  match int_digits false 0 body with
  | Some n => Some (if neg then - n else n)
  | None => None
  end.

(** [parse_int]: [int(value)], with [ValueError] turned into [None]. *)
Definition parse_int (value : string) : option Z := py_int value.

(** [parse_amount] *)
Definition parse_amount (value : string) : result (option Z) :=
  let value := pystr.remove_char " " (pystr.strip value) in
  if pystr.is_empty value then Ok None
  else
    let value := pystr.replace_char "," "." value in
    match decimal.of_string value with
    | Raise InvalidOperation => Ok None
    | Raise e => Raise e
    | Ok dec_value =>
        q ← decimal.of_string "0.01";
        dec_value ← decimal.quantize dec_value q decimal.ROUND_HALF_UP;
        product ← decimal.mul dec_value (decimal.of_int 100);
        cents ← decimal.to_int product;
        Ok (Some cents)
    end.

(** ** Schema ([db.py]) *)

Record category_row : Set :=
  { cat_name : string; cat_type_id : Z }.
Record subcategory_row : Set :=
  { sub_name : string; sub_category_id : Z }.
Record cashflow_row : Set :=
  { cf_recorded_on : string;
    cf_status_id : Z;
    cf_type_id : Z;
    cf_category_id : Z;
    cf_subcategory_id : Z;
    cf_amount_cents : Z;
    cf_comment : option string }.

(** The five tables, keyed by [id], and the AUTOINCREMENT counter of
    [cashflows]. *)
Record database : Type :=
  { statuses : gmap Z string;
    types : gmap Z string;
    categories : gmap Z category_row;
    subcategories : gmap Z subcategory_row;
    cashflows : gmap Z cashflow_row;
    cashflows_seq : Z }.

Definition with_statuses (m : gmap Z string) (db : database) : database :=
  {| statuses := m; types := types db; categories := categories db;
     subcategories := subcategories db; cashflows := cashflows db;
     cashflows_seq := cashflows_seq db |}.
Definition with_types (m : gmap Z string) (db : database) : database :=
  {| statuses := statuses db; types := m; categories := categories db;
     subcategories := subcategories db; cashflows := cashflows db;
     cashflows_seq := cashflows_seq db |}.
Definition with_categories (m : gmap Z category_row) (db : database) : database :=
  {| statuses := statuses db; types := types db; categories := m;
     subcategories := subcategories db; cashflows := cashflows db;
     cashflows_seq := cashflows_seq db |}.
Definition with_subcategories (m : gmap Z subcategory_row) (db : database) : database :=
  {| statuses := statuses db; types := types db; categories := categories db;
     subcategories := m; cashflows := cashflows db;
     cashflows_seq := cashflows_seq db |}.
Definition with_cashflows (m : gmap Z cashflow_row) (seq : Z) (db : database) : database :=
  {| statuses := statuses db; types := types db; categories := categories db;
     subcategories := subcategories db; cashflows := m;
     cashflows_seq := seq |}.

(** What the storage engine decides when it compares a bound TEXT
    parameter with a column: the order it puts on two [recorded_on]
    values, and the integer a text stands for when it is compared with an
    INTEGER column (none when it equals no integer). *)
Class SqlEngine : Type :=
  { recorded_le : relation string;
    recorded_le_dec :: RelDecision recorded_le;
    recorded_le_total :: Total recorded_le;
    recorded_le_trans :: Transitive recorded_le;
    integer_of_text : string → option Z }.

(** The entry dict that validation fills; an absent key is [None]. *)
Record entry_data : Set :=
  { recorded_on : option string;
    status_id : option Z;
    type_id : option Z;
    category_id : option Z;
    subcategory_id : option Z;
    amount_cents : option Z;
    amount : option string;
    comment : option string }.

Definition empty_data : entry_data :=
  {| recorded_on := None; status_id := None; type_id := None;
     category_id := None; subcategory_id := None; amount_cents := None;
     amount := None; comment := None |}.

Definition set_recorded_on (v : string) (d : entry_data) : entry_data :=
  {| recorded_on := Some v; status_id := status_id d; type_id := type_id d;
     category_id := category_id d; subcategory_id := subcategory_id d;
     amount_cents := amount_cents d; amount := amount d; comment := comment d |}.
Definition set_status_id (v : Z) (d : entry_data) : entry_data :=
  {| recorded_on := recorded_on d; status_id := Some v; type_id := type_id d;
     category_id := category_id d; subcategory_id := subcategory_id d;
     amount_cents := amount_cents d; amount := amount d; comment := comment d |}.
Definition set_type_id (v : Z) (d : entry_data) : entry_data :=
  {| recorded_on := recorded_on d; status_id := status_id d; type_id := Some v;
     category_id := category_id d; subcategory_id := subcategory_id d;
     amount_cents := amount_cents d; amount := amount d; comment := comment d |}.
Definition set_category_id (v : Z) (d : entry_data) : entry_data :=
  {| recorded_on := recorded_on d; status_id := status_id d; type_id := type_id d;
     category_id := Some v; subcategory_id := subcategory_id d;
     amount_cents := amount_cents d; amount := amount d; comment := comment d |}.
Definition set_subcategory_id (v : Z) (d : entry_data) : entry_data :=
  {| recorded_on := recorded_on d; status_id := status_id d; type_id := type_id d;
     category_id := category_id d; subcategory_id := Some v;
     amount_cents := amount_cents d; amount := amount d; comment := comment d |}.
Definition set_amount (cents : Z) (raw : string) (d : entry_data) : entry_data :=
  {| recorded_on := recorded_on d; status_id := status_id d; type_id := type_id d;
     category_id := category_id d; subcategory_id := subcategory_id d;
     amount_cents := Some cents; amount := Some raw; comment := comment d |}.
Definition set_comment (v : string) (d : entry_data) : entry_data :=
  {| recorded_on := recorded_on d; status_id := status_id d; type_id := type_id d;
     category_id := category_id d; subcategory_id := subcategory_id d;
     amount_cents := amount_cents d; amount := amount d; comment := Some v |}.

(** [d.get(key, default)] on a dict of strings. *)
Definition dict_get (d : gmap string string) (key default : string) : string :=
  match d !! key with Some v => v | None => default end.

(** [d.get(key)] when the value is truthy, that is, present and not
    empty. *)
Definition get_truthy (d : gmap string string) (key : string) : option string :=
  match d !! key with
  | Some v => if pystr.is_empty v then None else Some v
  | None => None
  end.

(** A truthy [Optional[int]]: neither [None] nor 0. *)
Definition truthy_int (v : option Z) : option Z :=
  match v with
  | Some n => if n =? 0 then None else Some n
  | None => None
  end.

(** ** [repository.py] *)

Module repo.

(** One row of the SELECT in [list_cashflows]. *)
Record ledger_row : Set :=
  { row_id : Z;
    row_recorded_on : string;
    row_amount_cents : Z;
    row_comment : option string;
    row_status_name : string;
    row_type_name : string;
    row_category_name : string;
    row_subcategory_name : string;
    row_status_id : Z;
    row_type_id : Z;
    row_category_id : Z;
    row_subcategory_id : Z }.

(** An element of [conditions] together with its parameter. *)
Inductive condition : Set :=
  | RecordedOnGe (p : string)      (* recorded_on >= ? *)
  | RecordedOnLe (p : string)      (* recorded_on <= ? *)
  | StatusIdEq (p : string)        (* status_id = ? *)
  | TypeIdEq (p : string)          (* type_id = ? *)
  | CategoryIdEq (p : string)      (* category_id = ? *)
  | SubcategoryIdEq (p : string).  (* subcategory_id = ? *)

Definition when_truthy (filters : gmap string string) (key : string)
    (c : string → condition) : list condition :=
  match get_truthy filters key with
  | Some p => [c p]
  | None => []
  end.

Definition conditions (filters : gmap string string) : list condition :=
  (when_truthy filters "date_from" RecordedOnGe
  ++ when_truthy filters "date_to" RecordedOnLe
  ++ when_truthy filters "status_id" StatusIdEq
  ++ when_truthy filters "type_id" TypeIdEq
  ++ when_truthy filters "category_id" CategoryIdEq
  ++ when_truthy filters "subcategory_id" SubcategoryIdEq)%list.

(** FROM cashflows JOIN statuses .. JOIN types .. JOIN categories ..
    JOIN subcategories: each join is on the primary key of the joined
    table. *)
Definition join_row (db : database) (kv : Z * cashflow_row) : option ledger_row :=
  let '(id, cf) := kv in
  st ← statuses db !! cf_status_id cf;
  ty ← types db !! cf_type_id cf;
  cat ← categories db !! cf_category_id cf;
  sub ← subcategories db !! cf_subcategory_id cf;
  Some {| row_id := id;
          row_recorded_on := cf_recorded_on cf;
          row_amount_cents := cf_amount_cents cf;
          row_comment := cf_comment cf;
          row_status_name := st;
          row_type_name := ty;
          row_category_name := cat_name cat;
          row_subcategory_name := sub_name sub;
          row_status_id := cf_status_id cf;
          row_type_id := cf_type_id cf;
          row_category_id := cf_category_id cf;
          row_subcategory_id := cf_subcategory_id cf |}.

Definition joined (db : database) : list ledger_row :=
  omap (join_row db) (map_to_list (cashflows db)).

Section engine.
Context `{SqlEngine}.

Definition holds (r : ledger_row) (c : condition) : bool :=
  match c with
  | RecordedOnGe p => bool_decide (recorded_le p (row_recorded_on r))
  | RecordedOnLe p => bool_decide (recorded_le (row_recorded_on r) p)
  | StatusIdEq p => bool_decide (integer_of_text p = Some (row_status_id r))
  | TypeIdEq p => bool_decide (integer_of_text p = Some (row_type_id r))
  | CategoryIdEq p => bool_decide (integer_of_text p = Some (row_category_id r))
  | SubcategoryIdEq p =>
      bool_decide (integer_of_text p = Some (row_subcategory_id r))
  end.

(** WHERE c1 AND .. AND cn; no WHERE at all when [conditions] is
    empty. *)
Definition where_clause (cs : list condition) (r : ledger_row) : Prop :=
  forallb (holds r) cs = true.

(** ORDER BY recorded_on DESC, cashflows.id DESC: [r1] may come before
    [r2]. *)
Definition order_by (r1 r2 : ledger_row) : Prop :=
  recorded_le (row_recorded_on r2) (row_recorded_on r1)
  ∧ (recorded_le (row_recorded_on r1) (row_recorded_on r2)
     → row_id r2 ≤ row_id r1).

#[global] Instance order_by_dec : RelDecision order_by.
Proof. intros r1 r2. unfold order_by. apply _. Defined.

#[global] Instance where_clause_dec cs r : Decision (where_clause cs r).
Proof. unfold where_clause. apply _. Defined.

Definition list_cashflows (db : database) (filters : gmap string string)
    : list ledger_row :=
  merge_sort order_by (filter (where_clause (conditions filters)) (joined db)).

End engine.

Definition get_cashflow (db : database) (entry_id : Z) : option cashflow_row :=
  cashflows db !! entry_id.

(** REFERENCES statuses(id), types(id), categories(id),
    subcategories(id) on a cashflows row. *)
Definition references_exist (db : database) (row : cashflow_row) : bool :=
  bool_decide (is_Some (statuses db !! cf_status_id row))
  && bool_decide (is_Some (types db !! cf_type_id row))
  && bool_decide (is_Some (categories db !! cf_category_id row))
  && bool_decide (is_Some (subcategories db !! cf_subcategory_id row)).

(** [payload[key]] for the six mandatory keys, [payload.get("comment")]
    for the seventh parameter. *)
Definition row_of_payload (payload : entry_data) : result cashflow_row :=
  match recorded_on payload, status_id payload, type_id payload,
        category_id payload, subcategory_id payload, amount_cents payload with
  | Some d, Some s, Some t, Some c, Some sc, Some a =>
      Ok {| cf_recorded_on := d; cf_status_id := s; cf_type_id := t;
            cf_category_id := c; cf_subcategory_id := sc;
            cf_amount_cents := a; cf_comment := comment payload |}
  | _, _, _, _, _, _ => Raise KeyError
  end.

Definition max_rowid {A} (m : gmap Z A) : Z :=
  foldr Z.max 0 (map fst (map_to_list m)).

Definition create_cashflow (db : database) (payload : entry_data)
    : result (database * Z) :=
  row ← row_of_payload payload;
  if references_exist db row then
    let id := Z.max (cashflows_seq db) (max_rowid (cashflows db)) + 1 in
    Ok (with_cashflows (<[id := row]> (cashflows db)) id db, id)
  else Raise IntegrityError.

Definition update_cashflow (db : database) (entry_id : Z) (payload : entry_data)
    : result database :=
  row ← row_of_payload payload;
  match cashflows db !! entry_id with
  | None => Ok db
  | Some _ =>
      if references_exist db row then
        Ok (with_cashflows (<[entry_id := row]> (cashflows db)) (cashflows_seq db) db)
      else Raise IntegrityError
  end.

Definition delete_cashflow (db : database) (entry_id : Z) : database :=
  with_cashflows (delete entry_id (cashflows db)) (cashflows_seq db) db.

(** Is there a cashflows row on which [p] holds? *)
Definition any_cashflow (db : database) (p : cashflow_row → bool) : bool :=
  existsb (λ kv, p kv.2) (map_to_list (cashflows db)).

(** DELETE FROM statuses: a referenced row cannot go (no ON DELETE
    clause on cashflows.status_id). *)
Definition delete_status (db : database) (status_id : Z) : result database :=
  match statuses db !! status_id with
  | None => Ok db
  | Some _ =>
      if any_cashflow db (λ cf, cf_status_id cf =? status_id)
      then Raise IntegrityError
      else Ok (with_statuses (delete status_id (statuses db)) db)
  end.

Definition categories_of (db : database) (type_id : Z) : gmap Z category_row :=
  filter (λ kv, cat_type_id kv.2 = type_id) (categories db).

Definition subcategories_of (db : database) (cats : gmap Z category_row)
    : gmap Z subcategory_row :=
  filter (λ kv, is_Some (cats !! sub_category_id kv.2)) (subcategories db).

(** DELETE FROM types: categories go with their type and subcategories
    with their category (ON DELETE CASCADE); the statement fails when a
    cashflows row references anything that would go. *)
Definition delete_type (db : database) (type_id : Z) : result database :=
  match types db !! type_id with
  | None => Ok db
  | Some _ =>
      let cats := categories_of db type_id in
      let subs := subcategories_of db cats in
      if any_cashflow db (λ cf,
           (cf_type_id cf =? type_id)
           || bool_decide (is_Some (cats !! cf_category_id cf))
           || bool_decide (is_Some (subs !! cf_subcategory_id cf)))
      then Raise IntegrityError
      else Ok (with_subcategories (subcategories db ∖ subs)
                (with_categories (categories db ∖ cats)
                  (with_types (delete type_id (types db)) db)))
  end.

Definition delete_category (db : database) (category_id : Z) : result database :=
  match categories db !! category_id with
  | None => Ok db
  | Some _ =>
      let subs : gmap Z subcategory_row :=
        filter (λ kv, sub_category_id kv.2 = category_id) (subcategories db) in
      if any_cashflow db (λ cf,
           (cf_category_id cf =? category_id)
           || bool_decide (is_Some (subs !! cf_subcategory_id cf)))
      then Raise IntegrityError
      else Ok (with_subcategories (subcategories db ∖ subs)
                (with_categories (delete category_id (categories db)) db))
  end.

Definition delete_subcategory (db : database) (subcategory_id : Z) : result database :=
  match subcategories db !! subcategory_id with
  | None => Ok db
  | Some _ =>
      if any_cashflow db (λ cf, cf_subcategory_id cf =? subcategory_id)
      then Raise IntegrityError
      else Ok (with_subcategories (delete subcategory_id (subcategories db)) db)
  end.

Definition get_status (db : database) (status_id : Z) : option string :=
  statuses db !! status_id.

Definition get_type (db : database) (type_id : Z) : option string :=
  types db !! type_id.

Definition get_category (db : database) (category_id : Z) : option category_row :=
  categories db !! category_id.

(** The row of [get_subcategory]: subcategories JOIN categories. *)
Record subcategory_info : Set :=
  { si_name : string; si_category_id : Z; si_type_id : Z }.

Definition get_subcategory (db : database) (subcategory_id : Z)
    : option subcategory_info :=
  sub ← subcategories db !! subcategory_id;
  cat ← categories db !! sub_category_id sub;
  Some {| si_name := sub_name sub;
          si_category_id := sub_category_id sub;
          si_type_id := cat_type_id cat |}.

Definition count_where {A} (m : gmap Z A) (p : A → bool) : Z :=
  Z.of_nat (length (List.filter (λ kv : Z * A, p kv.2) (map_to_list m))).

(** SELECT COUNT( * ) FROM table WHERE column = ?, for the reference
    columns; another table or column name is an unknown name to the
    model. *)
Definition count_dependencies (db : database) (table column : string) (value : Z)
    : result Z :=
  if String.eqb table "cashflows" then
    if String.eqb column "status_id" then
      Ok (count_where (cashflows db) (λ cf, cf_status_id cf =? value))
    else if String.eqb column "type_id" then
      Ok (count_where (cashflows db) (λ cf, cf_type_id cf =? value))
    else if String.eqb column "category_id" then
      Ok (count_where (cashflows db) (λ cf, cf_category_id cf =? value))
    else if String.eqb column "subcategory_id" then
      Ok (count_where (cashflows db) (λ cf, cf_subcategory_id cf =? value))
    else Raise OperationalError
  else if String.eqb table "categories" then
    if String.eqb column "type_id" then
      Ok (count_where (categories db) (λ c, cat_type_id c =? value))
    else Raise OperationalError
  else if String.eqb table "subcategories" then
    if String.eqb column "category_id" then
      Ok (count_where (subcategories db) (λ s, sub_category_id s =? value))
    else Raise OperationalError
  else Raise OperationalError.

End repo.

(** ** Views of [server.py] *)

(** What the model keeps of a response: the status line, the page title
    and the flash messages [(level, text)], or the success text of a
    302 redirect to the index. *)
Inductive response : Set :=
  | Page (status title : string) (messages : list (string * string))
  | Found (success : string).

Definition render_reference_page (messages : list (string * string)) : response :=
  Page "200 OK" "Справочники" messages.

Definition not_found : response :=
  Page "404 Not Found" "Страница не найдена" [].

(** The messages of [validate_entry_form], in the order of the source. *)
Definition E_DATE_REQUIRED : string := "Дата операции обязательна".
Definition E_STATUS_REQUIRED : string := "Статус обязателен".
Definition E_STATUS_UNKNOWN : string := "Выбран несуществующий статус".
Definition E_TYPE_REQUIRED : string := "Тип обязателен".
Definition E_TYPE_UNKNOWN : string := "Выбран несуществующий тип".
Definition E_CATEGORY_REQUIRED : string := "Категория обязательна".
Definition E_CATEGORY_UNKNOWN : string := "Выбрана несуществующая категория".
Definition E_CATEGORY_TYPE : string := "Категория не связана с выбранным типом".
Definition E_SUBCATEGORY_REQUIRED : string := "Подкатегория обязательна".
Definition E_SUBCATEGORY_UNKNOWN : string := "Выбрана несуществующая подкатегория".
Definition E_SUBCATEGORY_CATEGORY : string :=
  "Подкатегория не относится к выбранной категории".
Definition E_SUBCATEGORY_TYPE : string :=
  "Подкатегория не относится к выбранному типу".
Definition E_AMOUNT : string := "Введите корректную сумму".

(** The state that [validate_entry_form] threads: [data] and [errors]. *)
Definition vstate : Set := entry_data * list string.

Definition add_error (msg : string) (st : vstate) : vstate :=
  (st.1, (st.2 ++ [msg])%list).

Definition check_recorded_on (form : gmap string string) (st : vstate) : vstate :=
  let recorded_on := pystr.strip (dict_get form "recorded_on" EmptyString) in
  if pystr.is_empty recorded_on then add_error E_DATE_REQUIRED st
  else (set_recorded_on recorded_on st.1, st.2).

Definition check_status (db : database) (form : gmap string string) (st : vstate)
    : vstate :=
  let status_id := parse_int (dict_get form "status_id" EmptyString) in
  match truthy_int status_id with
  | None => add_error E_STATUS_REQUIRED st
  | Some sid =>
      match repo.get_status db sid with
      | None => add_error E_STATUS_UNKNOWN st
      | Some _ => (set_status_id sid st.1, st.2)
      end
  end.

Definition check_type (db : database) (form : gmap string string) (st : vstate)
    : vstate :=
  let type_id := parse_int (dict_get form "type_id" EmptyString) in
  match truthy_int type_id with
  | None => add_error E_TYPE_REQUIRED st
  | Some tid =>
      match repo.get_type db tid with
      | None => add_error E_TYPE_UNKNOWN st
      | Some _ => (set_type_id tid st.1, st.2)
      end
  end.

Definition check_category (db : database) (form : gmap string string) (st : vstate)
    : vstate :=
  let type_id := parse_int (dict_get form "type_id" EmptyString) in
  let category_id := parse_int (dict_get form "category_id" EmptyString) in
  match truthy_int category_id with
  | None => add_error E_CATEGORY_REQUIRED st
  | Some cid =>
      match repo.get_category db cid with
      | None => add_error E_CATEGORY_UNKNOWN st
      | Some category =>
          let st := (set_category_id cid st.1, st.2) in
          match truthy_int type_id with
          | Some tid =>
              if bool_decide (cat_type_id category ≠ tid)
              then add_error E_CATEGORY_TYPE st else st
          | None => st
          end
      end
  end.

Definition check_subcategory (db : database) (form : gmap string string)
    (st : vstate) : vstate :=
  let type_id := parse_int (dict_get form "type_id" EmptyString) in
  let category_id := parse_int (dict_get form "category_id" EmptyString) in
  let subcategory_id := parse_int (dict_get form "subcategory_id" EmptyString) in
  match truthy_int subcategory_id with
  | None => add_error E_SUBCATEGORY_REQUIRED st
  | Some scid =>
      match repo.get_subcategory db scid with
      | None => add_error E_SUBCATEGORY_UNKNOWN st
      | Some subcategory =>
          let st := (set_subcategory_id scid st.1, st.2) in
          let st :=
            match truthy_int category_id with
            | Some cid =>
                if bool_decide (repo.si_category_id subcategory ≠ cid)
                then add_error E_SUBCATEGORY_CATEGORY st else st
            | None => st
            end in
          match truthy_int type_id with
          | Some tid =>
              if bool_decide (repo.si_type_id subcategory ≠ tid)
              then add_error E_SUBCATEGORY_TYPE st else st
          | None => st
          end
      end
  end.

Definition check_amount (form : gmap string string) (st : vstate) : result vstate :=
  let amount_raw := dict_get form "amount" EmptyString in
  cents ← parse_amount amount_raw;
  match cents with
  | None => Ok (add_error E_AMOUNT st)
  | Some c =>
      if c =? 0 then Ok (add_error E_AMOUNT st)
      else Ok (set_amount c amount_raw st.1, st.2)
  end.

(** [validate_entry_form]: the blocks of the source, one after the
    other, on [(data, errors)]. *)
Definition validate_entry_form (db : database) (form : gmap string string)
    : result (entry_data * list string) :=
  let st : vstate := (empty_data, []) in
  let st := check_recorded_on form st in
  let st := check_status db form st in
  let st := check_type db form st in
  let st := check_category db form st in
  let st := check_subcategory db form st in
  st ← check_amount form st;
  Ok (set_comment (pystr.strip (dict_get form "comment" EmptyString)) st.1, st.2).

Definition error_messages (errors : list string) : list (string * string) :=
  map (λ error, ("error", error)) errors.

(** [view_create_entry] on the posted form. *)
Definition view_create_entry (form : gmap string string) (db : database)
    : result (database * response) :=
  '(data, errors) ← validate_entry_form db form;
  match errors with
  | _ :: _ => Ok (db, Page "400 Bad Request" "Новая запись" (error_messages errors))
  | [] =>
      '(db', _) ← repo.create_cashflow db data;
      Ok (db', Found "Запись успешно создана")
  end.

(** [view_update_entry] on [params["entry_id"]] and the posted form. *)
Definition view_update_entry (entry_id : Z) (form : gmap string string)
    (db : database) : result (database * response) :=
  match repo.get_cashflow db entry_id with
  | None => Ok (db, not_found)
  | Some _ =>
      '(data, errors) ← validate_entry_form db form;
      match errors with
      | _ :: _ =>
          Ok (db, Page "400 Bad Request" "Редактирование записи"
                    (error_messages errors))
      | [] =>
          db' ← repo.update_cashflow db entry_id data;
          Ok (db', Found "Запись обновлена")
      end
  end.

Definition view_delete_entry (entry_id : Z) (db : database)
    : result (database * response) :=
  match repo.get_cashflow db entry_id with
  | None => Ok (db, not_found)
  | Some _ => Ok (repo.delete_cashflow db entry_id, Found "Запись удалена")
  end.

(** [count_dependencies(table, column, value) > 0] *)
Definition has_dependencies (db : database) (table column : string) (value : Z)
    : result bool :=
  n ← repo.count_dependencies db table column value;
  Ok (0 <? n).

Definition M_STATUS_IN_USE : string :=
  "Нельзя удалить статус, пока существуют связанные записи ДДС".
Definition M_TYPE_IN_USE : string :=
  "Нельзя удалить тип с существующими категориями или записями ДДС".
Definition M_CATEGORY_IN_USE : string :=
  "Нельзя удалить категорию, пока существуют связанные подкатегории или записи ДДС".
Definition M_SUBCATEGORY_IN_USE : string :=
  "Нельзя удалить подкатегорию, пока существуют связанные записи ДДС".
Definition M_DELETED : string := "Элемент удалён".

(** [handle_reference_delete]; [a or b] evaluates [b] only when [a] is
    false. *)
Definition handle_reference_delete (entity : string) (entity_id : Z) (db : database)
    : result (database * response) :=
  let done (db' : database) := Ok (db', render_reference_page [("success", M_DELETED)]) in
  let refuse (msg : string) := Ok (db, render_reference_page [("error", msg)]) in
  if String.eqb entity "status" then
    used ← has_dependencies db "cashflows" "status_id" entity_id;
    if used : bool then refuse M_STATUS_IN_USE
    else db' ← repo.delete_status db entity_id; done db'
  else if String.eqb entity "type" then
    used ← has_dependencies db "categories" "type_id" entity_id;
    used ← (if used : bool then Ok true
            else has_dependencies db "cashflows" "type_id" entity_id);
    if used : bool then refuse M_TYPE_IN_USE
    else db' ← repo.delete_type db entity_id; done db'
  else if String.eqb entity "category" then
    used ← has_dependencies db "subcategories" "category_id" entity_id;
    used ← (if used : bool then Ok true
            else has_dependencies db "cashflows" "category_id" entity_id);
    if used : bool then refuse M_CATEGORY_IN_USE
    else db' ← repo.delete_category db entity_id; done db'
  else
    used ← has_dependencies db "cashflows" "subcategory_id" entity_id;
    if used : bool then refuse M_SUBCATEGORY_IN_USE
    else db' ← repo.delete_subcategory db entity_id; done db'.

(** [application]: the handler's response, 404 for a [KeyError], 500 for
    any other exception.  A handler that raises has written nothing. *)
Definition application (handler : database → result (database * response))
    (db : database) : database * response :=
  match handler db with
  | Ok out => out
  | Raise KeyError => (db, not_found)
  | Raise _ =>
      (db, Page "500 Internal Server Error" "Ошибка"
             [("error", "Внутренняя ошибка сервера")])
  end.

(** ** A database and an engine to run the model on *)

(** The reference tables after [ensure_initial_data] on an empty file. *)
Definition seed_db : database :=
  {| statuses := list_to_map [(1, "Бизнес"); (2, "Личное"); (3, "Налог")];
     types := list_to_map [(1, "Пополнение"); (2, "Списание")];
     categories := list_to_map
       [(1, {| cat_name := "Инфраструктура"; cat_type_id := 2 |});
        (2, {| cat_name := "Маркетинг"; cat_type_id := 2 |});
        (3, {| cat_name := "Прочее"; cat_type_id := 1 |})];
     subcategories := list_to_map
       [(1, {| sub_name := "VPS"; sub_category_id := 1 |});
        (2, {| sub_name := "Proxy"; sub_category_id := 1 |});
        (3, {| sub_name := "Farpost"; sub_category_id := 2 |});
        (4, {| sub_name := "Avito"; sub_category_id := 2 |});
        (5, {| sub_name := "Инвестиции"; sub_category_id := 3 |});
        (6, {| sub_name := "Возврат долга"; sub_category_id := 3 |})];
     cashflows := ∅;
     cashflows_seq := 0 |}.

(** The engine on values that stay TEXT and on decimal integer texts:
    dates compare bytewise, an id text is read as [int] reads it. *)
#[export] Instance text_engine : SqlEngine :=
  {| recorded_le := String.le; integer_of_text := py_int |}.

Definition entry_form (recorded_on status_id type_id category_id subcategory_id
    amount comment : string) : gmap string string :=
  list_to_map
    [("recorded_on", recorded_on); ("status_id", status_id);
     ("type_id", type_id); ("category_id", category_id);
     ("subcategory_id", subcategory_id); ("amount", amount);
     ("comment", comment)].

(** ** Reference definitions the claims are stated with *)

(** [c * 10^e * 100] rounded to an integer, a half going up:
    [floor (c * 10^(e+2) + 1/2)]. *)
Definition round_half_up_x100 (c e : Z) : Z :=
  if 0 <=? e + 2 then c * 10 ^ (e + 2)
  else (2 * c + 10 ^ (- (e + 2))) / (2 * 10 ^ (- (e + 2))).

(** The text that [parse_amount] hands to [Decimal]. *)
Definition amount_text (value : string) : string :=
  pystr.replace_char "," "." (pystr.remove_char " " (pystr.strip value)).

(** The rules of entry validation, in the order of their messages. *)
Inductive rule : Set :=
  | DateRequired
  | StatusRequired | StatusUnknown
  | TypeRequired | TypeUnknown
  | CategoryRequired | CategoryUnknown | CategoryOfOtherType
  | SubcategoryRequired | SubcategoryUnknown
  | SubcategoryOfOtherCategory | SubcategoryOfOtherType
  | AmountInvalid.

Definition date_rules : list rule := [DateRequired].
Definition status_rules : list rule := [StatusRequired; StatusUnknown].
Definition type_rules : list rule := [TypeRequired; TypeUnknown].
Definition category_rules : list rule :=
  [CategoryRequired; CategoryUnknown; CategoryOfOtherType].
Definition subcategory_rules : list rule :=
  [SubcategoryRequired; SubcategoryUnknown;
   SubcategoryOfOtherCategory; SubcategoryOfOtherType].
Definition amount_rules : list rule := [AmountInvalid].

Definition all_rules : list rule :=
  (date_rules ++ status_rules ++ type_rules ++ category_rules
   ++ subcategory_rules ++ amount_rules)%list.

Definition message (r : rule) : string :=
  match r with
  | DateRequired => E_DATE_REQUIRED
  | StatusRequired => E_STATUS_REQUIRED
  | StatusUnknown => E_STATUS_UNKNOWN
  | TypeRequired => E_TYPE_REQUIRED
  | TypeUnknown => E_TYPE_UNKNOWN
  | CategoryRequired => E_CATEGORY_REQUIRED
  | CategoryUnknown => E_CATEGORY_UNKNOWN
  | CategoryOfOtherType => E_CATEGORY_TYPE
  | SubcategoryRequired => E_SUBCATEGORY_REQUIRED
  | SubcategoryUnknown => E_SUBCATEGORY_UNKNOWN
  | SubcategoryOfOtherCategory => E_SUBCATEGORY_CATEGORY
  | SubcategoryOfOtherType => E_SUBCATEGORY_TYPE
  | AmountInvalid => E_AMOUNT
  end.

(** The submitted ids, as [int] reads them; [None] when missing, not an
    integer, or 0. *)
Definition submitted (form : gmap string string) (key : string) : option Z :=
  truthy_int (parse_int (dict_get form key EmptyString)).

(** When is a rule violated by a form?  Each rule looks at the submitted
    fields and the reference tables only. *)
Definition violated (db : database) (form : gmap string string) (r : rule) : bool :=
  match r with
  | DateRequired =>
      pystr.is_empty (pystr.strip (dict_get form "recorded_on" EmptyString))
  | StatusRequired => bool_decide (submitted form "status_id" = None)
  | StatusUnknown =>
      match submitted form "status_id" with
      | Some sid => bool_decide (statuses db !! sid = None)
      | None => false
      end
  | TypeRequired => bool_decide (submitted form "type_id" = None)
  | TypeUnknown =>
      match submitted form "type_id" with
      | Some tid => bool_decide (types db !! tid = None)
      | None => false
      end
  | CategoryRequired => bool_decide (submitted form "category_id" = None)
  | CategoryUnknown =>
      match submitted form "category_id" with
      | Some cid => bool_decide (categories db !! cid = None)
      | None => false
      end
  | CategoryOfOtherType =>
      match submitted form "category_id", submitted form "type_id" with
      | Some cid, Some tid =>
          match categories db !! cid with
          | Some cat => bool_decide (cat_type_id cat ≠ tid)
          | None => false
          end
      | _, _ => false
      end
  | SubcategoryRequired => bool_decide (submitted form "subcategory_id" = None)
  | SubcategoryUnknown =>
      match submitted form "subcategory_id" with
      | Some scid => bool_decide (repo.get_subcategory db scid = None)
      | None => false
      end
  | SubcategoryOfOtherCategory =>
      match submitted form "subcategory_id", submitted form "category_id" with
      | Some scid, Some cid =>
          match repo.get_subcategory db scid with
          | Some sub => bool_decide (repo.si_category_id sub ≠ cid)
          | None => false
          end
      | _, _ => false
      end
  | SubcategoryOfOtherType =>
      match submitted form "subcategory_id", submitted form "type_id" with
      | Some scid, Some tid =>
          match repo.get_subcategory db scid with
          | Some sub => bool_decide (repo.si_type_id sub ≠ tid)
          | None => false
          end
      | _, _ => false
      end
  | AmountInvalid =>
      match parse_amount (dict_get form "amount" EmptyString) with
      | Ok None => true
      | Ok (Some c) => c =? 0
      | Raise _ => false
      end
  end.

(** The messages validation owes a form: one per violated rule, in the
    order of the rules. *)
Definition expected_errors (db : database) (form : gmap string string)
    : list string :=
  map message (List.filter (violated db form) all_rules).

(** The record validation owes a form whose amount parses to [cents]:
    each field is kept exactly when its own checks pass. *)
Definition expected_data (db : database) (form : gmap string string)
    (cents : option Z) : entry_data :=
  let date := pystr.strip (dict_get form "recorded_on" EmptyString) in
  let nonzero := match cents with Some c => negb (c =? 0) | None => false end in
  {| recorded_on := if pystr.is_empty date then None else Some date;
     status_id :=
       sid ← submitted form "status_id"; _ ← statuses db !! sid; Some sid;
     type_id :=
       tid ← submitted form "type_id"; _ ← types db !! tid; Some tid;
     category_id :=
       cid ← submitted form "category_id"; _ ← categories db !! cid; Some cid;
     subcategory_id :=
       scid ← submitted form "subcategory_id";
       _ ← repo.get_subcategory db scid; Some scid;
     amount_cents := if nonzero then cents else None;
     amount := if nonzero then Some (dict_get form "amount" EmptyString) else None;
     comment := Some (pystr.strip (dict_get form "comment" EmptyString)) |}.




(** No stored entry has a zero amount. *)
Definition amounts_nonzero (db : database) : Prop :=
  ∀ id row, cashflows db !! id = Some row → cf_amount_cents row ≠ 0.

Section satisfies.
Context `{SqlEngine}.


End satisfies.





(** The submitted category belongs to the submitted type. *)
Definition category_in_type (db : database) (form : gmap string string) : Prop :=
  ∃ cid tid cat,
    submitted form "category_id" = Some cid
    ∧ submitted form "type_id" = Some tid
    ∧ categories db !! cid = Some cat
    ∧ cat_type_id cat = tid.

(** The submitted subcategory belongs to the submitted category and,
    through its category, to the submitted type. *)
Definition subcategory_in_chain (db : database) (form : gmap string string)
    : Prop :=
  ∃ scid cid tid sub cat,
    submitted form "subcategory_id" = Some scid
    ∧ submitted form "category_id" = Some cid
    ∧ submitted form "type_id" = Some tid
    ∧ subcategories db !! scid = Some sub
    ∧ sub_category_id sub = cid
    ∧ categories db !! cid = Some cat
    ∧ cat_type_id cat = tid.

(** Every reference id in the record is the integer that was submitted. *)
Definition ids_as_submitted (form : gmap string string) (data : entry_data)
    : Prop :=
  (∀ v, status_id data = Some v → parse_int (dict_get form "status_id" EmptyString) = Some v)
  ∧ (∀ v, type_id data = Some v → parse_int (dict_get form "type_id" EmptyString) = Some v)
  ∧ (∀ v, category_id data = Some v
          → parse_int (dict_get form "category_id" EmptyString) = Some v)
  ∧ (∀ v, subcategory_id data = Some v
          → parse_int (dict_get form "subcategory_id" EmptyString) = Some v).

(** The seeded database after three create requests. *)
Definition ledger_db : database :=
  (application (view_create_entry (entry_form "2024-01-15" "2" "1" "3" "5" "8" EmptyString))
     (application (view_create_entry (entry_form "2024-01-31" "1" "2" "1" "2" "7" EmptyString))
        (application
           (view_create_entry (entry_form "2024-01-15" "1" "2" "1" "2" "12,30" "x"))
           seed_db).1).1).1.

(** ** Integrity of the stored data *)

(** A stored entry is sound in a database when its four references exist,
    its category is of its type and its subcategory is of its category. *)
Definition entry_consistent (db : database) (row : cashflow_row) : Prop :=
  is_Some (statuses db !! cf_status_id row)
  ∧ is_Some (types db !! cf_type_id row)
  ∧ (∃ cat, categories db !! cf_category_id row = Some cat
            ∧ cat_type_id cat = cf_type_id row)
  ∧ (∃ sub, subcategories db !! cf_subcategory_id row = Some sub
            ∧ sub_category_id sub = cf_category_id row).

Definition ledger_consistent (db : database) : Prop :=
  ∀ id row, cashflows db !! id = Some row → entry_consistent db row.

(** Every category has its type and every subcategory its category. *)
Definition hierarchy_consistent (db : database) : Prop :=
  (∀ id cat, categories db !! id = Some cat
             → is_Some (types db !! cat_type_id cat))
  ∧ (∀ id sub, subcategories db !! id = Some sub
               → is_Some (categories db !! sub_category_id sub)).

(** No entry id is above the AUTOINCREMENT counter of [cashflows]. *)
Definition ids_within_seq (db : database) : Prop :=
  ∀ id, is_Some (cashflows db !! id) → id ≤ cashflows_seq db.

(** A string of white space only ([str.isspace] on every character). *)
Fixpoint all_space (s : string) : bool :=
  match s with
  | String c s' => pystr.is_space c && all_space s'
  | EmptyString => true
  end.

(** ** The entries of the index page *)




(** ** Reference rows: INSERT and UPDATE ([repository.py]) *)

(** The AUTOINCREMENT counters of the four reference tables. *)
Record reference_seq : Set :=
  { statuses_seq : Z;
    types_seq : Z;
    categories_seq : Z;
    subcategories_seq : Z }.

(** The database file: the tables, with the counter of [cashflows], and
    the counters of the reference tables. *)
Definition store : Type := database * reference_seq.

(** The rowid that an AUTOINCREMENT table gives to a new row. *)
Definition next_rowid {A} (seq : Z) (m : gmap Z A) : Z :=
  Z.max seq (repo.max_rowid m) + 1.

(** UNIQUE(key): a row other than [self] has the key [k]. *)
Definition key_taken {A K} `{EqDecision K} (key : A → K) (m : gmap Z A)
    (self : option Z) (k : K) : bool :=
  bool_decide (map_Exists (λ id row, Some id ≠ self ∧ key row = k) m).

Definition category_key (c : category_row) : Z * string :=
  (cat_type_id c, cat_name c).

Definition subcategory_key (s : subcategory_row) : Z * string :=
  (sub_category_id s, sub_name s).

(** INSERT INTO statuses(name): name is UNIQUE. *)
Definition create_status (st : store) (name : string) : result (store * Z) :=
  if key_taken id (statuses st.1) None name then Raise IntegrityError
  else
    let rowid := next_rowid (statuses_seq st.2) (statuses st.1) in
    Ok ((with_statuses (<[rowid := name]> (statuses st.1)) st.1,
         {| statuses_seq := rowid; types_seq := types_seq st.2;
            categories_seq := categories_seq st.2;
            subcategories_seq := subcategories_seq st.2 |}), rowid).

Definition create_type (st : store) (name : string) : result (store * Z) :=
  if key_taken id (types st.1) None name then Raise IntegrityError
  else
    let rowid := next_rowid (types_seq st.2) (types st.1) in
    Ok ((with_types (<[rowid := name]> (types st.1)) st.1,
         {| statuses_seq := statuses_seq st.2; types_seq := rowid;
            categories_seq := categories_seq st.2;
            subcategories_seq := subcategories_seq st.2 |}), rowid).

(** INSERT INTO categories(name, type_id): type_id REFERENCES types(id),
    UNIQUE(type_id, name). *)
Definition create_category (st : store) (name : string) (type_id : Z)
    : result (store * Z) :=
  if bool_decide (types st.1 !! type_id = None)
     || key_taken category_key (categories st.1) None (type_id, name)
  then Raise IntegrityError
  else
    let rowid := next_rowid (categories_seq st.2) (categories st.1) in
    Ok ((with_categories
           (<[rowid := {| cat_name := name; cat_type_id := type_id |}]>
              (categories st.1)) st.1,
         {| statuses_seq := statuses_seq st.2; types_seq := types_seq st.2;
            categories_seq := rowid;
            subcategories_seq := subcategories_seq st.2 |}), rowid).

(** INSERT INTO subcategories(name, category_id): category_id REFERENCES
    categories(id), UNIQUE(category_id, name). *)
Definition create_subcategory (st : store) (name : string) (category_id : Z)
    : result (store * Z) :=
  if bool_decide (categories st.1 !! category_id = None)
     || key_taken subcategory_key (subcategories st.1) None (category_id, name)
  then Raise IntegrityError
  else
    let rowid := next_rowid (subcategories_seq st.2) (subcategories st.1) in
    Ok ((with_subcategories
           (<[rowid := {| sub_name := name; sub_category_id := category_id |}]>
              (subcategories st.1)) st.1,
         {| statuses_seq := statuses_seq st.2; types_seq := types_seq st.2;
            categories_seq := categories_seq st.2;
            subcategories_seq := rowid |}), rowid).

(** UPDATE statuses SET name = ? WHERE id = ?: no row, no change; the
    constraints are checked on the row that changes. *)
Definition update_status (db : database) (status_id : Z) (name : string)
    : result database :=
  match statuses db !! status_id with
  | None => Ok db
  | Some _ =>
      if key_taken id (statuses db) (Some status_id) name
      then Raise IntegrityError
      else Ok (with_statuses (<[status_id := name]> (statuses db)) db)
  end.

Definition update_type (db : database) (type_id : Z) (name : string)
    : result database :=
  match types db !! type_id with
  | None => Ok db
  | Some _ =>
      if key_taken id (types db) (Some type_id) name
      then Raise IntegrityError
      else Ok (with_types (<[type_id := name]> (types db)) db)
  end.

Definition update_category (db : database) (category_id : Z) (name : string)
    (type_id : Z) : result database :=
  match categories db !! category_id with
  | None => Ok db
  | Some _ =>
      if bool_decide (types db !! type_id = None)
         || key_taken category_key (categories db) (Some category_id)
              (type_id, name)
      then Raise IntegrityError
      else Ok (with_categories
                 (<[category_id := {| cat_name := name; cat_type_id := type_id |}]>
                    (categories db)) db)
  end.

Definition update_subcategory (db : database) (subcategory_id : Z)
    (name : string) (category_id : Z) : result database :=
  match subcategories db !! subcategory_id with
  | None => Ok db
  | Some _ =>
      if bool_decide (categories db !! category_id = None)
         || key_taken subcategory_key (subcategories db) (Some subcategory_id)
              (category_id, name)
      then Raise IntegrityError
      else Ok (with_subcategories
                 (<[subcategory_id :=
                      {| sub_name := name; sub_category_id := category_id |}]>
                    (subcategories db)) db)
  end.

(** ** Reference requests: creation and update ([server.py]) *)

Definition M_NAME_REQUIRED : string := "Название обязательно".
Definition M_BAD_TYPE : string := "Выберите корректный тип".
Definition M_BAD_CATEGORY : string := "Выберите корректную категорию".
Definition M_DUPLICATE : string := "Элемент с таким названием уже существует".
Definition M_ADDED : string := "Элемент добавлен".
Definition M_SAVED : string := "Изменения сохранены".
Definition M_CATEGORY_TYPE_LOCKED : string :=
  "Нельзя изменить тип категории, пока существуют связанные записи ДДС".
Definition M_SUBCATEGORY_LOCKED : string :=
  "Нельзя изменить категорию подкатегории, пока существуют связанные записи ДДС".

(** [try: .. except sqlite3.IntegrityError: return <page>] around a body
    that has written nothing when it raises. *)
Definition except_integrity_error {S} (s : S) (body : result (S * response))
    : result (S * response) :=
  match body with
  | Raise IntegrityError =>
      Ok (s, render_reference_page [("error", M_DUPLICATE)])
  | other => other
  end.

(** [handle_reference_creation] on the posted form. *)
Definition handle_reference_creation (entity : string)
    (form : gmap string string) (st : store) : result (store * response) :=
  let refuse (msg : string) := Ok (st, render_reference_page [("error", msg)]) in
  let added (st' : store) :=
    Ok (st', render_reference_page [("success", M_ADDED)]) in
  let name := pystr.strip (dict_get form "name" EmptyString) in
  if pystr.is_empty name then refuse M_NAME_REQUIRED
  else
    except_integrity_error st
      (if String.eqb entity "status" then
         '(st', _) ← create_status st name; added st'
       else if String.eqb entity "type" then
         '(st', _) ← create_type st name; added st'
       else if String.eqb entity "category" then
         match truthy_int (parse_int (dict_get form "type_id" EmptyString)) with
         | None => refuse M_BAD_TYPE
         | Some type_id =>
             match repo.get_type st.1 type_id with
             | None => refuse M_BAD_TYPE
             | Some _ => '(st', _) ← create_category st name type_id; added st'
             end
         end
       else if String.eqb entity "subcategory" then
         match truthy_int
                 (parse_int (dict_get form "category_id" EmptyString)) with
         | None => refuse M_BAD_CATEGORY
         | Some category_id =>
             match repo.get_category st.1 category_id with
             | None => refuse M_BAD_CATEGORY
             | Some _ =>
                 '(st', _) ← create_subcategory st name category_id; added st'
             end
         end
       else added st).

(** [handle_reference_update] on [params["entity_id"]] and the posted
    form; [a and b] evaluates [b] only when [a] is true. *)
Definition handle_reference_update (entity : string) (entity_id : Z)
    (form : gmap string string) (db : database) : result (database * response) :=
  let refuse (msg : string) := Ok (db, render_reference_page [("error", msg)]) in
  let saved (db' : database) :=
    Ok (db', render_reference_page [("success", M_SAVED)]) in
  let name := pystr.strip (dict_get form "name" EmptyString) in
  if pystr.is_empty name then refuse M_NAME_REQUIRED
  else
    except_integrity_error db
      (if String.eqb entity "status" then
         match repo.get_status db entity_id with
         | None => Ok (db, not_found)
         | Some _ => db' ← update_status db entity_id name; saved db'
         end
       else if String.eqb entity "type" then
         match repo.get_type db entity_id with
         | None => Ok (db, not_found)
         | Some _ => db' ← update_type db entity_id name; saved db'
         end
       else if String.eqb entity "category" then
         match repo.get_category db entity_id with
         | None => Ok (db, not_found)
         | Some category =>
             match truthy_int
                     (parse_int (dict_get form "type_id" EmptyString)) with
             | None => refuse M_BAD_TYPE
             | Some type_id =>
                 match repo.get_type db type_id with
                 | None => refuse M_BAD_TYPE
                 | Some _ =>
                     locked ←
                       (if bool_decide (type_id ≠ cat_type_id category)
                        then has_dependencies db "cashflows" "category_id"
                               entity_id
                        else Ok false);
                     if locked : bool then refuse M_CATEGORY_TYPE_LOCKED
                     else
                       db' ← update_category db entity_id name type_id;
                       saved db'
                 end
             end
         end
       else
         match repo.get_subcategory db entity_id with
         | None => Ok (db, not_found)
         | Some subcategory =>
             match truthy_int
                     (parse_int (dict_get form "category_id" EmptyString)) with
             | None => refuse M_BAD_CATEGORY
             | Some category_id =>
                 match repo.get_category db category_id with
                 | None => refuse M_BAD_CATEGORY
                 | Some _ =>
                     used ← has_dependencies db "cashflows" "subcategory_id"
                              entity_id;
                     if (used : bool)
                        && bool_decide
                             (category_id ≠ repo.si_category_id subcategory)
                     then refuse M_SUBCATEGORY_LOCKED
                     else
                       db' ← update_subcategory db entity_id name category_id;
                       saved db'
                 end
             end
         end).

(** ** Uniqueness of names *)

(** UNIQUE(key) on a table: no two rows share a key. *)
Definition unique_key {A K} (key : A → K) (m : gmap Z A) : Prop :=
  ∀ i j a b, m !! i = Some a → m !! j = Some b → key a = key b → i = j.

(** The UNIQUE constraints of the four reference tables. *)
Definition names_unique (db : database) : Prop :=
  unique_key id (statuses db)
  ∧ unique_key id (types db)
  ∧ unique_key category_key (categories db)
  ∧ unique_key subcategory_key (subcategories db).

(** ** Initial data ([db.py]) *)

Definition DEFAULT_STATUSES : list string := ["Бизнес"; "Личное"; "Налог"].

Definition DEFAULT_TYPES : list string := ["Пополнение"; "Списание"].

Definition DEFAULT_CATEGORIES : list (string * string * list string) :=
  [("Инфраструктура", "Списание", ["VPS"; "Proxy"]);
   ("Маркетинг", "Списание", ["Farpost"; "Avito"]);
   ("Прочее", "Пополнение", ["Инвестиции"; "Возврат долга"])].

(** SELECT COUNT( * ) FROM table *)
Definition table_count {A} (m : gmap Z A) : Z := Z.of_nat (size m).

(** [cur.executemany(insert, rows)]: the rows one after the other; the
    first failure ends the statement. *)
Fixpoint executemany {A} (insert : store → A → result (store * Z))
    (st : store) (rows : list A) : result store :=
  match rows with
  | [] => Ok st
  | row :: rows => '(st', _) ← insert st row; executemany insert st' rows
  end.

(** SELECT id FROM types WHERE name = ?, [fetchone]: names are UNIQUE, so
    at most one row matches in a stored table. *)
Definition type_id_by_name (db : database) (name : string) : option Z :=
  fst <$> head (filter (λ kv : Z * string, kv.2 = name)
                  (map_to_list (types db))).

(** The loop of [ensure_initial_data] over [DEFAULT_CATEGORIES]. *)
Fixpoint seed_categories (st : store)
    (entries : list (string * string * list string)) : result store :=
  match entries with
  | [] => Ok st
  | (category_name, type_name, subcats) :: rest =>
      match type_id_by_name st.1 type_name with
      | None => seed_categories st rest
      | Some type_id =>
          '(st, category_id) ← create_category st category_name type_id;
          st ← executemany (λ s sub, create_subcategory s sub category_id)
                 st subcats;
          seed_categories st rest
      end
  end.

(** [ensure_initial_data]: one transaction; an exception leaves the file
    as it was. *)
Definition ensure_initial_data (st : store) : result store :=
  st ← (if table_count (statuses st.1) =? 0
        then executemany create_status st DEFAULT_STATUSES else Ok st);
  st ← (if table_count (types st.1) =? 0
        then executemany create_type st DEFAULT_TYPES else Ok st);
  if table_count (categories st.1) =? 0
  then seed_categories st DEFAULT_CATEGORIES else Ok st.

(** The file before the first start: the schema and no row. *)
Definition empty_store : store :=
  ({| statuses := ∅; types := ∅; categories := ∅; subcategories := ∅;
      cashflows := ∅; cashflows_seq := 0 |},
   {| statuses_seq := 0; types_seq := 0; categories_seq := 0;
      subcategories_seq := 0 |}).

(** One file extends another: every reference row is kept, the entries
    are the same, and the invariants of the reference data carry over. *)
Definition extends (db db' : database) : Prop :=
  statuses db ⊆ statuses db'
  ∧ types db ⊆ types db'
  ∧ categories db ⊆ categories db'
  ∧ subcategories db ⊆ subcategories db'
  ∧ cashflows db' = cashflows db
  ∧ cashflows_seq db' = cashflows_seq db
  ∧ (hierarchy_consistent db → hierarchy_consistent db')
  ∧ (names_unique db → names_unique db').

(** ** Reference lists ([db.py]) *)

(** A row of the categories query: categories JOIN types. *)
Record category_item : Set :=
  { ci_id : Z; ci_name : string; ci_type_id : Z; ci_type_name : string }.

(** A row of the subcategories query: subcategories JOIN categories. *)
Record subcategory_item : Set :=
  { sc_id : Z; sc_name : string; sc_category_id : Z;
    sc_category_name : string; sc_type_id : Z }.

Record ReferenceLists : Set :=
  { ref_statuses : list (Z * string);
    ref_types : list (Z * string);
    ref_categories : list category_item;
    ref_subcategories : list subcategory_item }.

(** ORDER BY a TEXT column, ascending: the bytes compare. *)
Definition by_text {A} (key : A → string) (x y : A) : Prop :=
  String.le (key x) (key y).

(** ORDER BY two TEXT columns. *)
Definition by_texts {A} (key1 key2 : A → string) (x y : A) : Prop :=
  String.le (key1 x) (key1 y)
  ∧ (String.le (key1 y) (key1 x) → String.le (key2 x) (key2 y)).

#[global] Instance by_text_dec {A} (key : A → string) : RelDecision (by_text key).
Proof. intros x y. unfold by_text. apply _. Defined.

#[global] Instance by_texts_dec {A} (key1 key2 : A → string) :
  RelDecision (by_texts key1 key2).
Proof. intros x y. unfold by_texts. apply _. Defined.

Definition category_item_of (db : database) (kv : Z * category_row)
    : option category_item :=
  ty ← types db !! cat_type_id kv.2;
  Some {| ci_id := kv.1; ci_name := cat_name kv.2;
          ci_type_id := cat_type_id kv.2; ci_type_name := ty |}.

Definition subcategory_item_of (db : database) (kv : Z * subcategory_row)
    : option subcategory_item :=
  cat ← categories db !! sub_category_id kv.2;
  Some {| sc_id := kv.1; sc_name := sub_name kv.2;
          sc_category_id := sub_category_id kv.2;
          sc_category_name := cat_name cat; sc_type_id := cat_type_id cat |}.

(** [load_reference_lists] *)
Definition load_reference_lists (db : database) : ReferenceLists :=
  {| ref_statuses := merge_sort (by_text snd) (map_to_list (statuses db));
     ref_types := merge_sort (by_text snd) (map_to_list (types db));
     ref_categories :=
       merge_sort (by_texts ci_type_name ci_name)
         (omap (category_item_of db) (map_to_list (categories db)));
     ref_subcategories :=
       merge_sort (by_texts sc_category_name sc_name)
         (omap (subcategory_item_of db) (map_to_list (subcategories db))) |}.

(** ** Amounts as text ([server.py]) *)

(** [num / den] rounded to the nearest integer, a half going to the even
    one; [0 < den]. *)
Definition round_half_even (num den : Z) : Z :=
  let q := num / den in
  let r := num mod den in
  if 2 * r <? den then q
  else if den <? 2 * r then q + 1
  else if Z.even q then q else q + 1.

(** A finite [float]: [(-1)^sign * mant * 2^exp]. *)
Record float : Set := { f_sign : bool; f_mant : Z; f_exp : Z }.

(** [cents / 100]: the true division of two ints gives the [float]
    nearest to the quotient (53 bits, half to even), and raises when the
    quotient is too large for a [float]. *)
Definition true_div_100 (cents : Z) : result float :=
  let a := Z.abs cents in
  if a =? 0 then Ok {| f_sign := false; f_mant := 0; f_exp := 0 |}
  else
    let k := Z.log2 a - 6 in
    let below :=
      if 0 <=? k then a <? 100 * 2 ^ k else a * 2 ^ (- k) <? 100 in
    let e := (if below then k - 1 else k) - 52 in
    let m :=
      if 0 <=? e then round_half_even a (100 * 2 ^ e)
      else round_half_even (a * 2 ^ (- e)) 100 in
    if 2 ^ 1024 <=? m * 2 ^ e then Raise OverflowError
    else Ok {| f_sign := cents <? 0; f_mant := m; f_exp := e |}.

(** The digits of [format(x, ".2f")]: the number of hundredths nearest
    to the exact value of [x], a half going to the even one. *)
Definition hundredths (x : float) : Z :=
  if 0 <=? f_exp x then f_mant x * 100 * 2 ^ f_exp x
  else round_half_even (f_mant x * 100) (2 ^ (- f_exp x)).

Definition digit_char (d : Z) : ascii := ascii_of_N (Z.to_N (48 + d)).

Fixpoint digits_fuel (fuel : nat) (n : Z) (acc : string) : string :=
  match fuel with
  | O => String (digit_char (n mod 10)) acc
  | S f =>
      if n <? 10 then String (digit_char n) acc
      else digits_fuel f (n / 10) (String (digit_char (n mod 10)) acc)
  end.

(** [str(n)] for an int [0 <= n]. *)
Definition str_nat (n : Z) : string :=
  digits_fuel (Z.to_nat (Z.log2 n)) n EmptyString.

(** The [","] option of the format: a comma before every group of three
    digits, counted from the right. *)
Fixpoint group_thousands (s : string) : string :=
  match s with
  | EmptyString => EmptyString
  | String c s' =>
      String c
        (if (0 <? String.length s')%nat && (String.length s' mod 3 =? 0)%nat
         then String "," (group_thousands s') else group_thousands s')
  end.

(** [format(x, ".2f")], and [format(x, ",.2f")] when [grouped]. *)
Definition format_2f (grouped : bool) (x : float) : string :=
  let n := hundredths x in
  let ip := str_nat (n / 100) in
  String.app (if f_sign x then "-" else EmptyString)
    (String.app (if grouped then group_thousands ip else ip)
       (String "."
          (String (digit_char (n mod 100 / 10))
             (String (digit_char (n mod 10)) EmptyString)))).

(** [format_amount] *)
Definition format_amount (cents : Z) : result string :=
  x ← true_div_100 cents;
  Ok (pystr.replace_char "," " " (format_2f true x)).

(** [form_data["amount"]] in [view_edit_entry]. *)
Definition edit_form_amount (cents : Z) : result string :=
  x ← true_div_100 cents;
  Ok (format_2f false x).

(** Every character of a string passes a test. *)
Fixpoint string_forall (p : ascii → bool) (s : string) : bool :=
  match s with
  | String c s' => p c && string_forall p s'
  | EmptyString => true
  end.

(** ** The requests that write *)

(** The POST routes of [server.py], with what [router.resolve] and the
    handler read from the request, and a restart of the server, which runs
    [ensure_database] again. *)
Inductive request : Type :=
  | PostEntryNew (form : gmap string string)
  | PostEntryEdit (entry_id : Z) (form : gmap string string)
  | PostEntryDelete (entry_id : Z)
  | PostReferenceNew (entity : string) (form : gmap string string)
  | PostReferenceEdit (entity : string) (entity_id : Z)
      (form : gmap string string)
  | PostReferenceDelete (entity : string) (entity_id : Z)
  | Restart.

(** The file after one request.  A handler that raises has committed
    nothing. *)
Definition serve (r : request) (st : store) : store :=
  match r with
  | PostEntryNew form => ((application (view_create_entry form) st.1).1, st.2)
  | PostEntryEdit entry_id form =>
      ((application (view_update_entry entry_id form) st.1).1, st.2)
  | PostEntryDelete entry_id =>
      ((application (view_delete_entry entry_id) st.1).1, st.2)
  | PostReferenceNew entity form =>
      match handle_reference_creation entity form st with
      | Ok (st', _) => st'
      | Raise _ => st
      end
  | PostReferenceEdit entity entity_id form =>
      ((application (handle_reference_update entity entity_id form) st.1).1,
       st.2)
  | PostReferenceDelete entity entity_id =>
      ((application (handle_reference_delete entity entity_id) st.1).1, st.2)
  | Restart =>
      match ensure_initial_data st with
      | Ok st' => st'
      | Raise _ => st
      end
  end.

(** The file after the first start ([init_db] on no file) and a sequence
    of requests. *)
Definition first_start : store :=
  match ensure_initial_data empty_store with
  | Ok st => st
  | Raise _ => empty_store
  end.

Definition run (requests : list request) : store :=
  foldl (λ st r, serve r st) first_start requests.

(** What validation leaves in a stored entry, apart from its references:
    a date text that is not empty, an amount that is not zero and has at
    most 28 digits, and a comment that is not NULL. *)
Definition entry_normalized (row : cashflow_row) : Prop :=
  cf_recorded_on row ≠ EmptyString
  ∧ cf_amount_cents row ≠ 0
  ∧ - 10 ^ 28 < cf_amount_cents row < 10 ^ 28
  ∧ is_Some (cf_comment row).

(** The invariant of the file. *)
Definition well_formed (db : database) : Prop :=
  ledger_consistent db
  ∧ (∀ id row, cashflows db !! id = Some row → entry_normalized row)
  ∧ hierarchy_consistent db
  ∧ names_unique db
  ∧ ids_within_seq db.

(** * Properties *)

(** ** Amount text: commas, spaces and white space *)

Section amount_text_lemmas.
Import pystr.

Lemma rev_app_replace_char old new s t :
  String.rev_app (replace_char old new s) (replace_char old new t)
  = replace_char old new (String.rev_app s t).
Proof.
  revert t. induction s as [|c s IH]; intros t; simpl; [done|].
  by rewrite <- IH.
Qed.

Lemma rev_replace_char old new s :
  String.rev (replace_char old new s) = replace_char old new (String.rev s).
Proof. unfold String.rev. by rewrite <- rev_app_replace_char. Qed.

Lemma rev_app_remove_char old s t :
  String.rev_app (remove_char old s) (remove_char old t)
  = remove_char old (String.rev_app s t).
Proof.
  revert t. induction s as [|c s IH]; intros t; simpl; [done|].
  rewrite <- IH. simpl. by destruct (Ascii.eqb c old).
Qed.

Lemma rev_remove_char old s :
  String.rev (remove_char old s) = remove_char old (String.rev s).
Proof. unfold String.rev. by rewrite <- rev_app_remove_char. Qed.

Lemma remove_char_idemp old s :
  remove_char old (remove_char old s) = remove_char old s.
Proof.
  induction s as [|c s IH]; simpl; [done|].
  destruct (Ascii.eqb c old) eqn:E; simpl; [done|]. by rewrite E, IH.
Qed.

(** Dropping leading white space commutes with removing the spaces, as a
    space is white space. *)
Lemma lstrip_remove_space s :
  lstrip (remove_char " " s) = remove_char " " (lstrip s).
Proof.
  induction s as [|c s IH]; simpl; [done|].
  destruct (Ascii.eqb c " ") eqn:E.
  - apply Ascii.eqb_eq in E as ->. simpl. exact IH.
  - simpl. destruct (is_space c); [exact IH|]. simpl. by rewrite E.
Qed.

Lemma strip_remove_space s :
  strip (remove_char " " s) = remove_char " " (strip s).
Proof.
  unfold strip, rstrip.
  by rewrite lstrip_remove_space, rev_remove_char, lstrip_remove_space,
    rev_remove_char.
Qed.

Lemma is_space_comma_to_dot c :
  is_space (if Ascii.eqb c "," then "."%char else c) = is_space c.
Proof.
  destruct (Ascii.eqb c ",") eqn:E; [|done].
  by apply Ascii.eqb_eq in E as ->.
Qed.

Lemma lstrip_comma_to_dot s :
  lstrip (replace_char "," "." s) = replace_char "," "." (lstrip s).
Proof.
  induction s as [|c s IH]; simpl; [done|].
  rewrite is_space_comma_to_dot. by destruct (is_space c).
Qed.

Lemma strip_comma_to_dot s :
  strip (replace_char "," "." s) = replace_char "," "." (strip s).
Proof.
  unfold strip, rstrip.
  by rewrite lstrip_comma_to_dot, rev_replace_char, lstrip_comma_to_dot,
    rev_replace_char.
Qed.

Lemma remove_space_comma_to_dot s :
  remove_char " " (replace_char "," "." s)
  = replace_char "," "." (remove_char " " s).
Proof.
  induction s as [|c s IH]; simpl; [done|].
  destruct (Ascii.eqb c ",") eqn:E.
  - apply Ascii.eqb_eq in E as ->. simpl. by rewrite IH.
  - destruct (Ascii.eqb c " "); simpl; by rewrite ?E, IH.
Qed.

Lemma comma_to_dot_idemp s :
  replace_char "," "." (replace_char "," "." s) = replace_char "," "." s.
Proof.
  induction s as [|c s IH]; simpl; [done|]. rewrite IH.
  destruct (Ascii.eqb c ",") eqn:E; simpl; by rewrite ?E.
Qed.

Lemma is_empty_comma_to_dot s :
  is_empty (replace_char "," "." s) = is_empty s.
Proof. by destruct s. Qed.

End amount_text_lemmas.

Lemma parse_amount_comma_to_dot value :
  parse_amount (pystr.replace_char "," "." value) = parse_amount value.
Proof.
  unfold parse_amount.
  rewrite strip_comma_to_dot, remove_space_comma_to_dot,
    is_empty_comma_to_dot, comma_to_dot_idemp.
  done.
Qed.

Lemma parse_amount_remove_space value :
  parse_amount (pystr.remove_char " " value) = parse_amount value.
Proof.
  unfold parse_amount.
  by rewrite strip_remove_space, remove_char_idemp.
Qed.

(** C5.  Amount parsing does not depend on whether the decimal separator
    is a comma or a dot, nor on spaces inside the number: replacing every
    comma by a dot, or removing every space, leaves the result unchanged;
    ["1 234,50"] and ["1234.50"] both give 123450 minor units. *)
Theorem C5_amount_reformatting_invariant :
  parse_amount "1 234,50" = Ok (Some 123450)
  ∧ parse_amount "1234.50" = Ok (Some 123450)
  ∧ (∀ value, parse_amount (pystr.replace_char "," "." value) = parse_amount value)
  ∧ (∀ value, parse_amount (pystr.remove_char " " value) = parse_amount value).
Proof.
  split; [by vm_compute|]. split; [by vm_compute|].
  split; [exact parse_amount_comma_to_dot | exact parse_amount_remove_space].
Qed.

(** ** Validation: what each block of [validate_entry_form] does *)

Ltac block_cases :=
  repeat (first [ progress cbn | case_bool_decide | progress simplify_eq ]);
  rewrite <- ?app_assoc, ?app_nil_r; try done.

Lemma check_recorded_on_eq db form st :
  check_recorded_on form st
  = (let date := pystr.strip (dict_get form "recorded_on" EmptyString) in
     if pystr.is_empty date then st.1 else set_recorded_on date st.1,
     (st.2 ++ map message (List.filter (violated db form) date_rules))%list).
Proof.
  unfold check_recorded_on, add_error. cbn.
  destruct (pystr.is_empty _); cbn; [done|]. by rewrite app_nil_r.
Qed.

Lemma check_status_eq db form st :
  check_status db form st
  = (match submitted form "status_id" with
     | Some sid =>
         match statuses db !! sid with
         | Some _ => set_status_id sid st.1
         | None => st.1
         end
     | None => st.1
     end,
     (st.2 ++ map message (List.filter (violated db form) status_rules))%list).
Proof.
  unfold check_status, add_error, repo.get_status. cbn.
  fold (submitted form "status_id").
  destruct (submitted form "status_id") as [sid|]; [|block_cases].
  destruct (statuses db !! sid) eqn:E; block_cases.
Qed.

Lemma check_type_eq db form st :
  check_type db form st
  = (match submitted form "type_id" with
     | Some tid =>
         match types db !! tid with
         | Some _ => set_type_id tid st.1
         | None => st.1
         end
     | None => st.1
     end,
     (st.2 ++ map message (List.filter (violated db form) type_rules))%list).
Proof.
  unfold check_type, add_error, repo.get_type. cbn.
  fold (submitted form "type_id").
  destruct (submitted form "type_id") as [tid|]; [|block_cases].
  destruct (types db !! tid) eqn:E; block_cases.
Qed.

Lemma check_category_eq db form st :
  check_category db form st
  = (match submitted form "category_id" with
     | Some cid =>
         match categories db !! cid with
         | Some _ => set_category_id cid st.1
         | None => st.1
         end
     | None => st.1
     end,
     (st.2 ++ map message (List.filter (violated db form) category_rules))%list).
Proof.
  unfold check_category, add_error, repo.get_category. cbn.
  fold (submitted form "category_id"). fold (submitted form "type_id").
  destruct (submitted form "type_id") as [tid|];
    (destruct (submitted form "category_id") as [cid|]; [|block_cases]);
    destruct (categories db !! cid) as [cat|] eqn:E; block_cases.
Qed.

Lemma check_subcategory_eq db form st :
  check_subcategory db form st
  = (match submitted form "subcategory_id" with
     | Some scid =>
         match repo.get_subcategory db scid with
         | Some _ => set_subcategory_id scid st.1
         | None => st.1
         end
     | None => st.1
     end,
     (st.2 ++ map message (List.filter (violated db form) subcategory_rules))%list).
Proof.
  unfold check_subcategory, add_error. cbn.
  fold (submitted form "subcategory_id"). fold (submitted form "category_id").
  fold (submitted form "type_id").
  destruct (submitted form "category_id") as [cid|],
    (submitted form "type_id") as [tid|];
    (destruct (submitted form "subcategory_id") as [scid|]; [|block_cases]);
    destruct (repo.get_subcategory db scid) as [sub|] eqn:E; block_cases.
Qed.

Lemma check_amount_eq db form st cents :
  parse_amount (dict_get form "amount" EmptyString) = Ok cents →
  check_amount form st
  = Ok (match cents with
        | Some c =>
            if c =? 0 then st.1
            else set_amount c (dict_get form "amount" EmptyString) st.1
        | None => st.1
        end,
        (st.2 ++ map message (List.filter (violated db form) amount_rules))%list).
Proof.
  intros Hp. unfold check_amount, add_error. cbn. rewrite Hp. cbn.
  destruct cents as [c|]; cbn; [|done].
  destruct (c =? 0); cbn; [done|]. by rewrite app_nil_r.
Qed.

Lemma check_amount_raises form st e :
  parse_amount (dict_get form "amount" EmptyString) = Raise e →
  check_amount form st = Raise e.
Proof. intros Hp. unfold check_amount. by rewrite Hp. Qed.

(** Validation returns exactly when amount parsing returns, and then with
    the expected record and the expected messages. *)
Lemma validate_entry_form_returns db form cents :
  parse_amount (dict_get form "amount" EmptyString) = Ok cents →
  validate_entry_form db form
  = Ok (expected_data db form cents, expected_errors db form).
Proof.
  intros Hp. unfold validate_entry_form.
  rewrite (check_recorded_on_eq db), check_status_eq, check_type_eq,
    check_category_eq, check_subcategory_eq.
  erewrite (check_amount_eq db) by exact Hp. cbn -[all_rules violated message].
  unfold expected_errors, all_rules.
  rewrite !List.filter_app, !List.map_app, <- !app_assoc. f_equal. f_equal.
  unfold expected_data.
  destruct (pystr.is_empty (pystr.strip (dict_get form "recorded_on" EmptyString)));
    destruct (submitted form "status_id") as [sid|],
      (submitted form "type_id") as [tid|],
      (submitted form "category_id") as [cid|],
      (submitted form "subcategory_id") as [scid|];
    cbn [mbind option_bind];
    repeat match goal with
      | |- context [statuses db !! ?k] => destruct (statuses db !! k)
      | |- context [types db !! ?k] => destruct (types db !! k)
      | |- context [categories db !! ?k] => destruct (categories db !! k)
      | |- context [repo.get_subcategory db ?k] =>
          destruct (repo.get_subcategory db k)
      end;
    (destruct cents as [amt|]; [destruct (amt =? 0)|]); reflexivity.
Qed.

Lemma validate_entry_form_raises db form e :
  parse_amount (dict_get form "amount" EmptyString) = Raise e →
  validate_entry_form db form = Raise e.
Proof.
  intros Hp. unfold validate_entry_form.
  by rewrite (check_amount_raises _ _ e Hp).
Qed.

(** ** Messages and rules *)

#[local] Instance message_inj : Inj (=) (=) message.
Proof. intros r1 r2 Heq. destruct r1, r2; first [reflexivity | discriminate Heq]. Qed.

Lemma all_rules_complete r : r ∈ all_rules.
Proof. destruct r; vm_compute; set_solver. Qed.

(** A message is reported exactly when its rule is violated. *)
Lemma elem_of_expected_errors db form r :
  message r ∈ expected_errors db form ↔ violated db form r = true.
Proof.
  unfold expected_errors. rewrite list_elem_of_fmap. split.
  - intros (r' & Heq & Hin). apply (inj message) in Heq as <-.
    apply list_elem_of_In, List.filter_In in Hin. tauto.
  - intros Hv. exists r. split; [done|].
    apply list_elem_of_In, List.filter_In. split; [|done].
    apply list_elem_of_In, all_rules_complete.
Qed.

Lemma expected_errors_nil db form :
  expected_errors db form = [] ↔ ∀ r, violated db form r = false.
Proof.
  split.
  - intros Hnil r. destruct (violated db form r) eqn:Hv; [|done].
    apply elem_of_expected_errors in Hv. rewrite Hnil in Hv.
    by apply not_elem_of_nil in Hv.
  - intros Hall. unfold expected_errors.
    assert (List.filter (violated db form) all_rules = []) as ->; [|done].
    induction all_rules as [|r rs IH]; cbn; [done|]. by rewrite Hall.
Qed.

(** Every outcome of validation, by the outcome of amount parsing. *)
Lemma validate_entry_form_cases db form :
  (∃ cents,
     parse_amount (dict_get form "amount" EmptyString) = Ok cents
     ∧ validate_entry_form db form
       = Ok (expected_data db form cents, expected_errors db form))
  ∨ (∃ e,
       parse_amount (dict_get form "amount" EmptyString) = Raise e
       ∧ validate_entry_form db form = Raise e).
Proof.
  destruct (parse_amount (dict_get form "amount" EmptyString)) as [cents|e] eqn:Hp.
  - left. exists cents. split; [done|]. by apply validate_entry_form_returns.
  - right. exists e. split; [done|]. by apply validate_entry_form_raises.
Qed.

(** ** C1: which amounts validation rejects *)




(** ** Counting dependent rows *)

Lemma count_where_pos {A} (m : gmap Z A) (p : A → bool) :
  0 < repo.count_where m p ↔ ∃ k a, m !! k = Some a ∧ p a = true.
Proof.
  unfold repo.count_where. split.
  - intros Hpos.
    destruct (List.filter (λ kv : Z * A, p kv.2) (map_to_list m))
      as [|[k a] l] eqn:Hf; [cbn in Hpos; lia|].
    assert (In (k, a) (List.filter (λ kv : Z * A, p kv.2) (map_to_list m)))
      as Hin by (rewrite Hf; by left).
    apply List.filter_In in Hin as [Hin Hp].
    exists k, a. split; [|done].
    by apply elem_of_map_to_list, list_elem_of_In.
  - intros (k & a & Hk & Hp).
    assert (In (k, a) (List.filter (λ kv : Z * A, p kv.2) (map_to_list m)))
      as Hin.
    { apply List.filter_In. split; [|done].
      by apply list_elem_of_In, elem_of_map_to_list. }
    destruct (List.filter _ _); [done|]. cbn. lia.
Qed.

Lemma count_where_zero {A} (m : gmap Z A) (p : A → bool) :
  repo.count_where m p = 0 ↔ ∀ k a, m !! k = Some a → p a = false.
Proof.
  pose proof (count_where_pos m p) as Hpos.
  assert (0 ≤ repo.count_where m p) by (unfold repo.count_where; lia).
  split.
  - intros Hz k a Hk. destruct (p a) eqn:Hp; [|done].
    assert (0 < repo.count_where m p) by (apply Hpos; eauto). lia.
  - intros Hall.
    destruct (decide (0 < repo.count_where m p)) as [Hlt|]; [|lia].
    apply Hpos in Hlt as (k & a & Hk & Hp). rewrite (Hall k a Hk) in Hp. done.
Qed.

Lemma any_cashflow_false db (p : cashflow_row → bool) :
  (∀ k cf, cashflows db !! k = Some cf → p cf = false) →
  repo.any_cashflow db p = false.
Proof.
  intros Hall. unfold repo.any_cashflow.
  destruct (existsb _ _) eqn:He; [|done].
  apply List.existsb_exists in He as ([k cf] & Hin & Hp).
  apply list_elem_of_In, elem_of_map_to_list in Hin.
  cbn in Hp. by rewrite (Hall k cf Hin) in Hp.
Qed.

Lemma any_cashflow_count db (col : cashflow_row → Z) (v : Z) :
  repo.count_where (cashflows db) (λ cf, col cf =? v) = 0 →
  repo.any_cashflow db (λ cf, col cf =? v) = false.
Proof. intros Hz. apply any_cashflow_false. by apply count_where_zero. Qed.

(** ** Reference deletion *)

Lemma with_types_delete_missing db t :
  types db !! t = None → with_types (delete t (types db)) db = db.
Proof. intros Hn. rewrite delete_id by done. by destruct db. Qed.

Lemma categories_of_empty db t :
  repo.count_where (categories db) (λ c, cat_type_id c =? t) = 0 →
  repo.categories_of db t = ∅.
Proof.
  intros Hz. apply map_empty_filter_2. intros k c Hk Ht. cbn in Ht.
  pose proof (proj1 (count_where_zero _ _) Hz k c Hk) as Hf. cbn in Hf. lia.
Qed.

Lemma subcategories_of_empty db : repo.subcategories_of db ∅ = ∅.
Proof.
  apply map_empty_filter_2. intros k s Hk [x Hx]. cbn in Hx.
  by rewrite lookup_empty in Hx.
Qed.

(** With no category and no entry of the type, DELETE FROM types removes
    the row of the type, if any, and nothing else. *)
Lemma delete_type_unreferenced db t :
  repo.count_where (categories db) (λ c, cat_type_id c =? t) = 0 →
  repo.count_where (cashflows db) (λ cf, cf_type_id cf =? t) = 0 →
  repo.delete_type db t = Ok (with_types (delete t (types db)) db).
Proof.
  intros Hc Hf. unfold repo.delete_type.
  destruct (types db !! t) eqn:Ht; [|by rewrite with_types_delete_missing].
  rewrite (categories_of_empty db t Hc), subcategories_of_empty.
  rewrite any_cashflow_false.
  - rewrite !map_difference_empty. by destruct db.
  - intros k cf Hk. cbn.
    pose proof (proj1 (count_where_zero _ _) Hf k cf Hk) as ->. cbn.
    rewrite !bool_decide_eq_false_2; [done| |];
      rewrite lookup_empty; by intros [? ?].
Qed.

Lemma delete_category_unreferenced db c :
  repo.count_where (subcategories db) (λ s, sub_category_id s =? c) = 0 →
  repo.count_where (cashflows db) (λ cf, cf_category_id cf =? c) = 0 →
  repo.delete_category db c
  = Ok (with_categories (delete c (categories db)) db).
Proof.
  intros Hs Hf. unfold repo.delete_category.
  destruct (categories db !! c) eqn:Hc.
  2: { rewrite delete_id by done. by destruct db. }
  assert (filter (λ kv : Z * subcategory_row, sub_category_id kv.2 = c)
            (subcategories db) = ∅) as ->.
  { apply map_empty_filter_2. intros k s Hk Hs'. cbn in Hs'.
    pose proof (proj1 (count_where_zero _ _) Hs k s Hk) as Hf'. cbn in Hf'. lia. }
  rewrite any_cashflow_false.
  - rewrite map_difference_empty. by destruct db.
  - intros k cf Hk. cbn.
    pose proof (proj1 (count_where_zero _ _) Hf k cf Hk) as ->. cbn.
    rewrite bool_decide_eq_false_2; [done|].
    rewrite lookup_empty; by intros [? ?].
Qed.

Lemma delete_status_unreferenced db s :
  repo.count_where (cashflows db) (λ cf, cf_status_id cf =? s) = 0 →
  repo.delete_status db s = Ok (with_statuses (delete s (statuses db)) db).
Proof.
  intros Hf. unfold repo.delete_status.
  destruct (statuses db !! s) eqn:Hs.
  - by rewrite (any_cashflow_count db cf_status_id s Hf).
  - rewrite delete_id by done. by destruct db.
Qed.

Lemma delete_subcategory_unreferenced db s :
  repo.count_where (cashflows db) (λ cf, cf_subcategory_id cf =? s) = 0 →
  repo.delete_subcategory db s
  = Ok (with_subcategories (delete s (subcategories db)) db).
Proof.
  intros Hf. unfold repo.delete_subcategory.
  destruct (subcategories db !! s) eqn:Hs.
  - by rewrite (any_cashflow_count db cf_subcategory_id s Hf).
  - rewrite delete_id by done. by destruct db.
Qed.

Lemma count_where_nonneg {A} (m : gmap Z A) p : 0 ≤ repo.count_where m p.
Proof. unfold repo.count_where. lia. Qed.

Ltac count_cases m p :=
  let H := fresh "Hcount" in
  pose proof (count_where_nonneg m p);
  destruct (0 <? repo.count_where m p) eqn:H;
  [| assert (repo.count_where m p = 0) by lia ].






(** ** C10: committed amounts *)

Lemma validate_accepts_nonzero_amount db form data :
  validate_entry_form db form = Ok (data, []) →
  ∃ c, amount_cents data = Some c ∧ c ≠ 0.
Proof.
  intros Hv.
  destruct (validate_entry_form_cases db form)
    as [(cents & Hp & Heq) | (e & _ & Heq)]; rewrite Heq in Hv; [|done].
  injection Hv as <- Hnil.
  pose proof (proj1 (expected_errors_nil db form) Hnil AmountInvalid) as Ha.
  cbn in Ha. rewrite Hp in Ha. destruct cents as [c|]; [|done].
  exists c. cbn. rewrite Ha. split; [done|]. lia.
Qed.

Lemma row_of_payload_amount data row :
  repo.row_of_payload data = Ok row →
  amount_cents data = Some (cf_amount_cents row).
Proof.
  unfold repo.row_of_payload.
  destruct (recorded_on data), (status_id data), (type_id data),
    (category_id data), (subcategory_id data), (amount_cents data);
    intros [= <-]; done.
Qed.

Lemma create_cashflow_rows db data db' id :
  repo.create_cashflow db data = Ok (db', id) →
  ∀ k row, cashflows db' !! k = Some row →
    cashflows db !! k = Some row
    ∨ amount_cents data = Some (cf_amount_cents row).
Proof.
  unfold repo.create_cashflow.
  destruct (repo.row_of_payload data) as [new|] eqn:Hrow; cbn; [|done].
  destruct (repo.references_exist db new); [|done].
  intros [= <- <-] k row. cbn.
  rewrite lookup_insert. case_decide as Hk.
  - intros [= <-]. right. by apply row_of_payload_amount.
  - by left.
Qed.

Lemma update_cashflow_rows db entry_id data db' :
  repo.update_cashflow db entry_id data = Ok db' →
  ∀ k row, cashflows db' !! k = Some row →
    cashflows db !! k = Some row
    ∨ amount_cents data = Some (cf_amount_cents row).
Proof.
  unfold repo.update_cashflow.
  destruct (repo.row_of_payload data) as [new|] eqn:Hrow; cbn; [|done].
  destruct (cashflows db !! entry_id); [|intros [= <-]; by left].
  destruct (repo.references_exist db new); [|done].
  intros [= <-] k row. cbn.
  rewrite lookup_insert. case_decide as Hk.
  - intros [= <-]. right. by apply row_of_payload_amount.
  - by left.
Qed.

Lemma view_create_entry_keeps_amounts_nonzero form db :
  amounts_nonzero db →
  amounts_nonzero (application (view_create_entry form) db).1.
Proof.
  intros Hinv. unfold application, view_create_entry.
  destruct (validate_entry_form db form) as [[data errors]|e] eqn:Hv; cbn.
  2: { by destruct e. }
  destruct errors as [|err errors]; [|done].
  destruct (repo.create_cashflow db data) as [[db' id]|e] eqn:Hc; cbn.
  2: { by destruct e. }
  intros k row Hk.
  destruct (create_cashflow_rows _ _ _ _ Hc k row Hk) as [Hold|Hnew].
  - by apply (Hinv k).
  - destruct (validate_accepts_nonzero_amount _ _ _ Hv) as (amt & Hamt & Hnz).
    congruence.
Qed.

Lemma view_update_entry_keeps_amounts_nonzero entry_id form db :
  amounts_nonzero db →
  amounts_nonzero (application (view_update_entry entry_id form) db).1.
Proof.
  intros Hinv. unfold application, view_update_entry.
  destruct (repo.get_cashflow db entry_id); [|done].
  destruct (validate_entry_form db form) as [[data errors]|e] eqn:Hv; cbn.
  2: { by destruct e. }
  destruct errors as [|err errors]; [|done].
  destruct (repo.update_cashflow db entry_id data) as [db'|e] eqn:Hc; cbn.
  2: { by destruct e. }
  intros k row Hk.
  destruct (update_cashflow_rows _ _ _ _ Hc k row Hk) as [Hold|Hnew].
  - by apply (Hinv k).
  - destruct (validate_accepts_nonzero_amount _ _ _ Hv) as (amt & Hamt & Hnz).
    congruence.
Qed.

Lemma view_delete_entry_keeps_amounts_nonzero entry_id db :
  amounts_nonzero db →
  amounts_nonzero (application (view_delete_entry entry_id) db).1.
Proof.
  intros Hinv. unfold application, view_delete_entry.
  destruct (repo.get_cashflow db entry_id); [|done]. cbn.
  intros k row Hk. cbn in Hk. apply lookup_delete_Some in Hk as [_ Hk].
  by apply (Hinv k).
Qed.

(** C10.  Whenever validation returns no errors the record holds an
    [amount_cents] different from zero; the create, update and delete
    requests on entries keep every stored amount different from zero; and
    the check does not exclude negative amounts: posting ["-5"] on the
    seeded database stores -500. *)
Theorem C10_committed_amount_nonzero :
  (∀ db form data,
     validate_entry_form db form = Ok (data, []) →
     ∃ c, amount_cents data = Some c ∧ c ≠ 0)
  ∧ (∀ form db,
       amounts_nonzero db →
       amounts_nonzero (application (view_create_entry form) db).1)
  ∧ (∀ entry_id form db,
       amounts_nonzero db →
       amounts_nonzero (application (view_update_entry entry_id form) db).1)
  ∧ (∀ entry_id db,
       amounts_nonzero db →
       amounts_nonzero (application (view_delete_entry entry_id) db).1)
  ∧ (cf_amount_cents <$>
       cashflows
         (application
            (view_create_entry (entry_form "2024-01-15" "1" "2" "1" "2" "-5" EmptyString))
            seed_db).1 !! 1) = Some (-500).
Proof.
  split; [exact validate_accepts_nonzero_amount|].
  split; [exact view_create_entry_keeps_amounts_nonzero|].
  split; [exact view_update_entry_keeps_amounts_nonzero|].
  split; [exact view_delete_entry_keeps_amounts_nonzero|].
  by vm_compute.
Qed.

(** The first two parts on the seeded database and a valid form. *)
Lemma C10_committed_amount_nonzero_witness :
  (∃ c, amount_cents
          (expected_data seed_db
             (entry_form "2024-01-15" "1" "2" "1" "2" "12,30" EmptyString) (Some 1230))
        = Some c ∧ c ≠ 0)
  ∧ amounts_nonzero
      (application
         (view_create_entry (entry_form "2024-01-15" "1" "2" "1" "2" "12,30" EmptyString))
         seed_db).1.
Proof.
  split.
  - apply (proj1 C10_committed_amount_nonzero seed_db
             (entry_form "2024-01-15" "1" "2" "1" "2" "12,30" EmptyString)).
    vm_compute. reflexivity.
  - apply (proj1 (proj2 C10_committed_amount_nonzero)).
    intros id row Hrow. vm_compute in Hrow. discriminate Hrow.
Defined.

(** ** The ledger list *)

Section ledger.
Context `{SqlEngine}.

#[global] Instance order_by_total : Total repo.order_by.
Proof.
  intros r1 r2. unfold repo.order_by.
  destruct (decide (recorded_le (repo.row_recorded_on r2) (repo.row_recorded_on r1)))
    as [H21|H21];
  destruct (decide (recorded_le (repo.row_recorded_on r1) (repo.row_recorded_on r2)))
    as [H12|H12].
  - destruct (Z.le_ge_cases (repo.row_id r1) (repo.row_id r2)); [right|left]; auto.
  - left. split; [done|]. by intros ?.
  - right. split; [done|]. by intros ?.
  - destruct (total recorded_le (repo.row_recorded_on r1) (repo.row_recorded_on r2));
      done.
Qed.

#[global] Instance order_by_trans : Transitive repo.order_by.
Proof.
  intros r1 r2 r3 [H21 Hid12] [H32 Hid23]. split.
  - by etrans.
  - intros H13.
    assert (recorded_le (repo.row_recorded_on r1) (repo.row_recorded_on r2))
      by (by etrans).
    assert (recorded_le (repo.row_recorded_on r2) (repo.row_recorded_on r3))
      by (by etrans).
    etrans; [by apply Hid23 | by apply Hid12].
Qed.





Lemma list_cashflows_Permutation db filters :
  repo.list_cashflows db filters
  ≡ₚ filter (repo.where_clause (repo.conditions filters)) (repo.joined db).
Proof. apply merge_sort_Permutation. Qed.




End ledger.




(** The three entries of [ledger_db]: newest first, and the two entries
    of 2024-01-15 by id descending; both bounds of a range are kept. *)
Example list_cashflows_order :
  repo.row_id <$> repo.list_cashflows ledger_db ∅ = [2; 3; 1].
Proof. by vm_compute. Qed.

Example list_cashflows_january :
  repo.row_id
    <$> repo.list_cashflows ledger_db
          (<["date_from" := "2024-01-15"]> (<["date_to" := "2024-01-31"]> ∅))
  = [2; 3; 1]
  ∧ repo.row_id
      <$> repo.list_cashflows ledger_db
            (<["date_from" := "2024-01-16"]> (<["status_id" := "1"]> ∅))
    = [2].
Proof. by vm_compute. Qed.

(** ** C8 and C2: the outcome of validation *)

Lemma is_empty_false s : pystr.is_empty s = false → s ≠ EmptyString.
Proof. by destruct s. Qed.






Lemma submitted_parse_int form key v :
  submitted form key = Some v → parse_int (dict_get form key EmptyString) = Some v.
Proof.
  unfold submitted, truthy_int.
  destruct (parse_int (dict_get form key EmptyString)) as [n|]; [|done].
  destruct (n =? 0); [done|]. by intros [= <-].
Qed.

Lemma expected_data_ids_as_submitted db form cents :
  ids_as_submitted form (expected_data db form cents).
Proof.
  unfold ids_as_submitted, expected_data. cbn.
  repeat split; intros v Hv; apply submitted_parse_int;
    match goal with
    | H : ?o ≫= _ = Some _ |- _ => destruct o as [i|] eqn:Eo; [|done]
    end; cbn in Hv;
    match goal with
    | H : ?o ≫= _ = Some _ |- _ => destruct o; [|done]
    end; cbn in Hv; congruence.
Qed.

(** With no rule violated, the submitted ids agree along the chain. *)
Lemma no_violation_chain db form :
  (∀ r, violated db form r = false) →
  category_in_type db form ∧ subcategory_in_chain db form.
Proof.
  intros Hall.
  pose proof (Hall TypeRequired) as Ht1.
  pose proof (Hall CategoryRequired) as Hc1.
  pose proof (Hall CategoryUnknown) as Hc2.
  pose proof (Hall CategoryOfOtherType) as Hc3.
  pose proof (Hall SubcategoryRequired) as Hu1.
  pose proof (Hall SubcategoryUnknown) as Hu2.
  pose proof (Hall SubcategoryOfOtherCategory) as Hu3.
  unfold category_in_type, subcategory_in_chain.
  cbn in Ht1, Hc1, Hc2, Hc3, Hu1, Hu2, Hu3.
  destruct (submitted form "type_id") as [tid|];
    [|by apply bool_decide_eq_false in Ht1].
  destruct (submitted form "category_id") as [cid|];
    [|by apply bool_decide_eq_false in Hc1].
  destruct (submitted form "subcategory_id") as [scid|];
    [|by apply bool_decide_eq_false in Hu1].
  destruct (categories db !! cid) as [cat|] eqn:Ecat;
    [|by apply bool_decide_eq_false in Hc2].
  destruct (repo.get_subcategory db scid) as [info|] eqn:Esub;
    [|by apply bool_decide_eq_false in Hu2].
  apply bool_decide_eq_false in Hc3, Hu3.
  unfold repo.get_subcategory in Esub.
  destruct (subcategories db !! scid) as [sub|] eqn:Esub'; [|done].
  cbn in Esub.
  destruct (categories db !! sub_category_id sub) as [cat'|]; [|done].
  cbn in Esub. injection Esub as <-. cbn in Hu3.
  assert (cat_type_id cat = tid) by (by destruct (decide (cat_type_id cat = tid))).
  assert (sub_category_id sub = cid)
    by (by destruct (decide (sub_category_id sub = cid))).
  split.
  - by exists cid, tid, cat.
  - by exists scid, cid, tid, sub, cat.
Qed.

(** What holds of C2 whenever amount parsing returns: a form whose
    category is not of the submitted type, or whose subcategory is not in
    the submitted chain, gets at least one message, and the ids kept in
    the record are the submitted ones. *)
Lemma chain_mismatch_reported db form cents :
  parse_amount (dict_get form "amount" EmptyString) = Ok cents →
  ∃ data errors,
    validate_entry_form db form = Ok (data, errors)
    ∧ (¬ category_in_type db form → errors ≠ [])
    ∧ (¬ subcategory_in_chain db form → errors ≠ [])
    ∧ ids_as_submitted form data.
Proof.
  intros Hp. exists (expected_data db form cents), (expected_errors db form).
  split; [by apply validate_entry_form_returns|].
  split; [|split; [|apply expected_data_ids_as_submitted]].
  - intros Hno Hnil. apply Hno.
    by apply no_violation_chain, expected_errors_nil.
  - intros Hno Hnil. apply Hno.
    by apply no_violation_chain, expected_errors_nil.
Qed.

(** C2 on the code.  The claim asks that every form whose category does
    not belong to the submitted type gets a validation message.  On the
    seeded database category 1 belongs to type 2; the form below submits
    it with type 1 and the amount ["Infinity"]: validation raises
    [InvalidOperation] instead of returning a message, and the create
    request is answered with the 500 page. *)
Theorem C2_chain_mismatch_raises_on_infinite_amount :
  ¬ category_in_type seed_db
      (entry_form "2024-01-15" "1" "1" "1" "1" "Infinity" EmptyString)
  ∧ validate_entry_form seed_db
      (entry_form "2024-01-15" "1" "1" "1" "1" "Infinity" EmptyString)
    = Raise InvalidOperation
  ∧ application
      (view_create_entry (entry_form "2024-01-15" "1" "1" "1" "1" "Infinity" EmptyString))
      seed_db
    = (seed_db,
       Page "500 Internal Server Error" "Ошибка"
         [("error", "Внутренняя ошибка сервера")]).
Proof.
  split; [|split; by vm_compute].
  intros (cid & tid & cat & Hc & Ht & Hcat & Hty).
  vm_compute in Hc, Ht. injection Hc as <-. injection Ht as <-.
  vm_compute in Hcat. injection Hcat as <-. discriminate Hty.
Qed.

(** ** Decimal arithmetic behind [parse_amount] *)

Section decimal_lemmas.
Import decimal.

Lemma ndigits_fuel_bounds fuel c :
  0 < c → c < 10 * 2 ^ Z.of_nat fuel →
  1 ≤ ndigits_fuel fuel c
  ∧ 10 ^ (ndigits_fuel fuel c - 1) ≤ c < 10 ^ ndigits_fuel fuel c.
Proof.
  revert c. induction fuel as [|fuel IH]; intros c Hpos Hlt.
  - cbn in *. lia.
  - cbn [ndigits_fuel]. destruct (Z.ltb_spec c 10) as [Hsmall|Hbig].
    + cbn. lia.
    + assert (0 < c / 10) by (apply Z.div_str_pos; lia).
      assert (c / 10 < 10 * 2 ^ Z.of_nat fuel) as Hq.
      { apply Z.div_lt_upper_bound; [lia|].
        rewrite Nat2Z.inj_succ, Z.pow_succ_r in Hlt by lia. lia. }
      destruct (IH (c / 10) ltac:(done) Hq) as (Hn & Hlo & Hhi).
      pose proof (Z.div_mod c 10 ltac:(lia)) as Hdm.
      pose proof (Z.mod_pos_bound c 10 ltac:(lia)) as Hm.
      split; [lia|].
      replace (1 + ndigits_fuel fuel (c / 10) - 1)
        with (Z.succ (ndigits_fuel fuel (c / 10) - 1)) by lia.
      replace (1 + ndigits_fuel fuel (c / 10))
        with (Z.succ (ndigits_fuel fuel (c / 10))) by lia.
      rewrite !Z.pow_succ_r by lia. lia.
Qed.

Lemma ndigits_bounds c :
  0 < c → 1 ≤ ndigits c ∧ 10 ^ (ndigits c - 1) ≤ c < 10 ^ ndigits c.
Proof.
  intros Hpos. unfold ndigits. apply ndigits_fuel_bounds; [done|].
  pose proof (Z.log2_nonneg c).
  rewrite Z2Nat.id by done.
  destruct (Z.log2_spec c Hpos) as [_ Hhi].
  rewrite Z.pow_succ_r in Hhi by done.
  assert (0 < 2 ^ Z.log2 c) by (apply Z.pow_pos_nonneg; lia). lia.
Qed.

Lemma ndigits_unique c n :
  0 < c → 10 ^ (n - 1) ≤ c < 10 ^ n → ndigits c = n.
Proof.
  intros Hpos [Hlo Hhi].
  destruct (ndigits_bounds c Hpos) as (Hn & Hlo' & Hhi').
  assert (1 ≤ n).
  { destruct (Z.le_gt_cases 1 n) as [|Hn0]; [done|].
    destruct (Z.eq_dec n 0) as [->|]; [cbn in Hhi; lia|].
    rewrite Z.pow_neg_r in Hhi by lia. lia. }
  destruct (Z.lt_trichotomy (ndigits c) n) as [Hlt | [Heq | Hgt]]; [|done|].
  - assert (10 ^ ndigits c ≤ 10 ^ (n - 1))
      by (apply Z.pow_le_mono_r; lia). lia.
  - assert (10 ^ n ≤ 10 ^ (ndigits c - 1))
      by (apply Z.pow_le_mono_r; lia). lia.
Qed.

Lemma ndigits_mul_100 c : 0 < c → ndigits (c * 100) = ndigits c + 2.
Proof.
  intros Hpos. destruct (ndigits_bounds c Hpos) as (Hn & Hlo & Hhi).
  apply ndigits_unique; [lia|].
  replace (ndigits c + 2 - 1) with (ndigits c - 1 + 2) by lia.
  rewrite !Z.pow_add_r by lia. change (10 ^ 2) with 100. lia.
Qed.

Lemma ndigits_mul_10 c : 0 < c → ndigits (c * 10) = ndigits c + 1.
Proof.
  intros Hpos. destruct (ndigits_bounds c Hpos) as (Hn & Hlo & Hhi).
  apply ndigits_unique; [lia|].
  replace (ndigits c + 1 - 1) with (ndigits c - 1 + 1) by lia.
  rewrite !Z.pow_add_r by lia. change (10 ^ 1) with 10. lia.
Qed.

Lemma ndigits_lt_pow c n : 0 < c → ndigits c < n → c < 10 ^ (n - 1).
Proof.
  intros Hpos Hn. destruct (ndigits_bounds c Hpos) as (_ & _ & Hhi).
  assert (10 ^ ndigits c ≤ 10 ^ (n - 1)) by (apply Z.pow_le_mono_r; lia). lia.
Qed.

(** Rounding half up, as the library does it on the digits, is
    [floor (x + 1/2)]. *)
Lemma round_digits_half_up c k :
  0 ≤ c → 0 < k →
  round_digits ROUND_HALF_UP c k = (2 * c + 10 ^ k) / (2 * 10 ^ k).
Proof.
  intros Hc Hk. unfold round_digits.
  assert (0 < 10 ^ k) as Hp by (apply Z.pow_pos_nonneg; lia).
  pose proof (Z.div_mod c (10 ^ k) ltac:(lia)) as Hdm.
  pose proof (Z.mod_pos_bound c (10 ^ k) Hp) as Hm.
  destruct (Z.leb_spec (10 ^ k) (2 * (c mod 10 ^ k))) as [Hup|Hdown].
  - apply (Z.div_unique _ _ _ (2 * (c mod 10 ^ k) - 10 ^ k)); lia.
  - apply (Z.div_unique _ _ _ (2 * (c mod 10 ^ k) + 10 ^ k)); lia.
Qed.

Lemma rescale_half_up c x :
  0 ≤ c → _rescale ROUND_HALF_UP c x (-2) = round_half_up_x100 c x.
Proof.
  intros Hc. unfold _rescale, round_half_up_x100.
  destruct (Z.leb_spec (-2) x) as [Hx|Hx];
    destruct (Z.leb_spec 0 (x + 2)) as [Hx'|Hx']; try lia.
  - by replace (x - -2) with (x + 2) by lia.
  - replace (- (x + 2)) with (-2 - x) by lia.
    destruct (Z.ltb_spec (ndigits c + x - -2) 0) as [Htiny|Hdig].
    + assert (0 < 10 ^ (-2 - x)) as Hp by (apply Z.pow_pos_nonneg; lia).
      assert (2 * c < 10 ^ (-2 - x)) as Hsmall.
      { destruct (Z.eq_dec c 0) as [->|]; [lia|].
        assert (c < 10 ^ (-2 - x - 1)) by (apply ndigits_lt_pow; lia).
        replace (-2 - x) with (Z.succ (-2 - x - 1)) by lia.
        rewrite Z.pow_succ_r by lia. lia. }
      vm_compute round_digits. symmetry. apply Z.div_small. lia.
    + apply round_digits_half_up; lia.
Qed.

(** The rounded value is the nearest multiple of one hundredth, a tie
    going up. *)
Lemma round_half_up_x100_nearest c e :
  0 ≤ c → e + 2 < 0 →
  2 * round_half_up_x100 c e * 10 ^ (- (e + 2))
  ≤ 2 * c + 10 ^ (- (e + 2))
  < 2 * (round_half_up_x100 c e + 1) * 10 ^ (- (e + 2)).
Proof.
  intros Hc He. unfold round_half_up_x100.
  destruct (Z.leb_spec 0 (e + 2)); [lia|].
  assert (0 < 10 ^ (- (e + 2))) as Hp by (apply Z.pow_pos_nonneg; lia).
  pose proof (Z.div_mod (2 * c + 10 ^ (- (e + 2))) (2 * 10 ^ (- (e + 2)))
                ltac:(lia)) as Hdm.
  pose proof (Z.mod_pos_bound (2 * c + 10 ^ (- (e + 2))) (2 * 10 ^ (- (e + 2)))
                ltac:(lia)) as Hm.
  lia.
Qed.

Lemma round_half_up_x100_nonneg c e : 0 ≤ c → 0 ≤ round_half_up_x100 c e.
Proof.
  intros Hc. unfold round_half_up_x100.
  destruct (Z.leb_spec 0 (e + 2)).
  - apply Z.mul_nonneg_nonneg; [done|]. apply Z.pow_nonneg. lia.
  - assert (0 < 10 ^ (- (e + 2))) by (apply Z.pow_pos_nonneg; lia).
    apply Z.div_pos; lia.
Qed.

End decimal_lemmas.

Section decimal_cents.
Import decimal.

Ltac unfold_context :=
  unfold adjusted, Etiny, Etop, Emin, Emax, prec in *.

Lemma round_digits_trailing_zeros c k j :
  0 ≤ c → 0 < k → 0 ≤ j →
  round_digits ROUND_HALF_EVEN (c * 10 ^ j * 10 ^ k) k = c * 10 ^ j.
Proof.
  intros Hc Hk Hj. unfold round_digits.
  assert (0 < 10 ^ k) as Hp by (apply Z.pow_pos_nonneg; lia).
  rewrite Z.div_mul, Z.mod_mul by lia.
  destruct (Z.ltb_spec (10 ^ k) (2 * 0)); [lia|].
  destruct (Z.eqb_spec (2 * 0) (10 ^ k)); [lia|]. done.
Qed.

(** Multiplying a quantized amount by 100 under 28 digits of precision
    loses nothing: the integer read back is the coefficient. *)
Lemma fix_times_100_to_int s n :
  0 < n → ndigits n ≤ 28 →
  (p ← _fix s (n * 100) (-2); to_int p) = Ok (if s then - n else n).
Proof.
  intros Hn Hd. unfold _fix.
  destruct (ndigits_bounds n Hn) as (Hn1 & _ & _).
  destruct (Z.eqb_spec (n * 100) 0); [lia|].
  rewrite (ndigits_mul_100 n Hn).
  destruct (Z.ltb_spec Etop (ndigits n + 2 + -2 - prec)); [unfold_context; lia|].
  replace (Z.max (ndigits n + 2 + -2 - prec) Etiny) with (ndigits n - 28)
    by (unfold_context; lia).
  destruct (Z.ltb_spec (-2) (ndigits n - 28)) as [Hround|Hexact].
  - replace (ndigits n + 2 + -2 - (ndigits n - 28)) with 28 by lia.
    change (28 <? 0) with false. cbv iota.
    assert (ndigits n = 27 ∨ ndigits n = 28) as [E|E] by lia; rewrite E.
    + change (27 - 28 - -2) with 1.
      replace (n * 100) with (n * 10 ^ 1 * 10 ^ 1) by lia.
      rewrite round_digits_trailing_zeros by lia.
      change (10 ^ 1) with 10. rewrite (ndigits_mul_10 n Hn), E.
      change (prec <? 27 + 1) with false. cbv iota beta.
      change (Etop <? 27 - 28) with false. cbn [mbind result_bind to_int].
      change (0 <=? 27 - 28) with false. cbv iota.
      rewrite (ndigits_mul_10 n Hn), E.
      change (27 + 1 + (27 - 28) <=? 0) with false. cbv iota.
      change (- (27 - 28)) with 1. change (10 ^ 1) with 10.
      by rewrite Z.div_mul by lia.
    + change (28 - 28 - -2) with 2.
      replace (n * 100) with (n * 10 ^ 0 * 10 ^ 2) by lia.
      rewrite round_digits_trailing_zeros by lia.
      change (10 ^ 0) with 1. rewrite Z.mul_1_r, E.
      change (prec <? 28) with false. cbv iota beta.
      change (Etop <? 28 - 28) with false. cbn [mbind result_bind to_int].
      change (0 <=? 28 - 28) with true. cbv iota.
      change (10 ^ (28 - 28)) with 1. by rewrite Z.mul_1_r.
  - cbn [mbind result_bind to_int]. change (0 <=? -2) with false. cbv iota.
    rewrite (ndigits_mul_100 n Hn).
    destruct (Z.leb_spec (ndigits n + 2 + -2) 0); [lia|].
    change (10 ^ (- -2)) with 100. by rewrite Z.div_mul by lia.
Qed.

Lemma cents_of_hundredths s n :
  0 ≤ n → n = 0 ∨ ndigits n ≤ 28 →
  (p ← mul (Finite s n (-2)) (of_int 100); to_int p)
  = Ok (if s then - n else n).
Proof.
  intros Hn Hd. unfold mul, of_int. cbn [_check_nans].
  change (100 <? 0) with false. change (Z.abs 100) with 100.
  rewrite xorb_false_r. change (-2 + 0) with (-2).
  destruct (Z.eq_dec n 0) as [->|Hnz].
  - vm_compute. by destruct s.
  - apply fix_times_100_to_int; [lia|]. by destruct Hd.
Qed.

(** Quantizing to two places with ROUND_HALF_UP, when it returns, gives
    the half-up rounding at exponent -2, within 28 digits. *)
Lemma quantize_hundredths s c x d :
  0 ≤ c →
  quantize (Finite s c x) (Finite false 1 (-2)) ROUND_HALF_UP = Ok d →
  d = Finite s (round_half_up_x100 c x) (-2)
  ∧ (round_half_up_x100 c x = 0 ∨ ndigits (round_half_up_x100 c x) ≤ 28).
Proof.
  intros Hc. unfold quantize. cbn [_check_nans].
  change (negb ((Etiny <=? -2) && (-2 <=? Emax))) with false. cbv iota.
  destruct (Z.eqb_spec c 0) as [->|Hnz].
  - intros [= <-].
    assert (round_half_up_x100 0 x = 0) as ->; [|by auto].
    unfold round_half_up_x100.
    destruct (Z.leb_spec 0 (x + 2)) as [|Hx]; [done|].
    assert (0 < 10 ^ (- (x + 2))) by (apply Z.pow_pos_nonneg; lia).
    apply Z.div_small. lia.
  - destruct (Emax <? adjusted c x); [done|].
    destruct (prec <? adjusted c x - -2 + 1); [done|].
    rewrite rescale_half_up by done.
    pose proof (round_half_up_x100_nonneg c x Hc) as Hn.
    destruct (Emax <? adjusted (round_half_up_x100 c x) (-2)); [done|].
    destruct (Z.ltb_spec prec (ndigits (round_half_up_x100 c x))) as [|Hd];
      [done|].
    unfold _fix.
    destruct (Z.eqb_spec (round_half_up_x100 c x) 0) as [E|E].
    + rewrite E. intros [= <-]. by auto.
    + assert (1 ≤ ndigits (round_half_up_x100 c x))
        by (apply ndigits_bounds; lia).
      destruct (Z.ltb_spec Etop (ndigits (round_half_up_x100 c x) + -2 - prec));
        [unfold_context; lia|].
      destruct (Z.ltb_spec (-2)
                  (Z.max (ndigits (round_half_up_x100 c x) + -2 - prec) Etiny));
        [unfold_context; lia|].
      intros [= <-]. unfold_context. split; [done|]. right. lia.
Qed.

End decimal_cents.

(** Inputs on which [parse_amount] raises: the constructor accepts them
    and [quantize], outside the [try], does not; a quiet NaN passes
    [quantize] and fails in [int]. *)
Example parse_amount_raises :
  parse_amount "Infinity" = Raise InvalidOperation
  ∧ parse_amount "1e30" = Raise InvalidOperation
  ∧ parse_amount "sNaN" = Raise InvalidOperation
  ∧ parse_amount "nan" = Raise ValueError.
Proof. by vm_compute. Qed.

(** ** C6: the stored amount *)

Lemma digit_value_nonneg c : pystr.is_digit c = true → 0 ≤ pystr.digit_value c.
Proof.
  unfold pystr.is_digit, pystr.digit_value. intros Hd.
  apply andb_true_iff in Hd as [Hlo _]. apply N.leb_le in Hlo. lia.
Qed.

Lemma int_of_digits_from_app acc a b :
  pystr.int_of_digits_from acc (String.append a b)
  = pystr.int_of_digits_from (pystr.int_of_digits_from acc a) b.
Proof. revert acc. induction a as [|c a IH]; intros acc; cbn; [done|]. apply IH. Qed.

Lemma span_digits_nonneg acc s :
  0 ≤ acc → 0 ≤ pystr.int_of_digits_from acc (pystr.span_digits s).1.
Proof.
  revert acc. induction s as [|c s IH]; intros acc Hacc; cbn; [done|].
  destruct (pystr.is_digit c) eqn:Hd; cbn; [|done].
  specialize (IH (10 * acc + pystr.digit_value c)).
  destruct (pystr.span_digits s) as [ds rest]. cbn in *.
  apply IH. pose proof (digit_value_nonneg c Hd). lia.
Qed.

Lemma parse_number_nonneg s c e :
  decimal.parse_number s = Some (c, e) → 0 ≤ c.
Proof.
  unfold decimal.parse_number.
  pose proof (span_digits_nonneg 0 s ltac:(done)) as Hip.
  destruct (pystr.span_digits s) as [ip r1]. cbn in Hip.
  assert (∃ fp r2 r,
            (match r1 with
             | String "." r => pystr.span_digits r
             | _ => (EmptyString, r1)
             end) = (fp, r2)
            ∧ (fp = (pystr.span_digits r).1 ∨ fp = EmptyString))
    as (fp & r2 & r & -> & Hfp).
  { destruct r1 as [|ch r]; [by exists EmptyString, EmptyString, EmptyString; auto|].
    destruct (Ascii.ascii_dec ch ".") as [->|Hne].
    - destruct (pystr.span_digits r) as [fp r2] eqn:E.
      exists fp, r2, r. rewrite E. by auto.
    - exists EmptyString, (String ch r), EmptyString. split; [|by auto].
      destruct ch as [[] [] [] [] [] [] [] []]; try done. }
  assert (0 ≤ pystr.int_of_digits (String.append ip fp)) as Hc.
  { unfold pystr.int_of_digits. rewrite int_of_digits_from_app.
    destruct Hfp as [-> | ->]; [by apply span_digits_nonneg | done]. }
  destruct (pystr.is_empty ip && pystr.is_empty fp); [done|].
  destruct r2 as [|ch r3]; [by intros [= <- _]|].
  destruct (Ascii.eqb (pystr.lower ch) "e"); [|done].
  destruct (pystr.take_sign r3) as [neg r4].
  destruct (pystr.span_digits r4) as [ed r5].
  destruct (pystr.is_empty ed || negb (pystr.is_empty r5)); [done|].
  by intros [= <- _].
Qed.

Lemma parse_special_not_finite sign s d :
  decimal.parse_special sign s = Some d →
  ∀ s' c e, d ≠ decimal.Finite s' c e.
Proof.
  unfold decimal.parse_special.
  destruct (_ || _); [by intros [= <-]|].
  intros Hd s' c e ->.
  repeat (match type of Hd with
          | match ?x with _ => _ end = _ => destruct x; try done
          end).
Qed.

Lemma of_string_finite_nonneg value s c e :
  decimal.of_string value = Ok (decimal.Finite s c e) → 0 ≤ c.
Proof.
  unfold decimal.of_string.
  destruct (pystr.take_sign _) as [sign body].
  destruct (decimal.parse_special sign body) as [d|] eqn:Hs.
  - intros [= ->]. by destruct (parse_special_not_finite _ _ _ Hs s c e).
  - destruct (decimal.parse_number body) as [[c' e']|] eqn:Hn; [|done].
    destruct (decimal.representable c' e'); [|done].
    intros [= _ <- _]. by eapply parse_number_nonneg.
Qed.

(** C6.  Every amount string that [parse_amount] accepts is a finite
    decimal [c * 10^e], and the value returned is the integer
    [c * 10^e * 100] rounded half up (on the magnitude, the sign kept):
    the product itself when the decimal has at most two places, and
    otherwise the integer [n] with [n - 1/2 <= c * 10^(e+2) < n + 1/2].
    Only integer operations take part, and the multiplication by 100
    under the 28-digit context changes nothing. *)
Theorem C6_amount_half_up_minor_units value cents :
  parse_amount value = Ok (Some cents) →
  ∃ sign c e,
    decimal.of_string (amount_text value) = Ok (decimal.Finite sign c e)
    ∧ 0 ≤ c
    ∧ cents = (if sign then - round_half_up_x100 c e
               else round_half_up_x100 c e)
    ∧ (0 ≤ e + 2 → round_half_up_x100 c e = c * 10 ^ (e + 2))
    ∧ (e + 2 < 0 →
       2 * round_half_up_x100 c e * 10 ^ (- (e + 2))
       ≤ 2 * c + 10 ^ (- (e + 2))
       < 2 * (round_half_up_x100 c e + 1) * 10 ^ (- (e + 2))).
Proof.
  unfold parse_amount. fold (amount_text value).
  destruct (pystr.is_empty _); [done|].
  destruct (decimal.of_string (amount_text value)) as [d|err] eqn:Hd.
  2: { by destruct err. }
  change (decimal.of_string "0.01") with (Ok (decimal.Finite false 1 (-2))).
  cbn [mbind result_bind].
  destruct d as [s c e | s | s [|]]; [|done|done|done].
  pose proof (of_string_finite_nonneg _ _ _ _ Hd) as Hc.
  destruct (decimal.quantize _ _ _) as [q|err] eqn:Hq; [|done].
  apply quantize_hundredths in Hq as [-> Hdigits]; [|done].
  pose proof (round_half_up_x100_nonneg c e Hc) as Hn.
  pose proof (cents_of_hundredths s _ Hn Hdigits) as Hcents.
  unfold mbind, result_bind in *.
  destruct (decimal.mul _ _) as [p|err]; [|done].
  rewrite Hcents. intros [= <-].
  exists s, c, e. repeat split; try done.
  - intros He. unfold round_half_up_x100.
    by destruct (Z.leb_spec 0 (e + 2)); [|lia].
  - by apply round_half_up_x100_nearest.
  - by apply round_half_up_x100_nearest.
Qed.

(** ["0.005"] is 5 * 10^-3 and gives one minor unit. *)
Lemma C6_amount_half_up_minor_units_witness :
  ∃ sign c e,
    decimal.of_string (amount_text "0.005") = Ok (decimal.Finite sign c e)
    ∧ 0 ≤ c
    ∧ 1 = (if sign then - round_half_up_x100 c e else round_half_up_x100 c e)
    ∧ (0 ≤ e + 2 → round_half_up_x100 c e = c * 10 ^ (e + 2))
    ∧ (e + 2 < 0 →
       2 * round_half_up_x100 c e * 10 ^ (- (e + 2))
       ≤ 2 * c + 10 ^ (- (e + 2))
       < 2 * (round_half_up_x100 c e + 1) * 10 ^ (- (e + 2))).
Proof.
  apply (C6_amount_half_up_minor_units "0.005" 1).
  vm_compute. reflexivity.
Defined.

(** * Further properties of the code *)

(** ** Blank amounts *)

Lemma lstrip_all_space s : all_space s = true → pystr.lstrip s = EmptyString.
Proof.
  induction s as [|c s IH]; cbn; [done|].
  intros [Hc Hs]%andb_true_iff. rewrite Hc. by apply IH.
Qed.

(** X1.  An amount field made of white space only (the empty field
    included) is no amount: [parse_amount] returns [None], and it does
    not raise. *)
Theorem X1_blank_amount_is_none value :
  all_space value = true → parse_amount value = Ok None.
Proof.
  intros Hs. unfold parse_amount, pystr.strip, pystr.rstrip.
  by rewrite (lstrip_all_space value Hs).
Qed.

Lemma X1_blank_amount_is_none_witness :
  parse_amount (String " " (String "009" (String " " EmptyString))) = Ok None.
Proof.
  apply (X1_blank_amount_is_none
           (String " " (String "009" (String " " EmptyString)))).
  reflexivity.
Defined.

(** ** Entries: what a validated form writes *)

Lemma validated_row db form data :
  validate_entry_form db form = Ok (data, []) →
  ∃ row,
    repo.row_of_payload data = Ok row
    ∧ entry_consistent db row
    ∧ repo.references_exist db row = true
    ∧ cf_recorded_on row = pystr.strip (dict_get form "recorded_on" EmptyString)
    ∧ cf_recorded_on row ≠ EmptyString
    ∧ parse_amount (dict_get form "amount" EmptyString)
      = Ok (Some (cf_amount_cents row))
    ∧ cf_amount_cents row ≠ 0
    ∧ cf_comment row
      = Some (pystr.strip (dict_get form "comment" EmptyString))
    ∧ submitted form "status_id" = Some (cf_status_id row)
    ∧ submitted form "type_id" = Some (cf_type_id row)
    ∧ submitted form "category_id" = Some (cf_category_id row)
    ∧ submitted form "subcategory_id" = Some (cf_subcategory_id row).
Proof.
  intros Hv.
  destruct (validate_entry_form_cases db form)
    as [(cents & Hp & Heq) | (e & _ & Heq)]; rewrite Heq in Hv; [|done].
  injection Hv as <- Hnil.
  pose proof (proj1 (expected_errors_nil db form) Hnil) as Hall.
  pose proof (Hall DateRequired) as Hd.
  pose proof (Hall StatusRequired) as Hs1. pose proof (Hall StatusUnknown) as Hs2.
  pose proof (Hall TypeRequired) as Ht1. pose proof (Hall TypeUnknown) as Ht2.
  pose proof (Hall CategoryRequired) as Hc1.
  pose proof (Hall CategoryUnknown) as Hc2.
  pose proof (Hall CategoryOfOtherType) as Hc3.
  pose proof (Hall SubcategoryRequired) as Hu1.
  pose proof (Hall SubcategoryUnknown) as Hu2.
  pose proof (Hall SubcategoryOfOtherCategory) as Hu3.
  pose proof (Hall AmountInvalid) as Ha.
  cbn in Hd, Hs1, Hs2, Ht1, Ht2, Hc1, Hc2, Hc3, Hu1, Hu2, Hu3, Ha.
  rewrite Hp in Ha. unfold expected_data, repo.row_of_payload. cbn.
  destruct (submitted form "status_id") as [sid|];
    [|by apply bool_decide_eq_false in Hs1].
  destruct (submitted form "type_id") as [tid|];
    [|by apply bool_decide_eq_false in Ht1].
  destruct (submitted form "category_id") as [cid|];
    [|by apply bool_decide_eq_false in Hc1].
  destruct (submitted form "subcategory_id") as [scid|];
    [|by apply bool_decide_eq_false in Hu1].
  cbn [mbind option_bind].
  destruct (statuses db !! sid) as [st|] eqn:Est;
    [|by apply bool_decide_eq_false in Hs2].
  destruct (types db !! tid) as [ty|] eqn:Ety;
    [|by apply bool_decide_eq_false in Ht2].
  destruct (categories db !! cid) as [cat|] eqn:Ecat;
    [|by apply bool_decide_eq_false in Hc2].
  destruct (repo.get_subcategory db scid) as [info|] eqn:Esub;
    [|by apply bool_decide_eq_false in Hu2].
  destruct cents as [c|]; [|done].
  apply bool_decide_eq_false in Hc3, Hu3.
  unfold repo.get_subcategory in Esub.
  destruct (subcategories db !! scid) as [sub|] eqn:Esub'; [|done].
  cbn in Esub.
  destruct (categories db !! sub_category_id sub) as [cat'|]; [|done].
  cbn in Esub. injection Esub as <-. cbn in Hu3.
  assert (cat_type_id cat = tid)
    by (by destruct (decide (cat_type_id cat = tid))).
  assert (sub_category_id sub = cid)
    by (by destruct (decide (sub_category_id sub = cid))).
  rewrite Hd, Ha. cbn. eexists. split; [done|]. cbn.
  unfold entry_consistent, repo.references_exist. cbn.
  rewrite Est, Ety, Ecat, Esub'.
  repeat split; eauto using is_empty_false.
  lia.
Qed.

Lemma max_rowid_ge {A} (m : gmap Z A) k :
  is_Some (m !! k) → k ≤ repo.max_rowid m.
Proof.
  intros [a Hk]. unfold repo.max_rowid.
  apply elem_of_map_to_list in Hk.
  induction (map_to_list m) as [|[k' a'] l IH]; cbn.
  - by apply not_elem_of_nil in Hk.
  - apply elem_of_cons in Hk as [[= <- <-]|Hin]; [lia|].
    specialize (IH Hin). lia.
Qed.





(** ** Entries: ids and the counter *)

Lemma create_cashflow_explicit db data db' id :
  repo.create_cashflow db data = Ok (db', id) →
  ∃ row,
    id = Z.max (cashflows_seq db) (repo.max_rowid (cashflows db)) + 1
    ∧ db' = with_cashflows (<[id := row]> (cashflows db)) id db
    ∧ repo.row_of_payload data = Ok row
    ∧ repo.references_exist db row = true.
Proof.
  unfold repo.create_cashflow.
  destruct (repo.row_of_payload data) as [row|] eqn:Hrow; cbn; [|done].
  destruct (repo.references_exist db row) eqn:Hfk; [|done].
  intros [= <- <-]. by exists row.
Qed.

Lemma update_cashflow_explicit db entry_id data db' :
  repo.update_cashflow db entry_id data = Ok db' →
  db' = db
  ∨ ∃ row,
      is_Some (cashflows db !! entry_id)
      ∧ db' = with_cashflows (<[entry_id := row]> (cashflows db))
                (cashflows_seq db) db
      ∧ repo.row_of_payload data = Ok row
      ∧ repo.references_exist db row = true.
Proof.
  unfold repo.update_cashflow.
  destruct (repo.row_of_payload data) as [row|] eqn:Hrow; cbn; [|done].
  destruct (cashflows db !! entry_id) eqn:Hk; [|intros [= <-]; by left].
  destruct (repo.references_exist db row) eqn:Hfk; [|done].
  intros [= <-]. right. exists row. eauto.
Qed.

(** The database after a create request: unchanged, or one row more. *)
Lemma view_create_entry_after form db :
  (application (view_create_entry form) db).1 = db
  ∨ ∃ data row id,
      validate_entry_form db form = Ok (data, [])
      ∧ repo.row_of_payload data = Ok row
      ∧ id = Z.max (cashflows_seq db) (repo.max_rowid (cashflows db)) + 1
      ∧ (application (view_create_entry form) db).1
        = with_cashflows (<[id := row]> (cashflows db)) id db.
Proof.
  unfold application, view_create_entry.
  destruct (validate_entry_form db form) as [[data errors]|e] eqn:Hv; cbn.
  2: { left. by destruct e. }
  destruct errors as [|err errors]; [|by left].
  destruct (repo.create_cashflow db data) as [[db' id]|e] eqn:Hc; cbn.
  2: { left. by destruct e. }
  apply create_cashflow_explicit in Hc as (row & -> & -> & Hrow & _).
  right. eexists data, row, _. eauto.
Qed.

(** The database after an update request: unchanged, or one row replaced. *)
Lemma view_update_entry_after entry_id form db :
  (application (view_update_entry entry_id form) db).1 = db
  ∨ ∃ data row,
      is_Some (cashflows db !! entry_id)
      ∧ validate_entry_form db form = Ok (data, [])
      ∧ repo.row_of_payload data = Ok row
      ∧ (application (view_update_entry entry_id form) db).1
        = with_cashflows (<[entry_id := row]> (cashflows db))
            (cashflows_seq db) db.
Proof.
  unfold application, view_update_entry.
  destruct (repo.get_cashflow db entry_id); [|by left].
  destruct (validate_entry_form db form) as [[data errors]|e] eqn:Hv; cbn.
  2: { left. by destruct e. }
  destruct errors as [|err errors]; [|by left].
  destruct (repo.update_cashflow db entry_id data) as [db'|e] eqn:Hc; cbn.
  2: { left. by destruct e. }
  apply update_cashflow_explicit in Hc as [->|(row & Hk & -> & Hrow & _)];
    [by left|].
  right. by exists data, row.
Qed.

Lemma view_delete_entry_after entry_id db :
  (application (view_delete_entry entry_id) db).1 = db
  ∨ (application (view_delete_entry entry_id) db).1
    = repo.delete_cashflow db entry_id.
Proof.
  unfold application, view_delete_entry.
  destruct (repo.get_cashflow db entry_id); [by right | by left].
Qed.

(** X4.  Entry ids are never given twice.  A create request leaves every
    id at or below the counter as it was, so it never fills the place of a
    deleted entry; no entry request lowers the counter; and if no stored
    id is above the counter before a create, update or delete request,
    none is after it. *)
Theorem X4_entry_ids_never_reused db :
  (∀ form id,
     id ≤ cashflows_seq db →
     cashflows (application (view_create_entry form) db).1 !! id
     = cashflows db !! id)
  ∧ (∀ form,
       cashflows_seq db
       ≤ cashflows_seq (application (view_create_entry form) db).1
       ∧ (ids_within_seq db →
          ids_within_seq (application (view_create_entry form) db).1))
  ∧ (∀ entry_id form,
       cashflows_seq (application (view_update_entry entry_id form) db).1
       = cashflows_seq db
       ∧ (ids_within_seq db →
          ids_within_seq (application (view_update_entry entry_id form) db).1))
  ∧ (∀ entry_id,
       cashflows_seq (application (view_delete_entry entry_id) db).1
       = cashflows_seq db
       ∧ (ids_within_seq db →
          ids_within_seq (application (view_delete_entry entry_id) db).1)).
Proof.
  split; [|split; [|split]].
  - intros form id Hid.
    destruct (view_create_entry_after form db)
      as [->|(data & row & id' & _ & _ & -> & ->)]; [done|].
    cbn. rewrite lookup_insert_ne; [done|lia].
  - intros form.
    destruct (view_create_entry_after form db)
      as [->|(data & row & id' & _ & _ & -> & ->)]; [done|].
    cbn. split; [lia|]. intros Hinv k. cbn. rewrite lookup_insert.
    case_decide as Hk; [lia|]. intros Hs. specialize (Hinv k Hs). lia.
  - intros entry_id form.
    destruct (view_update_entry_after entry_id form db)
      as [->|(data & row & Hin & _ & _ & ->)]; [done|].
    cbn. split; [done|]. intros Hinv k. cbn. rewrite lookup_insert.
    case_decide as Hk; [intros _; subst; by apply Hinv | by apply Hinv].
  - intros entry_id.
    destruct (view_delete_entry_after entry_id db) as [->| ->]; [done|].
    cbn. split; [done|]. intros Hinv k [row Hrow]. cbn in Hrow.
    apply lookup_delete_Some in Hrow as [_ Hrow]. apply Hinv. eauto.
Qed.

Lemma X4_entry_ids_never_reused_witness :
  cashflows
    (application
       (view_create_entry (entry_form "2024-03-01" "1" "2" "1" "2" "5" ""))
       (application (view_delete_entry 3) ledger_db).1).1 !! 3
  = cashflows (application (view_delete_entry 3) ledger_db).1 !! 3.
Proof.
  apply (proj1 (X4_entry_ids_never_reused
                  (application (view_delete_entry 3) ledger_db).1)
           (entry_form "2024-03-01" "1" "2" "1" "2" "5" "") 3).
  vm_compute. discriminate.
Defined.

(** ** Integrity of the stored data under the requests *)

Lemma entry_consistent_with_cashflows m seq db row :
  entry_consistent (with_cashflows m seq db) row ↔ entry_consistent db row.
Proof. done. Qed.

Lemma hierarchy_consistent_with_cashflows m seq db :
  hierarchy_consistent (with_cashflows m seq db) ↔ hierarchy_consistent db.
Proof. done. Qed.

Lemma ledger_consistent_insert db id row seq :
  ledger_consistent db → entry_consistent db row →
  ledger_consistent (with_cashflows (<[id := row]> (cashflows db)) seq db).
Proof.
  intros Hinv Hrow k r. cbn. rewrite lookup_insert.
  case_decide; [intros [= <-]; done|]. apply Hinv.
Qed.

Lemma view_create_entry_consistent db form :
  ledger_consistent db →
  ledger_consistent (application (view_create_entry form) db).1.
Proof.
  intros Hinv.
  destruct (view_create_entry_after form db)
    as [->|(data & row & id & Hv & Hrow & _ & ->)]; [done|].
  apply ledger_consistent_insert; [done|].
  destruct (validated_row db form data Hv) as (row' & Hrow' & Hc & _).
  congruence.
Qed.

Lemma view_create_entry_tables db form :
  statuses (application (view_create_entry form) db).1 = statuses db
  ∧ types (application (view_create_entry form) db).1 = types db
  ∧ categories (application (view_create_entry form) db).1 = categories db
  ∧ subcategories (application (view_create_entry form) db).1
    = subcategories db.
Proof.
  by destruct (view_create_entry_after form db)
    as [->|(data & row & id & _ & _ & _ & ->)].
Qed.


(** X5.  No entry request breaks the stored data.  If every stored entry
    has its four references, a category of its type and a subcategory of
    its category, this still holds after any create, update or delete
    request on entries, whatever the form; and these requests leave the
    reference tables as they are. *)
Theorem X5_entry_requests_keep_ledger_consistent db :
  ledger_consistent db →
  (∀ form,
     ledger_consistent (application (view_create_entry form) db).1)
  ∧ (∀ entry_id form,
       ledger_consistent (application (view_update_entry entry_id form) db).1)
  ∧ (∀ entry_id,
       ledger_consistent (application (view_delete_entry entry_id) db).1)
  ∧ (∀ db',
       (∃ form, db' = (application (view_create_entry form) db).1)
       ∨ (∃ entry_id form,
            db' = (application (view_update_entry entry_id form) db).1)
       ∨ (∃ entry_id, db' = (application (view_delete_entry entry_id) db).1) →
       statuses db' = statuses db ∧ types db' = types db
       ∧ categories db' = categories db
       ∧ subcategories db' = subcategories db).
Proof.
  intros Hinv. split; [|split; [|split]].
  - intros form. by apply view_create_entry_consistent.
  - intros entry_id form.
    destruct (view_update_entry_after entry_id form db)
      as [->|(data & row & _ & Hv & Hrow & ->)]; [done|].
    apply ledger_consistent_insert; [done|].
    destruct (validated_row db form data Hv) as (row' & Hrow' & Hc & _).
    congruence.
  - intros entry_id.
    destruct (view_delete_entry_after entry_id db) as [->| ->]; [done|].
    intros k r. cbn. intros [_ Hk]%lookup_delete_Some. by apply (Hinv k).
  - intros db' [[form ->] | [(entry_id & form & ->) | [entry_id ->]]].
    + apply view_create_entry_tables.
    + by destruct (view_update_entry_after entry_id form db)
        as [->|(data & row & _ & _ & _ & ->)].
    + by destruct (view_delete_entry_after entry_id db) as [->| ->].
Qed.

Lemma seed_db_ledger_consistent : ledger_consistent seed_db.
Proof. intros id row Hrow. vm_compute in Hrow. discriminate Hrow. Qed.

Lemma X5_entry_requests_keep_ledger_consistent_witness :
  ledger_consistent
    (application
       (view_create_entry (entry_form "2024-01-15" "1" "2" "1" "2" "12,30" "x"))
       seed_db).1.
Proof.
  apply (proj1 (X5_entry_requests_keep_ledger_consistent seed_db
                  seed_db_ledger_consistent)).
Defined.

(** The database after a reference delete request: unchanged, or one
    reference row less, that nothing referred to. *)
Lemma handle_reference_delete_after entity entity_id db :
  (application (handle_reference_delete entity entity_id) db).1 = db
  ∨ (repo.count_where (cashflows db) (λ cf, cf_status_id cf =? entity_id) = 0
     ∧ (application (handle_reference_delete entity entity_id) db).1
       = with_statuses (delete entity_id (statuses db)) db)
  ∨ (repo.count_where (categories db) (λ c, cat_type_id c =? entity_id) = 0
     ∧ repo.count_where (cashflows db) (λ cf, cf_type_id cf =? entity_id) = 0
     ∧ (application (handle_reference_delete entity entity_id) db).1
       = with_types (delete entity_id (types db)) db)
  ∨ (repo.count_where (subcategories db)
       (λ s, sub_category_id s =? entity_id) = 0
     ∧ repo.count_where (cashflows db) (λ cf, cf_category_id cf =? entity_id) = 0
     ∧ (application (handle_reference_delete entity entity_id) db).1
       = with_categories (delete entity_id (categories db)) db)
  ∨ (repo.count_where (cashflows db)
       (λ cf, cf_subcategory_id cf =? entity_id) = 0
     ∧ (application (handle_reference_delete entity entity_id) db).1
       = with_subcategories (delete entity_id (subcategories db)) db).
Proof.
  unfold application, handle_reference_delete, has_dependencies.
  destruct (String.eqb entity "status");
    [|destruct (String.eqb entity "type");
      [|destruct (String.eqb entity "category")]]; cbn.
  - count_cases (cashflows db) (λ cf, cf_status_id cf =? entity_id);
      [by left|].
    rewrite delete_status_unreferenced by done. cbn. right. left. done.
  - count_cases (categories db) (λ c, cat_type_id c =? entity_id);
      cbn; [by left|].
    count_cases (cashflows db) (λ cf, cf_type_id cf =? entity_id);
      cbn; [by left|].
    rewrite delete_type_unreferenced by done. cbn. right. right. left. done.
  - count_cases (subcategories db) (λ s, sub_category_id s =? entity_id);
      cbn; [by left|].
    count_cases (cashflows db) (λ cf, cf_category_id cf =? entity_id);
      cbn; [by left|].
    rewrite delete_category_unreferenced by done. cbn.
    right. right. right. left. done.
  - count_cases (cashflows db) (λ cf, cf_subcategory_id cf =? entity_id);
      [by left|].
    rewrite delete_subcategory_unreferenced by done. cbn.
    right. right. right. right. done.
Qed.

Lemma count_where_zero_ne {A} (m : gmap Z A) (col : A → Z) v k a :
  repo.count_where m (λ x, col x =? v) = 0 → m !! k = Some a → col a ≠ v.
Proof.
  intros Hz Hk. pose proof (proj1 (count_where_zero _ _) Hz k a Hk) as Hf.
  cbn in Hf. lia.
Qed.



Lemma ledger_db_ledger_consistent : ledger_consistent ledger_db.
Proof.
  unfold ledger_db.
  do 3 apply view_create_entry_consistent. apply seed_db_ledger_consistent.
Qed.



(** ** The list of entries *)

Section further_listing.
Context `{SqlEngine}.

Lemma conditions_empty : repo.conditions ∅ = [].
Proof. reflexivity. Qed.

Lemma join_row_consistent db k cf :
  entry_consistent db cf →
  ∃ r, repo.join_row db (k, cf) = Some r
       ∧ repo.row_id r = k
       ∧ repo.row_recorded_on r = cf_recorded_on cf
       ∧ repo.row_amount_cents r = cf_amount_cents cf
       ∧ repo.row_comment r = cf_comment cf
       ∧ statuses db !! cf_status_id cf = Some (repo.row_status_name r)
       ∧ types db !! cf_type_id cf = Some (repo.row_type_name r)
       ∧ cat_name <$> categories db !! cf_category_id cf
         = Some (repo.row_category_name r)
       ∧ sub_name <$> subcategories db !! cf_subcategory_id cf
         = Some (repo.row_subcategory_name r).
Proof.
  intros ([st Hst] & [ty Hty] & (cat & Hcat & _) & (sub & Hsub & _)).
  unfold repo.join_row. rewrite Hst, Hty, Hcat, Hsub. cbn.
  eexists. split; [done|]. cbn. by repeat split.
Qed.

Lemma joined_ids_consistent db (l : list (Z * cashflow_row)) :
  Forall (λ kv, entry_consistent db kv.2) l →
  repo.row_id <$> omap (repo.join_row db) l = l.*1.
Proof.
  induction 1 as [|[k cf] l Hc _ IH]; [done|].
  destruct (join_row_consistent db k cf Hc) as (r & Hr & Hid & _).
  cbn [omap list_omap]. rewrite Hr. cbn. by rewrite Hid, <-IH.
Qed.

Lemma filter_where_nil (l : list repo.ledger_row) :
  filter (repo.where_clause []) l = l.
Proof.
  induction l as [|r l IH]; [done|].
  rewrite filter_cons_True by done. by rewrite IH.
Qed.

(** X7.  With no filter, the list shows the whole ledger: when every
    stored entry has its references, the ids listed are the ids stored,
    each once, and each entry is listed with its own date, amount and
    comment and with the names of the rows it refers to. *)
Theorem X7_unfiltered_list_is_whole_ledger db :
  ledger_consistent db →
  repo.row_id <$> repo.list_cashflows db ∅ ≡ₚ (map_to_list (cashflows db)).*1
  ∧ (∀ id row, cashflows db !! id = Some row →
       ∃ r, r ∈ repo.list_cashflows db ∅
            ∧ repo.row_id r = id
            ∧ repo.row_recorded_on r = cf_recorded_on row
            ∧ repo.row_amount_cents r = cf_amount_cents row
            ∧ repo.row_comment r = cf_comment row
            ∧ statuses db !! cf_status_id row = Some (repo.row_status_name r)
            ∧ types db !! cf_type_id row = Some (repo.row_type_name r)
            ∧ cat_name <$> categories db !! cf_category_id row
              = Some (repo.row_category_name r)
            ∧ sub_name <$> subcategories db !! cf_subcategory_id row
              = Some (repo.row_subcategory_name r)).
Proof.
  intros Hinv.
  assert (repo.list_cashflows db ∅ ≡ₚ repo.joined db) as Hperm.
  { rewrite list_cashflows_Permutation, conditions_empty.
    by rewrite filter_where_nil. }
  split.
  - rewrite Hperm. unfold repo.joined. rewrite joined_ids_consistent; [done|].
    apply Forall_forall. intros [k cf] Hk%elem_of_map_to_list.
    by apply (Hinv k).
  - intros id row Hrow.
    destruct (join_row_consistent db id row (Hinv id row Hrow))
      as (r & Hr & Hfields).
    exists r. split; [|done]. rewrite Hperm. unfold repo.joined.
    apply list_elem_of_omap. exists (id, row).
    split; [by apply elem_of_map_to_list|done].
Qed.



End further_listing.

Lemma X7_unfiltered_list_is_whole_ledger_witness :
  repo.row_id <$> repo.list_cashflows ledger_db ∅
  ≡ₚ (map_to_list (cashflows ledger_db)).*1.
Proof.
  apply (X7_unfiltered_list_is_whole_ledger
           ledger_db ledger_db_ledger_consistent).
Defined.

(** ** Every outcome of [parse_amount] *)

Section amount_outcome.
Import decimal.

Ltac unfold_bounds :=
  unfold adjusted, Etiny, Etop, Emin, Emax, prec in *.

Lemma ndigits_le_of_lt c n : 0 < c → c < 10 ^ n → ndigits c ≤ n.
Proof.
  intros Hc Hn. destruct (ndigits_bounds c Hc) as (H1 & Hlo & _).
  destruct (Z.le_gt_cases (ndigits c) n) as [|Hgt]; [done|].
  assert (0 ≤ n).
  { destruct (Z.le_gt_cases 0 n); [done|].
    rewrite Z.pow_neg_r in Hn by lia. lia. }
  assert (10 ^ n ≤ 10 ^ (ndigits c - 1)) by (apply Z.pow_le_mono_r; lia).
  lia.
Qed.

Lemma ndigits_gt_of_le c n : 0 ≤ n → 10 ^ n ≤ c → n < ndigits c.
Proof.
  intros Hn Hc.
  assert (0 < 10 ^ n) by (apply Z.pow_pos_nonneg; lia).
  destruct (ndigits_bounds c ltac:(lia)) as (_ & _ & Hhi).
  destruct (Z.lt_ge_cases n (ndigits c)) as [|Hle]; [done|].
  assert (10 ^ ndigits c ≤ 10 ^ n) by (apply Z.pow_le_mono_r; lia).
  lia.
Qed.

Lemma round_half_up_x100_zero x : round_half_up_x100 0 x = 0.
Proof.
  unfold round_half_up_x100.
  destruct (Z.leb_spec 0 (x + 2)) as [|Hx]; [done|].
  assert (0 < 10 ^ (- (x + 2))) by (apply Z.pow_pos_nonneg; lia).
  apply Z.div_small. lia.
Qed.

(** A coefficient whose leading digit is at 10^27 or above rounds to
    10^28 hundredths at least. *)
Lemma round_half_up_x100_large c x :
  0 < c → 26 < ndigits c + x → 10 ^ 28 ≤ round_half_up_x100 c x.
Proof.
  intros Hc Hbig. destruct (ndigits_bounds c Hc) as (H1 & Hlo & _).
  unfold round_half_up_x100.
  destruct (Z.leb_spec 0 (x + 2)) as [Hx|Hx].
  - assert (10 ^ 28 ≤ 10 ^ (ndigits c - 1 + (x + 2)))
      by (apply Z.pow_le_mono_r; lia).
    rewrite Z.pow_add_r in * by lia.
    assert (0 < 10 ^ (x + 2)) by (apply Z.pow_pos_nonneg; lia).
    nia.
  - assert (0 < 10 ^ (- (x + 2))) as Hp by (apply Z.pow_pos_nonneg; lia).
    apply Z.div_le_lower_bound; [lia|].
    assert (10 ^ (28 + - (x + 2)) ≤ 10 ^ (ndigits c - 1))
      by (apply Z.pow_le_mono_r; lia).
    rewrite Z.pow_add_r in * by lia.
    nia.
Qed.

(** Quantizing a finite number to two places either gives the half-up
    rounding or, from 10^28 hundredths on, raises. *)
Lemma quantize_hundredths_outcome s c x :
  0 ≤ c →
  quantize (Finite s c x) (Finite false 1 (-2)) ROUND_HALF_UP
  = if round_half_up_x100 c x <? 10 ^ 28
    then Ok (Finite s (round_half_up_x100 c x) (-2))
    else Raise InvalidOperation.
Proof.
  intros Hc. unfold quantize. cbn [_check_nans].
  change (negb ((Etiny <=? -2) && (-2 <=? Emax))) with false. cbv iota.
  destruct (Z.eqb_spec c 0) as [->|Hnz].
  { rewrite round_half_up_x100_zero. reflexivity. }
  assert (26 < ndigits c + x → (round_half_up_x100 c x <? 10 ^ 28) = false)
    as Hlarge.
  { intros Hbig. apply Z.ltb_ge. apply round_half_up_x100_large; lia. }
  destruct (Z.ltb_spec Emax (adjusted c x)) as [Ha|Ha].
  { rewrite Hlarge; [done|]. unfold adjusted, Emax in Ha. lia. }
  destruct (Z.ltb_spec prec (adjusted c x - -2 + 1)) as [Hp|Hp].
  { rewrite Hlarge; [done|]. unfold adjusted, prec in Hp. lia. }
  rewrite rescale_half_up by done.
  pose proof (round_half_up_x100_nonneg c x Hc) as Hn.
  remember (round_half_up_x100 c x) as r eqn:Hr. clear Hlarge.
  destruct (Z.ltb_spec r (10 ^ 28)) as [Hsmall|Hbig].
  - destruct (Z.eq_dec r 0) as [->|Hr0]; [reflexivity|].
    assert (1 ≤ ndigits r) by (apply ndigits_bounds; lia).
    assert (ndigits r ≤ 28) by (apply ndigits_le_of_lt; lia).
    destruct (Z.ltb_spec Emax (adjusted r (-2))); [unfold_bounds; lia|].
    destruct (Z.ltb_spec prec (ndigits r)); [unfold_bounds; lia|].
    unfold _fix.
    destruct (Z.eqb_spec r 0); [lia|].
    destruct (Z.ltb_spec Etop (ndigits r + -2 - prec)); [unfold_bounds; lia|].
    destruct (Z.ltb_spec (-2) (Z.max (ndigits r + -2 - prec) Etiny));
      [unfold_bounds; lia|].
    done.
  - destruct (Emax <? adjusted r (-2)); [done|].
    assert (28 < ndigits r) by (apply ndigits_gt_of_le; lia).
    destruct (Z.ltb_spec prec (ndigits r)); [done|]. unfold prec in *. lia.
Qed.

Lemma of_string_raises value e :
  of_string value = Raise e → e = InvalidOperation.
Proof.
  unfold of_string.
  destruct (pystr.take_sign _) as [sign body].
  destruct (parse_special sign body); [done|].
  destruct (parse_number body) as [[c x]|]; [|by intros [= <-]].
  destruct (representable c x); [done|by intros [= <-]].
Qed.

End amount_outcome.

(** [parse_amount] through the [Decimal] that its cleaned text denotes. *)
Lemma parse_amount_by_decimal value :
  parse_amount value
  = match decimal.of_string (amount_text value) with
    | Ok (decimal.Finite s c e) =>
        if round_half_up_x100 c e <? 10 ^ 28
        then Ok (Some (if s then - round_half_up_x100 c e
                       else round_half_up_x100 c e))
        else Raise InvalidOperation
    | Ok (decimal.Infinity _) => Raise InvalidOperation
    | Ok (decimal.NaN _ signaling) =>
        Raise (if signaling then InvalidOperation else ValueError)
    | Raise _ => Ok None
    end.
Proof.
  unfold parse_amount. fold (amount_text value). unfold amount_text at 2.
  destruct (pystr.remove_char " " (pystr.strip value)) as [|ch rest] eqn:Hs.
  { reflexivity. }
  cbn [pystr.is_empty]. rewrite <-Hs. fold (amount_text value).
  destruct (decimal.of_string (amount_text value)) as [d|err] eqn:Hd.
  2: { by rewrite (of_string_raises _ _ Hd). }
  change (decimal.of_string "0.01") with (Ok (decimal.Finite false 1 (-2))).
  cbn [mbind result_bind].
  destruct d as [s c e | s | s [|]]; [|done|done|done].
  pose proof (of_string_finite_nonneg _ _ _ _ Hd) as Hc.
  rewrite quantize_hundredths_outcome by done.
  pose proof (round_half_up_x100_nonneg c e Hc) as Hn.
  destruct (Z.ltb_spec (round_half_up_x100 c e) (10 ^ 28)) as [Hsmall|Hbig];
    [|done].
  assert (round_half_up_x100 c e = 0
          ∨ decimal.ndigits (round_half_up_x100 c e) ≤ 28) as Hdigits.
  { destruct (Z.eq_dec (round_half_up_x100 c e) 0); [by left|right].
    apply ndigits_le_of_lt; lia. }
  pose proof (cents_of_hundredths s _ Hn Hdigits) as Hcents.
  unfold mbind, result_bind in *.
  destruct (decimal.mul _ _) as [p|err]; [|done].
  by rewrite Hcents.
Qed.

(** X9.  What [parse_amount] does on every string, read off the text it
    hands to [Decimal]: no literal gives [None]; a finite literal
    [c * 10^e] gives the half-up rounding of its hundredths when that is
    below 10^28, and raises [InvalidOperation] otherwise; an infinity
    and a signaling NaN raise [InvalidOperation], a quiet NaN raises
    [ValueError].  So an amount that is returned is always within 28
    digits. *)
Theorem X9_parse_amount_outcome value :
  parse_amount value
  = match decimal.of_string (amount_text value) with
    | Ok (decimal.Finite s c e) =>
        if round_half_up_x100 c e <? 10 ^ 28
        then Ok (Some (if s then - round_half_up_x100 c e
                       else round_half_up_x100 c e))
        else Raise InvalidOperation
    | Ok (decimal.Infinity _) => Raise InvalidOperation
    | Ok (decimal.NaN _ signaling) =>
        Raise (if signaling then InvalidOperation else ValueError)
    | Raise _ => Ok None
    end
  ∧ (∀ cents, parse_amount value = Ok (Some cents) →
       - 10 ^ 28 < cents < 10 ^ 28).
Proof.
  pose proof (parse_amount_by_decimal value) as Heq.
  split; [done|].
  intros cents. rewrite Heq.
  destruct (decimal.of_string (amount_text value)) as [[s c e| |]|] eqn:Hd;
    try done.
  pose proof (of_string_finite_nonneg _ _ _ _ Hd) as Hc.
  pose proof (round_half_up_x100_nonneg c e Hc) as Hn.
  destruct (Z.ltb_spec (round_half_up_x100 c e) (10 ^ 28)); [|done].
  intros [= <-]. destruct s; lia.
Qed.

(** ** Reference requests: creation *)

Lemma next_rowid_fresh {A} (seq : Z) (m : gmap Z A) :
  m !! next_rowid seq m = None ∧ seq < next_rowid seq m.
Proof.
  unfold next_rowid. split; [|lia].
  destruct (m !! (Z.max seq (repo.max_rowid m) + 1)) as [a|] eqn:E; [|done].
  pose proof (max_rowid_ge m _ (mk_is_Some _ _ E)). lia.
Qed.

Lemma key_taken_false {A K} `{EqDecision K} (key : A → K) (m : gmap Z A)
    (self : option Z) (k : K) :
  key_taken key m self k = false ↔
  ∀ id row, m !! id = Some row → Some id ≠ self → key row ≠ k.
Proof.
  unfold key_taken. rewrite bool_decide_eq_false. split.
  - intros Hf id row Hrow Hself Hk. apply Hf. by exists id, row.
  - intros Hf (id & row & Hrow & Hself & Hk). by apply (Hf id row).
Qed.


(** What a creation request leaves behind: nothing new, or one new row
    under a fresh id whose key no row had and whose parent exists. *)
Lemma handle_reference_creation_after entity form st :
  ∃ st' level msg,
    handle_reference_creation entity form st
    = Ok (st', render_reference_page [(level, msg)])
    ∧ (st'.1 = st.1
       ∨ (∃ rowid name,
            statuses st.1 !! rowid = None
            ∧ key_taken id (statuses st.1) None name = false
            ∧ st'.1 = with_statuses (<[rowid := name]> (statuses st.1)) st.1)
       ∨ (∃ rowid name,
            types st.1 !! rowid = None
            ∧ key_taken id (types st.1) None name = false
            ∧ st'.1 = with_types (<[rowid := name]> (types st.1)) st.1)
       ∨ (∃ rowid name type_id,
            categories st.1 !! rowid = None
            ∧ is_Some (types st.1 !! type_id)
            ∧ key_taken category_key (categories st.1) None (type_id, name)
              = false
            ∧ st'.1
              = with_categories
                  (<[rowid := {| cat_name := name; cat_type_id := type_id |}]>
                     (categories st.1)) st.1)
       ∨ (∃ rowid name category_id,
            subcategories st.1 !! rowid = None
            ∧ is_Some (categories st.1 !! category_id)
            ∧ key_taken subcategory_key (subcategories st.1) None
                (category_id, name) = false
            ∧ st'.1
              = with_subcategories
                  (<[rowid := {| sub_name := name;
                              sub_category_id := category_id |}]>
                     (subcategories st.1)) st.1)).
Proof.
  unfold handle_reference_creation.
  destruct (pystr.is_empty _); [by eexists _, _, _; split; [|left]|].
  destruct (String.eqb entity "status").
  { unfold create_status.
    destruct (key_taken id (statuses st.1) None _) eqn:Hk; cbn.
    - by eexists _, _, _; split; [|left].
    - eexists _, _, _. split; [done|]. right. left. eexists _, _.
      split; [apply next_rowid_fresh|]. by split. }
  destruct (String.eqb entity "type").
  { unfold create_type.
    destruct (key_taken id (types st.1) None _) eqn:Hk; cbn.
    - by eexists _, _, _; split; [|left].
    - eexists _, _, _. split; [done|]. right. right. left. eexists _, _.
      split; [apply next_rowid_fresh|]. by split. }
  destruct (String.eqb entity "category").
  { destruct (truthy_int _) as [type_id|]; cbn;
      [|by eexists _, _, _; split; [|left]].
    unfold repo.get_type.
    destruct (types st.1 !! type_id) as [ty|] eqn:Hty; cbn;
      [|by eexists _, _, _; split; [|left]].
    unfold create_category. rewrite Hty.
    rewrite bool_decide_eq_false_2 by done. cbn [orb].
    destruct (key_taken category_key _ None _) eqn:Hk; cbn.
    - by eexists _, _, _; split; [|left].
    - eexists _, _, _. split; [done|]. right. right. right. left.
      eexists _, _, _. split; [apply next_rowid_fresh|].
      split; [by eexists|]. by split. }
  destruct (String.eqb entity "subcategory").
  { destruct (truthy_int _) as [category_id|]; cbn;
      [|by eexists _, _, _; split; [|left]].
    unfold repo.get_category.
    destruct (categories st.1 !! category_id) as [cat|] eqn:Hcat; cbn;
      [|by eexists _, _, _; split; [|left]].
    unfold create_subcategory. rewrite Hcat.
    rewrite bool_decide_eq_false_2 by done. cbn [orb].
    destruct (key_taken subcategory_key _ None _) eqn:Hk; cbn.
    - by eexists _, _, _; split; [|left].
    - eexists _, _, _. split; [done|]. right. right. right. right.
      eexists _, _, _. split; [apply next_rowid_fresh|].
      split; [by eexists|]. by split. }
  by eexists _, _, _; split; [|left].
Qed.

Lemma unique_key_insert {A K} (key : A → K) (m : gmap Z A) i a :
  (∀ j b, m !! j = Some b → j ≠ i → key b ≠ key a) →
  unique_key key m → unique_key key (<[i := a]> m).
Proof.
  intros Hfree Huniq j1 j2 b1 b2.
  rewrite !lookup_insert_Some.
  intros [[<- <-]|[Hne1 Hb1]] [[<- <-]|[Hne2 Hb2]] Hkey; try done.
  - by destruct (Hfree j2 b2 Hb2).
  - by destruct (Hfree j1 b1 Hb1).
  - by apply (Huniq j1 j2 b1 b2).
Qed.

Lemma unique_key_insert_free {A K} `{EqDecision K} (key : A → K)
    (m : gmap Z A) (self : option Z) i a :
  (self = None ∧ m !! i = None ∨ self = Some i) →
  key_taken key m self (key a) = false →
  unique_key key m → unique_key key (<[i := a]> m).
Proof.
  intros Hself Hfree. pose proof (proj1 (key_taken_false _ _ _ _) Hfree) as Hf.
  apply unique_key_insert.
  intros j b Hb Hne. apply (Hf j b Hb).
  destruct Hself as [[-> _]| ->]; [done|congruence].
Qed.

Lemma ledger_consistent_mono db db' :
  statuses db ⊆ statuses db' → types db ⊆ types db' →
  categories db ⊆ categories db' → subcategories db ⊆ subcategories db' →
  cashflows db' = cashflows db →
  ledger_consistent db → ledger_consistent db'.
Proof.
  intros Hs Ht Hc Hu Hcf Hinv id row Hrow. rewrite Hcf in Hrow.
  destruct (Hinv id row Hrow)
    as ([s Hs'] & [t Ht'] & (c & Hc' & Hct) & (u & Hu' & Huc)).
  split; [exists s; by eapply lookup_weaken|].
  split; [exists t; by eapply lookup_weaken|].
  split; [exists c|exists u]; (split; [by eapply lookup_weaken|done]).
Qed.


(** ** Reference requests: update *)

Ltac unchanged_page :=
  eexists _, _; split; [reflexivity|];
  split; [right; by eexists _, _|by left].

Ltac unchanged_404 :=
  eexists _, _; split; [reflexivity|]; split; by left.

(** What an update request leaves behind: nothing changed, or one row
    rewritten in place, with a key that no other row has, a parent that
    exists, and a parent that is the old one unless no entry refers to
    the row. *)
Lemma handle_reference_update_after entity entity_id form db :
  ∃ db' resp,
    handle_reference_update entity entity_id form db = Ok (db', resp)
    ∧ (resp = not_found
       ∨ ∃ level msg, resp = render_reference_page [(level, msg)])
    ∧ (db' = db
       ∨ (∃ name,
            is_Some (statuses db !! entity_id)
            ∧ key_taken id (statuses db) (Some entity_id) name = false
            ∧ db' = with_statuses (<[entity_id := name]> (statuses db)) db)
       ∨ (∃ name,
            is_Some (types db !! entity_id)
            ∧ key_taken id (types db) (Some entity_id) name = false
            ∧ db' = with_types (<[entity_id := name]> (types db)) db)
       ∨ (∃ name type_id cat,
            categories db !! entity_id = Some cat
            ∧ is_Some (types db !! type_id)
            ∧ (type_id = cat_type_id cat
               ∨ repo.count_where (cashflows db)
                   (λ cf, cf_category_id cf =? entity_id) = 0)
            ∧ key_taken category_key (categories db) (Some entity_id)
                (type_id, name) = false
            ∧ db'
              = with_categories
                  (<[entity_id :=
                       {| cat_name := name; cat_type_id := type_id |}]>
                     (categories db)) db)
       ∨ (∃ name category_id sub,
            subcategories db !! entity_id = Some sub
            ∧ is_Some (categories db !! category_id)
            ∧ (category_id = sub_category_id sub
               ∨ repo.count_where (cashflows db)
                   (λ cf, cf_subcategory_id cf =? entity_id) = 0)
            ∧ key_taken subcategory_key (subcategories db) (Some entity_id)
                (category_id, name) = false
            ∧ db'
              = with_subcategories
                  (<[entity_id :=
                       {| sub_name := name;
                          sub_category_id := category_id |}]>
                     (subcategories db)) db)).
Proof.
  unfold handle_reference_update.
  set (name := pystr.strip (dict_get form "name" EmptyString)).
  destruct (pystr.is_empty name); [unchanged_page|].
  destruct (String.eqb entity "status").
  { unfold repo.get_status, update_status.
    destruct (statuses db !! entity_id) as [old|] eqn:Hold; cbn; [|unchanged_404].
    destruct (key_taken id (statuses db) (Some entity_id) name) eqn:Hk; cbn;
      [unchanged_page|].
    eexists _, _. split; [done|]. split; [right; by eexists _, _|].
    right. left. exists name. by repeat split. }
  destruct (String.eqb entity "type").
  { unfold repo.get_type, update_type.
    destruct (types db !! entity_id) as [old|] eqn:Hold; cbn; [|unchanged_404].
    destruct (key_taken id (types db) (Some entity_id) name) eqn:Hk; cbn;
      [unchanged_page|].
    eexists _, _. split; [done|]. split; [right; by eexists _, _|].
    right. right. left. exists name. by repeat split. }
  destruct (String.eqb entity "category").
  { unfold repo.get_category at 1.
    destruct (categories db !! entity_id) as [cat|] eqn:Hcat; [|unchanged_404].
    destruct (truthy_int _) as [type_id|]; [|unchanged_page].
    unfold repo.get_type.
    destruct (types db !! type_id) as [ty|] eqn:Hty; [|unchanged_page].
    assert (∃ locked : bool,
              (if bool_decide (type_id ≠ cat_type_id cat)
               then has_dependencies db "cashflows" "category_id" entity_id
               else Ok false) = Ok locked
              ∧ (locked = false →
                 type_id = cat_type_id cat
                 ∨ repo.count_where (cashflows db)
                     (λ cf, cf_category_id cf =? entity_id) = 0))
      as (locked & -> & Hlocked).
    { case_bool_decide as Hne.
      - unfold has_dependencies. cbn.
        count_cases (cashflows db) (λ cf, cf_category_id cf =? entity_id).
        + by exists true.
        + exists false. split; [done|]. by right.
      - exists false. split; [done|]. intros _. left.
        by destruct (decide (type_id = cat_type_id cat)). }
    cbn [mbind result_bind].
    destruct locked; [unchanged_page|].
    unfold update_category. rewrite Hcat, Hty.
    rewrite bool_decide_eq_false_2 by done. cbn [orb].
    destruct (key_taken category_key _ _ _) eqn:Hk; cbn; [unchanged_page|].
    eexists _, _. split; [done|]. split; [right; by eexists _, _|].
    right. right. right. left. exists name, type_id, cat.
    split; [done|]. split; [by eexists|]. split; [by apply Hlocked|].
    by split. }
  unfold repo.get_subcategory.
  destruct (subcategories db !! entity_id) as [sub|] eqn:Hsub; cbn;
    [|unchanged_404].
  destruct (categories db !! sub_category_id sub) as [parent|] eqn:Hparent;
    cbn; [|unchanged_404].
  destruct (truthy_int _) as [category_id|]; [|unchanged_page].
  unfold repo.get_category.
  destruct (categories db !! category_id) as [cat|] eqn:Hcat; [|unchanged_page].
  unfold has_dependencies. cbn.
  assert (∃ locked : bool,
            (0 <? repo.count_where (cashflows db)
                    (λ cf, cf_subcategory_id cf =? entity_id))
            && bool_decide (category_id ≠ sub_category_id sub) = locked
            ∧ (locked = false →
               category_id = sub_category_id sub
               ∨ repo.count_where (cashflows db)
                   (λ cf, cf_subcategory_id cf =? entity_id) = 0))
    as (locked & -> & Hlocked).
  { count_cases (cashflows db) (λ cf, cf_subcategory_id cf =? entity_id).
    - case_bool_decide as Hne.
      + by exists true.
      + exists false. split; [done|]. intros _. left.
        by destruct (decide (category_id = sub_category_id sub)).
    - exists false. split; [done|]. by right. }
  destruct locked; [unchanged_page|].
  unfold update_subcategory. rewrite Hsub, Hcat.
  rewrite bool_decide_eq_false_2 by done. cbn [orb].
  destruct (key_taken subcategory_key _ _ _) eqn:Hk; cbn; [unchanged_page|].
  eexists _, _. split; [done|]. split; [right; by eexists _, _|].
  right. right. right. right. exists name, category_id, sub.
  split; [done|]. split; [by eexists|]. split; [by apply Hlocked|].
  by split.
Qed.

Lemma is_Some_insert_existing {A} (m : gmap Z A) i x k :
  is_Some (m !! i) → is_Some (<[i := x]> m !! k) ↔ is_Some (m !! k).
Proof.
  intros Hi. rewrite lookup_insert_is_Some. split.
  - by intros [<-|[_ Hk]].
  - intros Hk. destruct (decide (i = k)); [by left|by right].
Qed.








(** ** Initial data *)

Lemma extends_refl db : extends db db.
Proof. unfold extends. split_and!; try reflexivity; auto. Qed.

Lemma extends_trans db1 db2 db3 :
  extends db1 db2 → extends db2 db3 → extends db1 db3.
Proof.
  intros (S1 & T1 & C1 & U1 & F1 & Q1 & H1 & N1)
         (S2 & T2 & C2 & U2 & F2 & Q2 & H2 & N2).
  unfold extends. split_and!; try (by etrans); try congruence; auto.
Qed.

Lemma extends_ledger_consistent db db' :
  extends db db' → ledger_consistent db → ledger_consistent db'.
Proof.
  intros (S1 & T1 & C1 & U1 & F1 & _). by apply ledger_consistent_mono.
Qed.

Lemma create_status_spec st name st' rowid :
  create_status st name = Ok (st', rowid) →
  statuses st.1 !! rowid = None
  ∧ key_taken id (statuses st.1) None name = false
  ∧ st'.1 = with_statuses (<[rowid := name]> (statuses st.1)) st.1.
Proof.
  unfold create_status.
  destruct (key_taken id (statuses st.1) None name) eqn:Hk; [done|].
  intros [= <- <-]. split; [apply next_rowid_fresh|done].
Qed.

Lemma create_type_spec st name st' rowid :
  create_type st name = Ok (st', rowid) →
  types st.1 !! rowid = None
  ∧ key_taken id (types st.1) None name = false
  ∧ st'.1 = with_types (<[rowid := name]> (types st.1)) st.1.
Proof.
  unfold create_type.
  destruct (key_taken id (types st.1) None name) eqn:Hk; [done|].
  intros [= <- <-]. split; [apply next_rowid_fresh|done].
Qed.

Lemma create_category_spec st name type_id st' rowid :
  create_category st name type_id = Ok (st', rowid) →
  categories st.1 !! rowid = None
  ∧ is_Some (types st.1 !! type_id)
  ∧ key_taken category_key (categories st.1) None (type_id, name) = false
  ∧ st'.1
    = with_categories
        (<[rowid := {| cat_name := name; cat_type_id := type_id |}]>
           (categories st.1)) st.1.
Proof.
  unfold create_category. case_bool_decide as Hty; [done|]. cbn [orb].
  destruct (key_taken category_key _ None _) eqn:Hk; [done|].
  intros [= <- <-]. split; [apply next_rowid_fresh|].
  split; [|done]. by destruct (types st.1 !! type_id).
Qed.

Lemma create_subcategory_spec st name category_id st' rowid :
  create_subcategory st name category_id = Ok (st', rowid) →
  subcategories st.1 !! rowid = None
  ∧ is_Some (categories st.1 !! category_id)
  ∧ key_taken subcategory_key (subcategories st.1) None (category_id, name)
    = false
  ∧ st'.1
    = with_subcategories
        (<[rowid := {| sub_name := name; sub_category_id := category_id |}]>
           (subcategories st.1)) st.1.
Proof.
  unfold create_subcategory. case_bool_decide as Hcat; [done|]. cbn [orb].
  destruct (key_taken subcategory_key _ None _) eqn:Hk; [done|].
  intros [= <- <-]. split; [apply next_rowid_fresh|].
  split; [|done]. by destruct (categories st.1 !! category_id).
Qed.

Lemma create_status_extends st name st' rowid :
  create_status st name = Ok (st', rowid) → extends st.1 st'.1.
Proof.
  intros (Hk & Hfree & ->)%create_status_spec.
  split; [by apply insert_subseteq|]. do 6 (split; [done|]).
  intros (U1 & U2 & U3 & U4). split; [|done]. cbn.
  apply (unique_key_insert_free id _ None); [by left|done|done].
Qed.

Lemma create_type_extends st name st' rowid :
  create_type st name = Ok (st', rowid) → extends st.1 st'.1.
Proof.
  intros (Hk & Hfree & ->)%create_type_spec.
  split; [done|]. split; [by apply insert_subseteq|].
  do 4 (split; [done|]). split.
  - intros [H1 H2]. split; [|done]. cbn. intros i c Hi.
    destruct (H1 i c Hi) as [t Ht]. exists t.
    by apply lookup_insert_Some; right; split; [congruence|].
  - intros (U1 & U2 & U3 & U4). split; [done|]. split; [|done]. cbn.
    apply (unique_key_insert_free id _ None); [by left|done|done].
Qed.

Lemma create_category_extends st name type_id st' rowid :
  create_category st name type_id = Ok (st', rowid) → extends st.1 st'.1.
Proof.
  intros (Hk & Hty & Hfree & ->)%create_category_spec.
  do 2 (split; [done|]). split; [by apply insert_subseteq|].
  do 3 (split; [done|]). split.
  - intros [H1 H2]. split; cbn.
    + intros i c [[<- <-]|[_ Hi]]%lookup_insert_Some; [done|].
      by apply (H1 i).
    + intros i s Hi. destruct (H2 i s Hi) as [c Hc]. exists c.
      by apply lookup_insert_Some; right; split; [congruence|].
  - intros (U1 & U2 & U3 & U4). split; [done|]. split; [done|].
    split; [|done]. cbn.
    apply (unique_key_insert_free category_key _ None); [by left|done|done].
Qed.

Lemma create_subcategory_extends st name category_id st' rowid :
  create_subcategory st name category_id = Ok (st', rowid) →
  extends st.1 st'.1.
Proof.
  intros (Hk & Hcat & Hfree & ->)%create_subcategory_spec.
  do 3 (split; [done|]). split; [by apply insert_subseteq|].
  do 2 (split; [done|]). split.
  - intros [H1 H2]. split; [done|]. cbn.
    intros i s [[<- <-]|[_ Hi]]%lookup_insert_Some; [done|].
    by apply (H2 i).
  - intros (U1 & U2 & U3 & U4). split; [done|]. split; [done|].
    split; [done|]. cbn.
    apply (unique_key_insert_free subcategory_key _ None);
      [by left|done|done].
Qed.

(** A relation that every insert respects holds across [executemany]. *)
Lemma executemany_rel {A} (R : store → store → Prop)
    (insert : store → A → result (store * Z)) rows :
  (∀ s, R s s) → (∀ s1 s2 s3, R s1 s2 → R s2 s3 → R s1 s3) →
  (∀ s a s' i, insert s a = Ok (s', i) → R s s') →
  ∀ st st', executemany insert st rows = Ok st' → R st st'.
Proof.
  intros Hrefl Htrans Hstep.
  induction rows as [|row rows IH]; intros st st'; cbn.
  - intros [= <-]. apply Hrefl.
  - destruct (insert st row) as [[st1 i]|] eqn:E; cbn; [|done].
    intros Hrest. eapply Htrans; [by eapply Hstep|by apply IH].
Qed.

Lemma executemany_extends {A} (insert : store → A → result (store * Z)) rows :
  (∀ s a s' i, insert s a = Ok (s', i) → extends s.1 s'.1) →
  ∀ st st', executemany insert st rows = Ok st' → extends st.1 st'.1.
Proof.
  intros Hstep.
  apply (executemany_rel (λ s s', extends s.1 s'.1)); [|
    |done].
  - intros s. apply extends_refl.
  - intros s1 s2 s3. apply extends_trans.
Qed.

Lemma table_count_zero {A} (m : gmap Z A) :
  (table_count m =? 0) = true ↔ m = ∅.
Proof.
  unfold table_count. rewrite Z.eqb_eq, <-map_size_empty_iff. lia.
Qed.

Lemma table_count_nonzero {A} (m : gmap Z A) :
  (table_count m =? 0) = false ↔ m ≠ ∅.
Proof.
  rewrite <-table_count_zero. by destruct (table_count m =? 0).
Qed.

Lemma subseteq_nonempty {A} (m1 m2 : gmap Z A) : m1 ⊆ m2 → m1 ≠ ∅ → m2 ≠ ∅.
Proof.
  intros Hsub Hne ->. apply Hne. apply map_empty. intros i.
  destruct (m1 !! i) as [a|] eqn:E; [|done].
  by pose proof (lookup_weaken _ _ _ _ E Hsub) as Habs.
Qed.

Lemma executemany_create_status_frame names st st' :
  executemany create_status st names = Ok st' →
  types st'.1 = types st.1 ∧ categories st'.1 = categories st.1
  ∧ subcategories st'.1 = subcategories st.1.
Proof.
  apply (executemany_rel
           (λ s s', types s'.1 = types s.1 ∧ categories s'.1 = categories s.1
                    ∧ subcategories s'.1 = subcategories s.1)).
  - done.
  - intros s1 s2 s3 (? & ? & ?) (? & ? & ?). split_and!; congruence.
  - by intros s a s' i (_ & _ & ->)%create_status_spec.
Qed.

Lemma executemany_create_type_frame names st st' :
  executemany create_type st names = Ok st' →
  statuses st'.1 = statuses st.1 ∧ categories st'.1 = categories st.1
  ∧ subcategories st'.1 = subcategories st.1.
Proof.
  apply (executemany_rel
           (λ s s', statuses s'.1 = statuses s.1
                    ∧ categories s'.1 = categories s.1
                    ∧ subcategories s'.1 = subcategories s.1)).
  - done.
  - intros s1 s2 s3 (? & ? & ?) (? & ? & ?). split_and!; congruence.
  - by intros s a s' i (_ & _ & ->)%create_type_spec.
Qed.

Lemma executemany_create_subcategory_frame category_id names st st' :
  executemany (λ s sub, create_subcategory s sub category_id) st names
  = Ok st' →
  statuses st'.1 = statuses st.1 ∧ types st'.1 = types st.1
  ∧ categories st'.1 = categories st.1.
Proof.
  apply (executemany_rel
           (λ s s', statuses s'.1 = statuses s.1 ∧ types s'.1 = types s.1
                    ∧ categories s'.1 = categories s.1)).
  - done.
  - intros s1 s2 s3 (? & ? & ?) (? & ? & ?). split_and!; congruence.
  - by intros s a s' i (_ & _ & _ & ->)%create_subcategory_spec.
Qed.

(** What one pass of the loop does when the type is found. *)
Lemma seed_categories_step st category_name type_name subcats rest st' :
  seed_categories st ((category_name, type_name, subcats) :: rest) = Ok st' →
  (type_id_by_name st.1 type_name = None ∧ seed_categories st rest = Ok st')
  ∨ ∃ type_id st1 category_id st2,
      type_id_by_name st.1 type_name = Some type_id
      ∧ create_category st category_name type_id = Ok (st1, category_id)
      ∧ executemany (λ s sub, create_subcategory s sub category_id) st1 subcats
        = Ok st2
      ∧ seed_categories st2 rest = Ok st'.
Proof.
  cbn. destruct (type_id_by_name st.1 type_name) as [type_id|]; [|by left].
  destruct (create_category st category_name type_id)
    as [[st1 category_id]|] eqn:Hc; cbn; [|done].
  destruct (executemany _ st1 subcats) as [st2|] eqn:Hs; cbn; [|done].
  intros Hrest. right. by exists type_id, st1, category_id, st2.
Qed.

Lemma seed_categories_extends entries st st' :
  seed_categories st entries = Ok st' →
  extends st.1 st'.1 ∧ statuses st'.1 = statuses st.1
  ∧ types st'.1 = types st.1.
Proof.
  revert st. induction entries as [|[[cn tn] subs] rest IH]; intros st.
  - intros [= <-]. split; [apply extends_refl|done].
  - intros [[_ Hrest]|(tid & st1 & cid & st2 & _ & Hc & Hs & Hrest)]
             %seed_categories_step.
    + by apply IH.
    + destruct (IH _ Hrest) as (E3 & S3 & T3).
      pose proof (create_category_extends _ _ _ _ _ Hc) as E1.
      apply create_category_spec in Hc as (_ & _ & _ & Hst1).
      pose proof (executemany_extends _ subs
                    (λ s a s' i, create_subcategory_extends s a cid s' i)
                    _ _ Hs) as E2.
      apply executemany_create_subcategory_frame in Hs as (S2 & T2 & _).
      split; [by eapply extends_trans; [|eapply extends_trans]|].
      rewrite S3, S2, T3, T2, Hst1. done.
Qed.

(** Seeding may add rows; it changes none, and it leaves a populated
    table alone. *)
Lemma ensure_initial_data_steps st st' :
  ensure_initial_data st = Ok st' →
  ∃ st1 st2,
    (if table_count (statuses st.1) =? 0
     then executemany create_status st DEFAULT_STATUSES else Ok st) = Ok st1
    ∧ (if table_count (types st1.1) =? 0
       then executemany create_type st1 DEFAULT_TYPES else Ok st1) = Ok st2
    ∧ (if table_count (categories st2.1) =? 0
       then seed_categories st2 DEFAULT_CATEGORIES else Ok st2) = Ok st'.
Proof.
  unfold ensure_initial_data.
  destruct (if table_count (statuses st.1) =? 0 then _ else _)
    as [st1|] eqn:H1; cbn; [|done].
  destruct (if table_count (types st1.1) =? 0 then _ else _)
    as [st2|] eqn:H2; cbn; [|done].
  intros H3. by exists st1, st2.
Qed.

Lemma executemany_nonempty_statuses name names st st' :
  executemany create_status st (name :: names) = Ok st' →
  statuses st'.1 ≠ ∅.
Proof.
  cbn. destruct (create_status st name) as [[st1 i]|] eqn:E; cbn; [|done].
  intros Hrest. apply create_status_spec in E as (_ & _ & E).
  pose proof (executemany_extends _ names create_status_extends _ _ Hrest)
    as (Hsub & _).
  apply (subseteq_nonempty _ _ Hsub). rewrite E. cbn.
  apply insert_non_empty.
Qed.

Lemma executemany_nonempty_types name names st st' :
  executemany create_type st (name :: names) = Ok st' →
  types st'.1 ≠ ∅.
Proof.
  cbn. destruct (create_type st name) as [[st1 i]|] eqn:E; cbn; [|done].
  intros Hrest. apply create_type_spec in E as (_ & _ & E).
  pose proof (executemany_extends _ names create_type_extends _ _ Hrest)
    as (_ & Hsub & _).
  apply (subseteq_nonempty _ _ Hsub). rewrite E. cbn.
  apply insert_non_empty.
Qed.

Lemma seed_statuses_after st st1 :
  (if table_count (statuses st.1) =? 0
   then executemany create_status st DEFAULT_STATUSES else Ok st) = Ok st1 →
  extends st.1 st1.1
  ∧ types st1.1 = types st.1 ∧ categories st1.1 = categories st.1
  ∧ subcategories st1.1 = subcategories st.1
  ∧ statuses st1.1 ≠ ∅
  ∧ (statuses st.1 ≠ ∅ → st1 = st).
Proof.
  destruct (table_count (statuses st.1) =? 0) eqn:E.
  - intros Hrun.
    split; [by eapply executemany_extends, Hrun; apply create_status_extends|].
    destruct (executemany_create_status_frame _ _ _ Hrun) as (? & ? & ?).
    do 3 (split; [done|]).
    split; [by eapply executemany_nonempty_statuses|].
    by apply table_count_zero in E.
  - intros [= <-]. split; [apply extends_refl|]. do 3 (split; [done|]).
    split; [by apply table_count_nonzero|done].
Qed.

Lemma seed_types_after st st1 :
  (if table_count (types st.1) =? 0
   then executemany create_type st DEFAULT_TYPES else Ok st) = Ok st1 →
  extends st.1 st1.1
  ∧ statuses st1.1 = statuses st.1 ∧ categories st1.1 = categories st.1
  ∧ subcategories st1.1 = subcategories st.1
  ∧ types st1.1 ≠ ∅
  ∧ (types st.1 ≠ ∅ → st1 = st).
Proof.
  destruct (table_count (types st.1) =? 0) eqn:E.
  - intros Hrun.
    split; [by eapply executemany_extends, Hrun; apply create_type_extends|].
    destruct (executemany_create_type_frame _ _ _ Hrun) as (? & ? & ?).
    do 3 (split; [done|]).
    split; [by eapply executemany_nonempty_types|].
    by apply table_count_zero in E.
  - intros [= <-]. split; [apply extends_refl|]. do 3 (split; [done|]).
    split; [by apply table_count_nonzero|done].
Qed.

(** A pass of the loop that leaves [categories] empty found no type and
    wrote nothing; so it does the same when run again. *)
Lemma seed_categories_none entries st st' :
  seed_categories st entries = Ok st' →
  categories st'.1 = ∅ →
  st' = st ∧ seed_categories st' entries = Ok st'.
Proof.
  revert st. induction entries as [|[[cn tn] subs] rest IH]; intros st.
  - by intros [= <-].
  - intros [[Hnone Hrest]|(tid & st1 & cid & st2 & _ & Hc & Hs & Hrest)]
             %seed_categories_step Hempty.
    + destruct (IH _ Hrest Hempty) as [-> Hagain].
      split; [done|]. cbn. by rewrite Hnone.
    + exfalso.
      apply create_category_spec in Hc as (_ & _ & _ & Hst1).
      apply executemany_create_subcategory_frame in Hs as (_ & _ & C2).
      apply seed_categories_extends in Hrest as ((_ & _ & C3 & _) & _).
      apply (subseteq_nonempty _ _ C3); [|done].
      rewrite C2, Hst1. cbn. apply insert_non_empty.
Qed.

(** X14.  Seeding at start-up changes no stored row.  When
    [ensure_initial_data] returns, every reference row that was stored is
    still there, the entries are the same, the invariants of the data are
    kept, a table that had rows is exactly as it was (with rows in
    [categories], [subcategories] is left alone too), [statuses] and
    [types] have rows, and running it again changes nothing: a restart of
    the server leaves the file as the first start left it. *)
Theorem X14_initial_data_keeps_data st st' :
  ensure_initial_data st = Ok st' →
  extends st.1 st'.1
  ∧ (ledger_consistent st.1 → ledger_consistent st'.1)
  ∧ (statuses st.1 ≠ ∅ → statuses st'.1 = statuses st.1)
  ∧ (types st.1 ≠ ∅ → types st'.1 = types st.1)
  ∧ (categories st.1 ≠ ∅ →
     categories st'.1 = categories st.1
     ∧ subcategories st'.1 = subcategories st.1)
  ∧ statuses st'.1 ≠ ∅
  ∧ types st'.1 ≠ ∅
  ∧ ensure_initial_data st' = Ok st'.
Proof.
  intros (st1 & st2 & H1 & H2 & H3)%ensure_initial_data_steps.
  destruct (seed_statuses_after _ _ H1) as (E1 & T1 & C1 & U1 & N1 & K1).
  destruct (seed_types_after _ _ H2) as (E2 & S2 & C2 & U2 & N2 & K2).
  assert (extends st2.1 st'.1 ∧ statuses st'.1 = statuses st2.1
          ∧ types st'.1 = types st2.1
          ∧ (categories st2.1 ≠ ∅ → st' = st2)) as (E3 & S3 & T3 & K3).
  { destruct (table_count (categories st2.1) =? 0) eqn:E.
    - destruct (seed_categories_extends _ _ _ H3) as (? & ? & ?).
      do 3 (split; [done|]). by apply table_count_zero in E.
    - injection H3 as <-. split; [apply extends_refl|done]. }
  assert (extends st.1 st'.1) as Hext
    by (eapply extends_trans; [|eapply extends_trans]; done).
  split; [done|]. split; [by apply extends_ledger_consistent|].
  split; [intros Hne; by rewrite S3, S2, (K1 Hne)|].
  split.
  { intros Hne. rewrite T3. rewrite <-T1 in Hne. by rewrite (K2 Hne). }
  split.
  { intros Hne. rewrite <-C1, <-C2 in Hne. rewrite (K3 Hne).
    split; congruence. }
  split; [by rewrite S3, S2|]. split; [by rewrite T3|].
  unfold ensure_initial_data.
  rewrite (proj2 (table_count_nonzero (statuses st'.1)))
    by (by rewrite S3, S2).
  cbn [mbind result_bind].
  rewrite (proj2 (table_count_nonzero (types st'.1))) by (by rewrite T3).
  cbn [mbind result_bind].
  destruct (table_count (categories st'.1) =? 0) eqn:E; [|done].
  apply table_count_zero in E.
  assert (categories st2.1 = ∅) as Hempty.
  { destruct E3 as (_ & _ & C3 & _). rewrite E in C3.
    apply map_empty. intros i.
    destruct (categories st2.1 !! i) as [c|] eqn:Hc; [|done].
    by pose proof (lookup_weaken _ _ _ _ Hc C3). }
  rewrite (proj2 (table_count_zero _) Hempty) in H3.
  by destruct (seed_categories_none _ _ _ H3 E) as [_ Hagain].
Qed.

(** The first start: seeding the empty file gives the reference tables
    the model is run on. *)
Example ensure_initial_data_first_start :
  ensure_initial_data empty_store
  = Ok (seed_db, {| statuses_seq := 3; types_seq := 2; categories_seq := 3;
                    subcategories_seq := 6 |}).
Proof. vm_compute. reflexivity. Qed.

Lemma X14_initial_data_keeps_data_witness :
  extends empty_store.1 seed_db
  ∧ ensure_initial_data
      (seed_db, {| statuses_seq := 3; types_seq := 2; categories_seq := 3;
                   subcategories_seq := 6 |})
    = Ok (seed_db, {| statuses_seq := 3; types_seq := 2; categories_seq := 3;
                      subcategories_seq := 6 |}).
Proof.
  destruct (X14_initial_data_keeps_data _ _ ensure_initial_data_first_start)
    as (Hext & _ & _ & _ & _ & _ & _ & Hagain).
  split; [exact Hext|exact Hagain].
Defined.













(** ** Reference lists *)

#[global] Instance by_text_total {A} (key : A → string) : Total (by_text key).
Proof. intros x y. unfold by_text. apply (total String.le). Qed.

#[global] Instance by_text_trans {A} (key : A → string) :
  Transitive (by_text key).
Proof. intros x y z. unfold by_text. apply (transitivity (R := String.le)). Qed.

#[global] Instance by_texts_total {A} (key1 key2 : A → string) :
  Total (by_texts key1 key2).
Proof.
  intros x y. unfold by_texts.
  destruct (decide (String.le (key1 x) (key1 y))) as [H12|H12];
    destruct (decide (String.le (key1 y) (key1 x))) as [H21|H21].
  - destruct (total String.le (key2 x) (key2 y)); [left|right]; auto.
  - left. split; [done|]. by intros ?.
  - right. split; [done|]. by intros ?.
  - by destruct (total String.le (key1 x) (key1 y)).
Qed.

#[global] Instance by_texts_trans {A} (key1 key2 : A → string) :
  Transitive (by_texts key1 key2).
Proof.
  intros x y z [H12 K12] [H23 K23]. split.
  - by etrans.
  - intros H31.
    assert (String.le (key1 y) (key1 x)) by (by etrans).
    assert (String.le (key1 z) (key1 y)) by (by etrans).
    etrans; [by apply K12|by apply K23].
Qed.

Lemma omap_ids_total {A B} (f : Z * A → option B) (id_of : B → Z)
    (l : list (Z * A)) :
  (∀ kv, kv ∈ l → ∃ b, f kv = Some b ∧ id_of b = kv.1) →
  id_of <$> omap f l = l.*1.
Proof.
  induction l as [|kv l IH]; intros Hall; [done|].
  destruct (Hall kv) as (b & Hb & Hid); [left|].
  cbn [omap list_omap]. rewrite Hb. cbn. rewrite Hid. f_equal.
  apply IH. intros kv' Hin. apply Hall. by right.
Qed.

(** X16.  The lists that the forms are built from.  The statuses and the
    types are listed by name, each row once and none left out; the
    categories are listed by the name of their type and then by their
    own, the subcategories by the name of their category and then by
    their own, each item carrying the names and ids of the row and of its
    parent; and when every category has its type and every subcategory
    its category, these two lists leave no row out either. *)
Theorem X16_reference_lists_sorted_complete db :
  let refs := load_reference_lists db in
  StronglySorted (by_text snd) (ref_statuses refs)
  ∧ ref_statuses refs ≡ₚ map_to_list (statuses db)
  ∧ StronglySorted (by_text snd) (ref_types refs)
  ∧ ref_types refs ≡ₚ map_to_list (types db)
  ∧ StronglySorted (by_texts ci_type_name ci_name) (ref_categories refs)
  ∧ StronglySorted (by_texts sc_category_name sc_name)
      (ref_subcategories refs)
  ∧ (∀ item,
       item ∈ ref_categories refs
       ↔ ∃ c, categories db !! ci_id item = Some c
              ∧ ci_name item = cat_name c
              ∧ ci_type_id item = cat_type_id c
              ∧ types db !! cat_type_id c = Some (ci_type_name item))
  ∧ (∀ item,
       item ∈ ref_subcategories refs
       ↔ ∃ s cat, subcategories db !! sc_id item = Some s
                  ∧ sc_name item = sub_name s
                  ∧ sc_category_id item = sub_category_id s
                  ∧ categories db !! sub_category_id s = Some cat
                  ∧ sc_category_name item = cat_name cat
                  ∧ sc_type_id item = cat_type_id cat)
  ∧ (hierarchy_consistent db →
     ci_id <$> ref_categories refs ≡ₚ (map_to_list (categories db)).*1
     ∧ sc_id <$> ref_subcategories refs
       ≡ₚ (map_to_list (subcategories db)).*1).
Proof.
  intros refs. subst refs. unfold load_reference_lists. cbn.
  split; [apply (StronglySorted_merge_sort _)|].
  split; [apply merge_sort_Permutation|].
  split; [apply (StronglySorted_merge_sort _)|].
  split; [apply merge_sort_Permutation|].
  split; [apply (StronglySorted_merge_sort _)|].
  split; [apply (StronglySorted_merge_sort _)|].
  split; [|split].
  - intros item. rewrite merge_sort_Permutation, list_elem_of_omap. split.
    + intros ([k c] & Hin%elem_of_map_to_list & Hitem).
      unfold category_item_of in Hitem. cbn in Hitem.
      destruct (types db !! cat_type_id c) as [ty|] eqn:Hty; [|done].
      injection Hitem as <-. by exists c.
    + intros (c & Hc & Hn & Ht & Hty). exists (ci_id item, c).
      split; [by apply elem_of_map_to_list|].
      unfold category_item_of. cbn. rewrite Hty. cbn.
      destruct item. cbn in *. by subst.
  - intros item. rewrite merge_sort_Permutation, list_elem_of_omap. split.
    + intros ([k s] & Hin%elem_of_map_to_list & Hitem).
      unfold subcategory_item_of in Hitem. cbn in Hitem.
      destruct (categories db !! sub_category_id s) as [cat|] eqn:Hcat;
        [|done].
      injection Hitem as <-. by exists s, cat.
    + intros (s & cat & Hs & Hn & Hc & Hcat & Hcn & Ht).
      exists (sc_id item, s).
      split; [by apply elem_of_map_to_list|].
      unfold subcategory_item_of. cbn. rewrite Hcat. cbn.
      destruct item. cbn in *. by subst.
  - intros [H1 H2]. split; rewrite merge_sort_Permutation.
    + rewrite omap_ids_total; [done|].
      intros [k c] Hin%elem_of_map_to_list.
      destruct (H1 k c Hin) as [ty Hty].
      unfold category_item_of. cbn. rewrite Hty. by eexists.
    + rewrite omap_ids_total; [done|].
      intros [k s] Hin%elem_of_map_to_list.
      destruct (H2 k s Hin) as [cat Hcat].
      unfold subcategory_item_of. cbn. rewrite Hcat. by eexists.
Qed.

(** ** Amounts as text *)

Lemma round_half_even_bound num den :
  0 < den → 2 * Z.abs (den * round_half_even num den - num) ≤ den.
Proof.
  intros Hden. unfold round_half_even.
  pose proof (Z.div_mod num den ltac:(lia)) as Hdm.
  pose proof (Z.mod_pos_bound num den Hden) as Hr.
  destruct (Z.ltb_spec (2 * (num mod den)) den);
    [|destruct (Z.ltb_spec den (2 * (num mod den)));
      [|destruct (Z.even (num / den))]]; nia.
Qed.

Lemma round_half_even_near num den n :
  0 < den → 2 * Z.abs (num - n * den) < den → round_half_even num den = n.
Proof.
  intros Hden Hnear. unfold round_half_even.
  pose proof (Z.div_mod num den ltac:(lia)) as Hdm.
  pose proof (Z.mod_pos_bound num den Hden) as Hr.
  assert (n = num / den ∨ n = num / den + 1) as [-> | ->] by nia.
  - destruct (Z.ltb_spec (2 * (num mod den)) den); [done|nia].
  - destruct (Z.ltb_spec (2 * (num mod den)) den); [nia|].
    destruct (Z.ltb_spec den (2 * (num mod den))); [done|nia].
Qed.

(** Below 100 * 2^46 hundredths the division by 100 and the rounding to
    two places undo each other. *)
Lemma hundredths_true_div_100 cents :
  Z.abs cents < 100 * 2 ^ 46 →
  ∃ x, true_div_100 cents = Ok x
       ∧ f_sign x = (cents <? 0)
       ∧ hundredths x = Z.abs cents.
Proof.
  intros Hbound. unfold true_div_100.
  set (a := Z.abs cents) in *.
  destruct (Z.eqb_spec a 0) as [Ha0|Ha0].
  { eexists. split; [done|]. cbn. split; [|lia].
    symmetry. apply Z.ltb_ge. lia. }
  assert (0 < a) as Hpos by lia.
  destruct (Z.log2_spec a Hpos) as [Hlo Hhi].
  pose proof (Z.log2_nonneg a) as HL.
  assert (Z.log2 a ≤ 52) as HL52.
  { destruct (Z.le_gt_cases (Z.log2 a) 52) as [|Hgt]; [done|].
    assert (2 ^ 53 ≤ 2 ^ Z.log2 a) by (apply Z.pow_le_mono_r; lia).
    change (100 * 2 ^ 46) with 7036874417766400 in Hbound.
    change (2 ^ 53) with 9007199254740992 in *. lia. }
  set (k := Z.log2 a - 6).
  set (below := if 0 <=? k then a <? 100 * 2 ^ k else a * 2 ^ (- k) <? 100).
  set (e := (if below then k - 1 else k) - 52).
  assert (e ≤ -7) as He.
  { subst e. destruct (Z.eq_dec k 46) as [Hk|Hk].
    - assert (below = true) as ->; [|lia].
      subst below. rewrite Hk. change (0 <=? 46) with true. cbv iota.
      by apply Z.ltb_lt.
    - subst k. destruct below; lia. }
  destruct (Z.leb_spec 0 e) as [|_]; [lia|].
  set (P := 2 ^ (- e)).
  assert (128 ≤ P) as HP.
  { subst P. change 128 with (2 ^ 7). apply Z.pow_le_mono_r; lia. }
  set (m := round_half_even (a * P) 100).
  pose proof (round_half_even_bound (a * P) 100 ltac:(lia)) as Hm.
  fold m in Hm.
  rewrite (Z.pow_neg_r 2 e) by lia. rewrite Z.mul_0_r.
  change (2 ^ 1024 <=? 0) with false. cbv iota.
  eexists. split; [done|]. split; [done|].
  unfold hundredths. cbn [f_exp f_mant].
  destruct (Z.leb_spec 0 e) as [|_]; [lia|]. fold P.
  apply round_half_even_near; lia.
Qed.

Lemma string_app_cons c (s t : string) :
  String.app (String c s) t = String c (String.app s t).
Proof. reflexivity. Qed.

Lemma string_app_nil_l (t : string) : String.app EmptyString t = t.
Proof. reflexivity. Qed.

Ltac app_step := rewrite ?string_app_cons, ?string_app_nil_l; cbn.

Lemma string_app_assoc (s t u : string) :
  String.app (String.app s t) u = String.app s (String.app t u).
Proof. induction s as [|c s IH]; app_step; [done|]. by rewrite IH. Qed.

Lemma string_app_nil_r (s : string) : String.app s EmptyString = s.
Proof. induction s as [|c s IH]; app_step; [done|]. by rewrite IH. Qed.

Lemma rev_app_rev_app (s t u : string) :
  String.rev_app (String.rev_app s t) u = String.rev_app t (String.app s u).
Proof.
  revert t. induction s as [|c s IH]; intros t; app_step; [done|].
  by rewrite IH.
Qed.

Lemma string_rev_involutive (s : string) : String.rev (String.rev s) = s.
Proof.
  unfold String.rev. rewrite rev_app_rev_app. cbn. apply string_app_nil_r.
Qed.

Lemma rev_app_app (p q t : string) :
  String.rev_app (String.app p q) t = String.rev_app q (String.rev_app p t).
Proof.
  revert t. induction p as [|c p IH]; intros t; app_step; [done|].
  by rewrite IH.
Qed.

(** [strip] leaves alone a string that neither starts nor ends with white
    space. *)
Lemma strip_trimmed (s : string) c0 s0 c1 s1 :
  s = String c0 s0 → pystr.is_space c0 = false →
  String.rev s = String c1 s1 → pystr.is_space c1 = false →
  pystr.strip s = s.
Proof.
  intros Hs Hc0 Hrev Hc1. unfold pystr.strip, pystr.rstrip.
  assert (pystr.lstrip s = s) as -> by (rewrite Hs; cbn; by rewrite Hc0).
  rewrite Hrev. cbn. rewrite Hc1, <-Hrev. apply string_rev_involutive.
Qed.

Lemma remove_char_app ch (s t : string) :
  pystr.remove_char ch (String.app s t)
  = String.app (pystr.remove_char ch s) (pystr.remove_char ch t).
Proof.
  induction s as [|c s IH]; app_step; [done|].
  destruct (Ascii.eqb c ch); app_step; by rewrite IH.
Qed.

Lemma replace_char_app old new (s t : string) :
  pystr.replace_char old new (String.app s t)
  = String.app (pystr.replace_char old new s) (pystr.replace_char old new t).
Proof. induction s as [|c s IH]; app_step; [done|]. by rewrite IH. Qed.

Lemma remove_char_absent ch (s : string) :
  string_forall (λ c, negb (Ascii.eqb c ch)) s = true →
  pystr.remove_char ch s = s.
Proof.
  induction s as [|c s IH]; cbn; [done|].
  intros [Hc Hs]%andb_true_iff. apply negb_true_iff in Hc.
  rewrite Hc. by rewrite IH.
Qed.

Lemma replace_char_absent old new (s : string) :
  string_forall (λ c, negb (Ascii.eqb c old)) s = true →
  pystr.replace_char old new s = s.
Proof.
  induction s as [|c s IH]; cbn; [done|].
  intros [Hc Hs]%andb_true_iff. apply negb_true_iff in Hc.
  rewrite Hc. by rewrite IH.
Qed.

Lemma string_forall_app p (s t : string) :
  string_forall p (String.app s t) = string_forall p s && string_forall p t.
Proof.
  induction s as [|c s IH]; app_step; [done|]. by rewrite IH, andb_assoc.
Qed.

Lemma string_forall_impl (p q : ascii → bool) (s : string) :
  (∀ c, p c = true → q c = true) →
  string_forall p s = true → string_forall q s = true.
Proof.
  intros Hpq. induction s as [|c s IH]; cbn; [done|].
  intros [Hc Hs]%andb_true_iff. by rewrite (Hpq c Hc), IH.
Qed.

(** The ten digits, and what the parsers see in them. *)
Lemma is_digit_cases c :
  pystr.is_digit c = true →
  c ∈ ["0"; "1"; "2"; "3"; "4"; "5"; "6"; "7"; "8"; "9"]%char.
Proof.
  destruct c as [[] [] [] [] [] [] [] []]; cbn; try done; intros _;
    repeat (first [by left | right]).
Qed.

Lemma digit_char_is_digit d :
  0 ≤ d < 10 →
  pystr.is_digit (digit_char d) = true ∧ pystr.digit_value (digit_char d) = d.
Proof.
  intros Hd.
  assert (d = 0 ∨ d = 1 ∨ d = 2 ∨ d = 3 ∨ d = 4 ∨ d = 5 ∨ d = 6 ∨ d = 7
          ∨ d = 8 ∨ d = 9) as Hcases by lia.
  repeat (destruct Hcases as [->|Hcases]; [done|]). by subst.
Qed.

Lemma digit_plain c :
  pystr.is_digit c = true →
  pystr.is_space c = false
  ∧ Ascii.eqb c " " = false ∧ Ascii.eqb c "," = false
  ∧ Ascii.eqb c "_" = false ∧ Ascii.eqb c "." = false
  ∧ Ascii.eqb c "-" = false ∧ Ascii.eqb c "+" = false.
Proof.
  intros Hc%is_digit_cases.
  repeat (apply elem_of_cons in Hc as [->|Hc]; [done|]).
  by apply elem_of_nil in Hc.
Qed.

Lemma digits_fuel_app f n (acc : string) :
  digits_fuel f n acc = String.app (digits_fuel f n EmptyString) acc.
Proof.
  revert n acc. induction f as [|f IH]; intros n acc; cbn; [done|].
  destruct (n <? 10); [done|].
  rewrite IH, (IH _ (String _ EmptyString)), string_app_assoc. done.
Qed.

Lemma digits_fuel_cons f n (acc : string) :
  ∃ c r, digits_fuel f n acc = String c r.
Proof.
  revert n acc. induction f as [|f IH]; intros n acc; cbn; [by eexists _, _|].
  destruct (n <? 10); [by eexists _, _|]. apply IH.
Qed.

Lemma digits_fuel_digits f n (acc : string) :
  0 ≤ n → string_forall pystr.is_digit acc = true →
  string_forall pystr.is_digit (digits_fuel f n acc) = true.
Proof.
  revert n acc. induction f as [|f IH]; intros n acc Hn Hacc; cbn.
  - rewrite Hacc, andb_true_r.
    apply digit_char_is_digit, Z.mod_pos_bound. lia.
  - destruct (Z.ltb_spec n 10).
    + cbn. rewrite Hacc, andb_true_r. by apply digit_char_is_digit.
    + apply IH; [apply Z.div_pos; lia|]. cbn. rewrite Hacc, andb_true_r.
      apply digit_char_is_digit, Z.mod_pos_bound. lia.
Qed.

Lemma digits_fuel_value f n (acc : string) :
  0 ≤ n → n < 2 ^ (Z.of_nat f + 1) →
  ∃ p, ∀ a0,
    pystr.int_of_digits_from a0 (digits_fuel f n acc)
    = pystr.int_of_digits_from (a0 * p + n) acc.
Proof.
  revert n acc. induction f as [|f IH]; intros n acc Hn Hf.
  - exists 10. intros a0. cbn in *.
    rewrite Z.mod_small by lia.
    rewrite (proj2 (digit_char_is_digit n ltac:(lia))). f_equal. lia.
  - cbn [digits_fuel]. destruct (Z.ltb_spec n 10) as [Hlt|Hge].
    + exists 10. intros a0. cbn.
      rewrite (proj2 (digit_char_is_digit n ltac:(lia))). f_equal. lia.
    + destruct (IH (n / 10) (String (digit_char (n mod 10)) acc))
        as [p Hp].
      * apply Z.div_pos; lia.
      * apply Z.div_lt_upper_bound; [lia|].
        replace (Z.of_nat (S f) + 1) with (Z.succ (Z.of_nat f + 1)) in Hf
          by lia.
        rewrite Z.pow_succ_r in Hf by lia. lia.
      * exists (10 * p). intros a0. rewrite Hp. cbn.
        pose proof (Z.mod_pos_bound n 10 ltac:(lia)).
        rewrite (proj2 (digit_char_is_digit (n mod 10) ltac:(lia))).
        f_equal. pose proof (Z.div_mod n 10 ltac:(lia)). lia.
Qed.

Lemma str_nat_digits n :
  0 ≤ n →
  string_forall pystr.is_digit (str_nat n) = true
  ∧ (∃ c r, str_nat n = String c r ∧ pystr.is_digit c = true)
  ∧ ∀ rest,
      pystr.int_of_digits_from 0 (String.app (str_nat n) rest)
      = pystr.int_of_digits_from n rest.
Proof.
  intros Hn. unfold str_nat.
  pose proof (digits_fuel_digits (Z.to_nat (Z.log2 n)) n EmptyString Hn
                eq_refl) as Hall.
  split; [done|]. split.
  - destruct (digits_fuel_cons (Z.to_nat (Z.log2 n)) n EmptyString)
      as (c & r & E).
    exists c, r. split; [done|]. rewrite E in Hall. cbn in Hall.
    by apply andb_true_iff in Hall as [Hc _].
  - intros rest. rewrite <-digits_fuel_app.
    destruct (digits_fuel_value (Z.to_nat (Z.log2 n)) n rest Hn) as [p Hp].
    + rewrite Z2Nat.id by apply Z.log2_nonneg.
      destruct (Z.eq_dec n 0) as [->|]; [done|].
      by apply Z.log2_spec; lia.
    + rewrite Hp. f_equal.
Qed.

Lemma span_digits_all (s : string) :
  string_forall pystr.is_digit s = true →
  pystr.span_digits s = (s, EmptyString).
Proof.
  induction s as [|c s IH]; cbn; [done|].
  intros [Hc Hs]%andb_true_iff. by rewrite Hc, IH.
Qed.

Lemma span_digits_app_stop (s : string) c r :
  string_forall pystr.is_digit s = true → pystr.is_digit c = false →
  pystr.span_digits (String.app s (String c r)) = (s, String c r).
Proof.
  intros Hs Hc. induction s as [|d s IH]; app_step.
  - by rewrite Hc.
  - cbn in Hs. apply andb_true_iff in Hs as [Hd Hs]. by rewrite Hd, IH.
Qed.

Lemma group_thousands_removed (s : string) :
  string_forall pystr.is_digit s = true →
  pystr.remove_char " " (pystr.replace_char "," " " (group_thousands s)) = s.
Proof.
  induction s as [|c s IH]; cbn [group_thousands string_forall]; [done|].
  intros [Hc Hs]%andb_true_iff.
  destruct (digit_plain c Hc) as (_ & Hsp & Hcomma & _).
  cbn [pystr.replace_char]. rewrite Hcomma.
  cbn [pystr.remove_char]. rewrite Hsp.
  destruct (_ && _); cbn; by rewrite IH.
Qed.

Lemma group_thousands_cons c (s : string) :
  ∃ r, group_thousands (String c s) = String c r.
Proof. cbn. by eexists. Qed.

(** The characters of a formatted amount. *)
Lemma amount_char_plain c :
  pystr.is_digit c || Ascii.eqb c "." || Ascii.eqb c "-" = true →
  pystr.is_space c = false
  ∧ Ascii.eqb c " " = false ∧ Ascii.eqb c "," = false
  ∧ Ascii.eqb c "_" = false.
Proof.
  intros [[Hd|Hdot]%orb_true_iff|Hminus]%orb_true_iff.
  - destruct (digit_plain c Hd) as (? & ? & ? & ? & _). done.
  - apply Ascii.eqb_eq in Hdot as ->. done.
  - apply Ascii.eqb_eq in Hminus as ->. done.
Qed.

(** The text [sign digits . dd] is read by [Decimal] as the number of
    hundredths it shows, and [parse_amount] hands it to [Decimal] as it
    is. *)
Lemma amount_digits_parse (b : bool) N :
  0 ≤ N < 10 ^ 28 →
  let shown :=
    String.app (if b then "-" else EmptyString)
      (String.app (str_nat (N / 100))
         (String "."
            (String (digit_char (N mod 100 / 10))
               (String (digit_char (N mod 10)) EmptyString)))) in
  amount_text shown = shown
  ∧ pystr.replace_char "," "." shown = shown
  ∧ decimal.of_string shown = Ok (decimal.Finite b N (-2)).
Proof.
  intros [HN0 HN28]. intros shown.
  assert (0 ≤ N / 100) as Hq by (apply Z.div_pos; lia).
  destruct (str_nat_digits (N / 100) Hq)
    as (Hall & (c & r & Hip & Hc) & Hvalue).
  pose proof (Z.mod_pos_bound N 100 ltac:(lia)) as Hr.
  assert (0 ≤ N mod 100 / 10 < 10) as Hd1.
  { split; [apply Z.div_pos; lia|apply Z.div_lt_upper_bound; lia]. }
  pose proof (Z.mod_pos_bound N 10 ltac:(lia)) as Hd2.
  destruct (digit_char_is_digit _ Hd1) as [D1 V1].
  destruct (digit_char_is_digit _ Hd2) as [D2 V2].
  set (d1 := digit_char (N mod 100 / 10)) in *.
  set (d2 := digit_char (N mod 10)) in *.
  set (ip := str_nat (N / 100)) in *.
  set (tail := String "." (String d1 (String d2 EmptyString))).
  set (body := String.app ip tail).
  assert (string_forall
            (λ c, pystr.is_digit c || Ascii.eqb c "." || Ascii.eqb c "-")
            shown = true) as Hchars.
  { subst shown. rewrite !string_forall_app.
    apply andb_true_iff. split; [by destruct b|].
    apply andb_true_iff. split.
    - eapply string_forall_impl; [|exact Hall].
      intros ch ->. done.
    - subst tail. cbn. by rewrite D1, D2. }
  assert (∃ c0 s0, shown = String c0 s0 ∧ pystr.is_space c0 = false)
    as (c0 & s0 & Hhead & Hc0).
  { subst shown. destruct b.
    - by eexists _, _.
    - rewrite string_app_nil_l. fold ip. rewrite Hip, string_app_cons.
      eexists _, _. split; [done|]. by destruct (digit_plain c Hc). }
  assert (∃ s1, String.rev shown = String d2 s1) as [s1 Hrev].
  { subst shown. unfold String.rev. rewrite !rev_app_app.
    by eexists. }
  assert (pystr.strip shown = shown) as Hstrip.
  { eapply strip_trimmed; [done|done|done|].
    by destruct (digit_plain d2 D2). }
  assert (∀ ch new, ch = " "%char ∨ ch = ","%char ∨ ch = "_"%char →
            pystr.remove_char ch shown = shown
            ∧ pystr.replace_char ch new shown = shown) as Habsent.
  { intros ch new Hch.
    assert (string_forall (λ c, negb (Ascii.eqb c ch)) shown = true) as Hno.
    { eapply string_forall_impl; [|exact Hchars].
      intros x Hx. destruct (amount_char_plain x Hx) as (_ & ? & ? & ?).
      apply negb_true_iff. by destruct Hch as [->|[->| ->]]. }
    split; [by apply remove_char_absent|by apply replace_char_absent]. }
  assert (amount_text shown = shown) as Htext.
  { unfold amount_text. rewrite Hstrip.
    rewrite (proj1 (Habsent " "%char " "%char ltac:(auto))).
    by rewrite (proj2 (Habsent ","%char "."%char ltac:(auto))). }
  split; [done|].
  split; [apply (Habsent ","%char "."%char); auto|].
  unfold decimal.of_string. rewrite Hstrip.
  rewrite (proj1 (Habsent "_"%char " "%char ltac:(auto))).
  assert (pystr.take_sign shown = (b, body)) as ->.
  { subst shown. fold ip tail body. destruct b; [done|].
    rewrite string_app_nil_l. subst body. rewrite Hip, string_app_cons.
    apply is_digit_cases in Hc.
    repeat (apply elem_of_cons in Hc as [->|Hc]; [done|]).
    by apply elem_of_nil in Hc. }
  assert (decimal.parse_special b body = None) as ->.
  { subst body. rewrite Hip, string_app_cons.
    apply is_digit_cases in Hc.
    repeat (apply elem_of_cons in Hc as [->|Hc]; [done|]).
    by apply elem_of_nil in Hc. }
  assert (decimal.parse_number body = Some (N, -2)) as ->.
  { unfold decimal.parse_number. subst body tail.
    rewrite span_digits_app_stop by done.
    rewrite span_digits_all by (cbn; by rewrite D1, D2).
    rewrite Hip at 1. cbn [pystr.is_empty andb].
    unfold pystr.int_of_digits. rewrite Hvalue. cbn.
    rewrite V1, V2. f_equal. f_equal.
    pose proof (Z.div_mod N 100 ltac:(lia)).
    pose proof (Z.div_mod (N mod 100) 10 ltac:(lia)).
    pose proof (Z.mod_pos_bound (N mod 100) 10 ltac:(lia)).
    assert ((N mod 100) mod 10 = N mod 10) as <-; [|lia].
    apply (Z.mod_unique N 10 (10 * (N / 100) + N mod 100 / 10)); lia. }
  assert (decimal.representable N (-2) = true) as ->; [|done].
  unfold decimal.representable.
  destruct (Z.eqb_spec N 0) as [->|HN]; [done|].
  change (decimal.MIN_ETINY <=? -2) with true. cbn [andb].
  apply Z.leb_le. unfold decimal.adjusted, decimal.MAX_EMAX.
  assert (decimal.ndigits N ≤ 28) by (apply ndigits_le_of_lt; lia).
  lia.
Qed.

Lemma parse_amount_digits (b : bool) N value :
  0 ≤ N < 10 ^ 28 →
  decimal.of_string (amount_text value) = Ok (decimal.Finite b N (-2)) →
  parse_amount value = Ok (Some (if b then - N else N)).
Proof.
  intros [HN0 HN28] Hdec. rewrite parse_amount_by_decimal, Hdec.
  assert (round_half_up_x100 N (-2) = N) as ->.
  { unfold round_half_up_x100. change (0 <=? -2 + 2) with true. cbv iota.
    change (-2 + 2) with 0. rewrite Z.pow_0_r. lia. }
  by rewrite (proj2 (Z.ltb_lt N (10 ^ 28)) HN28).
Qed.

(** X17.  The amounts the pages show are read back as they are stored.
    For an amount below 100 * 2^46 hundredths in magnitude, neither the
    text on the index page ([format_amount], with its spaces between the
    thousands) nor the text put in the edit form raises, and
    [parse_amount] reads both back as the stored number: saving an edit
    form whose amount was not touched keeps the amount. *)
Theorem X17_amount_text_round_trip cents :
  Z.abs cents < 100 * 2 ^ 46 →
  ∃ shown edited,
    format_amount cents = Ok shown
    ∧ edit_form_amount cents = Ok edited
    ∧ parse_amount shown = Ok (Some cents)
    ∧ parse_amount edited = Ok (Some cents).
Proof.
  intros Hbound.
  destruct (hundredths_true_div_100 cents Hbound) as (x & Hx & Hsign & Hn).
  unfold format_amount, edit_form_amount. rewrite Hx. cbn [mbind result_bind].
  eexists _, _. split; [done|]. split; [done|].
  assert (0 ≤ Z.abs cents < 10 ^ 28) as HN.
  { split; [lia|]. change (100 * 2 ^ 46) with 7036874417766400 in Hbound.
    change (10 ^ 28) with 10000000000000000000000000000. lia. }
  assert ((if f_sign x then - Z.abs cents else Z.abs cents) = cents) as Hval.
  { rewrite Hsign. destruct (Z.ltb_spec cents 0); lia. }
  destruct (amount_digits_parse (f_sign x) (Z.abs cents) HN)
    as (Htext & Hcomma & Hdec).
  unfold format_2f. rewrite Hn.
  set (sgn := if f_sign x then "-" else EmptyString) in *.
  set (ip := str_nat (Z.abs cents / 100)) in *.
  set (d1 := digit_char (Z.abs cents mod 100 / 10)) in *.
  set (d2 := digit_char (Z.abs cents mod 10)) in *.
  set (tail := String "." (String d1 (String d2 EmptyString))) in *.
  assert (∀ value,
            decimal.of_string (amount_text value)
            = Ok (decimal.Finite (f_sign x) (Z.abs cents) (-2)) →
            parse_amount value = Ok (Some cents)) as Hparse.
  { intros value Hvalue.
    rewrite (parse_amount_digits _ _ _ HN Hvalue). by rewrite Hval. }
  split; [|apply Hparse; by rewrite Htext].
  apply Hparse.
  assert (0 ≤ Z.abs cents / 100) as Hq by (apply Z.div_pos; lia).
  destruct (str_nat_digits _ Hq) as (Hall & (c & r & Hip & Hc) & _).
  fold ip in Hall, Hip.
  assert (0 ≤ Z.abs cents mod 100 / 10 < 10) as Hd1.
  { pose proof (Z.mod_pos_bound (Z.abs cents) 100 ltac:(lia)).
    split; [apply Z.div_pos; lia|apply Z.div_lt_upper_bound; lia]. }
  pose proof (Z.mod_pos_bound (Z.abs cents) 10 ltac:(lia)) as Hd2.
  destruct (digit_char_is_digit _ Hd1) as [D1 _].
  destruct (digit_char_is_digit _ Hd2) as [D2 _].
  fold d1 in D1. fold d2 in D2.
  destruct (digit_plain d1 D1) as (_ & S1 & C1 & _).
  destruct (digit_plain d2 D2) as (Hsp2 & S2 & C2 & _).
  destruct (digit_plain c Hc) as (Hspc & _ & Cc & _).
  set (shown := pystr.replace_char "," " "
                  (String.app sgn (String.app (group_thousands ip) tail))).
  assert (pystr.remove_char " " shown
          = String.app sgn (String.app ip tail)) as Hremoved.
  { subst shown. rewrite !replace_char_app, !remove_char_app.
    rewrite group_thousands_removed by done.
    f_equal; [by subst sgn; destruct (f_sign x)|]. f_equal.
    subst tail. cbn. by rewrite C1, C2, S1, S2. }
  assert (pystr.strip shown = shown) as Hstrip.
  { assert (∃ c0 s0, shown = String c0 s0 ∧ pystr.is_space c0 = false)
      as (c0 & s0 & Hhead & Hc0).
    { subst shown sgn. destruct (f_sign x).
      - by eexists _, _.
      - rewrite string_app_nil_l, Hip.
        destruct (group_thousands_cons c r) as [g ->].
        rewrite string_app_cons. cbn. rewrite Cc. by eexists _, _. }
    assert (∃ s1, String.rev shown = String d2 s1) as [s1 Hrev].
    { subst shown. rewrite rev_replace_char. unfold String.rev.
      rewrite !rev_app_app. subst tail. cbn. rewrite C2. by eexists. }
    by eapply strip_trimmed. }
  unfold amount_text. rewrite Hstrip, Hremoved, Hcomma. exact Hdec.
Qed.

Lemma X17_amount_text_round_trip_witness :
  ∃ shown edited,
    format_amount (-123456789) = Ok shown
    ∧ edit_form_amount (-123456789) = Ok edited
    ∧ parse_amount shown = Ok (Some (-123456789))
    ∧ parse_amount edited = Ok (Some (-123456789)).
Proof. apply (X17_amount_text_round_trip (-123456789)). by vm_compute. Defined.

(** From 100 * 2^46 hundredths on, the text can differ from the stored
    amount. *)
Example format_amount_large :
  format_amount 7037093307007240 = Ok "70 370 933 070 072.41"
  ∧ (edited ← edit_form_amount 7037093307007240; parse_amount edited)
    = Ok (Some 7037093307007241).
Proof. by vm_compute. Qed.

(** ** The invariant of the file *)

Lemma parse_amount_bound value cents :
  parse_amount value = Ok (Some cents) → - 10 ^ 28 < cents < 10 ^ 28.
Proof.
  rewrite parse_amount_by_decimal.
  destruct (decimal.of_string (amount_text value)) as [[s c e| |]|] eqn:Hd;
    try done.
  pose proof (of_string_finite_nonneg _ _ _ _ Hd) as Hc.
  pose proof (round_half_up_x100_nonneg c e Hc) as Hn.
  destruct (Z.ltb_spec (round_half_up_x100 c e) (10 ^ 28)); [|done].
  intros [= <-]. destruct s; lia.
Qed.

Lemma validated_row_sound db form data row :
  validate_entry_form db form = Ok (data, []) →
  repo.row_of_payload data = Ok row →
  entry_consistent db row ∧ entry_normalized row.
Proof.
  intros Hv Hrow.
  destruct (validated_row db form data Hv)
    as (row' & Hrow' & Hc & _ & _ & Hdate & Hamount & Hnz & Hcomment & _).
  assert (row' = row) as -> by congruence.
  split; [done|]. split; [done|]. split; [done|].
  split; [by eapply parse_amount_bound|]. rewrite Hcomment. by eexists.
Qed.

Lemma well_formed_extends db db' :
  extends db db' → well_formed db → well_formed db'.
Proof.
  intros Hext (Hl & Hn & Hh & Hu & Hi).
  pose proof (extends_ledger_consistent _ _ Hext Hl) as Hl'.
  destruct Hext as (_ & _ & _ & _ & Hcf & Hseq & Hh' & Hu').
  split; [done|]. split; [intros id row; rewrite Hcf; apply Hn|].
  split; [by apply Hh'|]. split; [by apply Hu'|].
  intros id. unfold ids_within_seq in Hi. rewrite Hcf, Hseq. apply Hi.
Qed.

Lemma well_formed_entry_insert db id row seq' :
  well_formed db → entry_consistent db row → entry_normalized row →
  id ≤ seq' → cashflows_seq db ≤ seq' →
  well_formed (with_cashflows (<[id := row]> (cashflows db)) seq' db).
Proof.
  intros (Hl & Hn & Hh & Hu & Hi) Hc Hrow Hid Hseq.
  split; [by apply ledger_consistent_insert|].
  split; [|split; [done|split; [done|]]].
  - intros k r. cbn. rewrite lookup_insert.
    case_decide; [intros [= <-]; done|]. apply Hn.
  - intros k. cbn. rewrite lookup_insert.
    case_decide; [intros _; lia|]. intros Hk. specialize (Hi k Hk). lia.
Qed.

Lemma well_formed_entry_delete db entry_id :
  well_formed db → well_formed (repo.delete_cashflow db entry_id).
Proof.
  intros (Hl & Hn & Hh & Hu & Hi).
  split; [|split; [|split; [done|split; [done|]]]].
  - intros k r. cbn. intros [_ Hk]%lookup_delete_Some. by apply (Hl k).
  - intros k r. cbn. intros [_ Hk]%lookup_delete_Some. by apply (Hn k).
  - intros k. cbn. intros [r [_ Hk]%lookup_delete_Some]. apply Hi. by eexists.
Qed.

Lemma serve_entry_new form db :
  well_formed db → well_formed (application (view_create_entry form) db).1.
Proof.
  intros Hwf.
  destruct (view_create_entry_after form db)
    as [->|(data & row & id & Hv & Hrow & Hid & ->)]; [done|].
  destruct (validated_row_sound _ _ _ _ Hv Hrow) as [Hc Hn].
  apply well_formed_entry_insert; [done|done|done|lia|lia].
Qed.

Lemma serve_entry_edit entry_id form db :
  well_formed db →
  well_formed (application (view_update_entry entry_id form) db).1.
Proof.
  intros Hwf.
  destruct (view_update_entry_after entry_id form db)
    as [->|(data & row & Hk & Hv & Hrow & ->)]; [done|].
  destruct (validated_row_sound _ _ _ _ Hv Hrow) as [Hc Hn].
  apply well_formed_entry_insert; [done|done|done| |lia].
  destruct Hwf as (_ & _ & _ & _ & Hi). by apply Hi.
Qed.

Lemma serve_entry_delete entry_id db :
  well_formed db → well_formed (application (view_delete_entry entry_id) db).1.
Proof.
  intros Hwf.
  destruct (view_delete_entry_after entry_id db) as [->| ->]; [done|].
  by apply well_formed_entry_delete.
Qed.

Lemma unique_key_delete {A K} (key : A → K) (m : gmap Z A) i :
  unique_key key m → unique_key key (delete i m).
Proof.
  intros Hu j1 j2 a b [_ H1]%lookup_delete_Some [_ H2]%lookup_delete_Some.
  by apply (Hu j1 j2 a b).
Qed.

Lemma serve_reference_new entity form st :
  ∃ st' resp,
    handle_reference_creation entity form st = Ok (st', resp)
    ∧ (well_formed st.1 → well_formed st'.1).
Proof.
  destruct (handle_reference_creation_after entity form st)
    as (st' & level & msg & Heq & Hafter).
  exists st', (render_reference_page [(level, msg)]). split; [done|].
  apply well_formed_extends.
  destruct Hafter
    as [E | [(k & n & Hk & Hfree & E) | [(k & n & Hk & Hfree & E)
       | [(k & n & p & Hk & Hp & Hfree & E)
         | (k & n & p & Hk & Hp & Hfree & E)]]]]; rewrite E.
  - apply extends_refl.
  - split; [by apply insert_subseteq|]. do 6 (split; [done|]).
    intros (U1 & U2 & U3 & U4). split; [|done]. cbn.
    apply (unique_key_insert_free id _ None); [by left|done|done].
  - split; [done|]. split; [by apply insert_subseteq|].
    do 4 (split; [done|]). split.
    + intros [H1 H2]. split; [|done]. cbn. intros i c Hi.
      destruct (H1 i c Hi) as [t Ht]. exists t.
      by apply lookup_insert_Some; right; split; [congruence|].
    + intros (U1 & U2 & U3 & U4). split; [done|]. split; [|done]. cbn.
      apply (unique_key_insert_free id _ None); [by left|done|done].
  - do 2 (split; [done|]). split; [by apply insert_subseteq|].
    do 3 (split; [done|]). split.
    + intros [H1 H2]. split; cbn.
      * intros i c [[<- <-]|[_ Hi]]%lookup_insert_Some; [done|].
        by apply (H1 i).
      * intros i s Hi. destruct (H2 i s Hi) as [c Hc]. exists c.
        by apply lookup_insert_Some; right; split; [congruence|].
    + intros (U1 & U2 & U3 & U4). split; [done|]. split; [done|].
      split; [|done]. cbn.
      apply (unique_key_insert_free category_key _ None); [by left|done|done].
  - do 3 (split; [done|]). split; [by apply insert_subseteq|].
    do 2 (split; [done|]). split.
    + intros [H1 H2]. split; [done|]. cbn.
      intros i s [[<- <-]|[_ Hi]]%lookup_insert_Some; [done|].
      by apply (H2 i).
    + intros (U1 & U2 & U3 & U4). split; [done|]. split; [done|].
      split; [done|]. cbn.
      apply (unique_key_insert_free subcategory_key _ None);
        [by left|done|done].
Qed.

Lemma serve_reference_edit entity entity_id form db :
  well_formed db →
  well_formed
    (application (handle_reference_update entity entity_id form) db).1.
Proof.
  intros (Hl & Hn & [Hh1 Hh2] & (U1 & U2 & U3 & U4) & Hi).
  destruct (handle_reference_update_after entity entity_id form db)
    as (db' & resp & Heq & _ & Hafter).
  unfold application. rewrite Heq. cbn [fst].
  destruct Hafter
    as [-> | [(name & Hold & Hfree & ->) | [(name & Hold & Hfree & ->)
       | [(name & tid & cat & Hold & Hparent & Hsame & Hfree & ->)
         | (name & cid & sub & Hold & Hparent & Hsame & Hfree & ->)]]]].
  - done.
  - split; [|split; [done|split; [done|split; [|done]]]].
    + intros k r Hk. destruct (Hl k r Hk) as (Hs & Ht & Hc & Hu).
      split; [|done]. cbn. by apply is_Some_insert_existing.
    + split; [|done]. cbn.
      apply (unique_key_insert_free id _ (Some entity_id));
        [by right|done|done].
  - split; [|split; [done|split; [|split; [|done]]]].
    + intros k r Hk. destruct (Hl k r Hk) as (Hs & Ht & Hc & Hu).
      split; [done|]. split; [|done]. cbn. by apply is_Some_insert_existing.
    + split; [|done]. cbn. intros k c Hk.
      apply is_Some_insert_existing; [done|]. by apply (Hh1 k).
    + split; [done|]. split; [|done]. cbn.
      apply (unique_key_insert_free id _ (Some entity_id));
        [by right|done|done].
  - split; [|split; [done|split; [|split; [|done]]]].
    + intros k r Hk.
      destruct (Hl k r Hk) as (Hs & Ht & (c & Hc & Hct) & Hu).
      split; [done|]. split; [done|]. split; [|done]. cbn.
      destruct (decide (cf_category_id r = entity_id)) as [Heq'|Hne].
      * rewrite Heq', lookup_insert_eq. eexists. split; [done|]. cbn.
        destruct Hsame as [-> | Hnone]; [congruence|].
        by destruct (count_where_zero_ne _ cf_category_id _ _ _ Hnone Hk).
      * rewrite lookup_insert_ne by done. by exists c.
    + split; cbn.
      * intros k c [[<- <-]|[_ Hk]]%lookup_insert_Some; [done|].
        by apply (Hh1 k).
      * intros k s Hk. apply is_Some_insert_existing; [by eexists|].
        by apply (Hh2 k).
    + split; [done|]. split; [done|]. split; [|done]. cbn.
      apply (unique_key_insert_free category_key _ (Some entity_id));
        [by right|done|done].
  - split; [|split; [done|split; [|split; [|done]]]].
    + intros k r Hk.
      destruct (Hl k r Hk) as (Hs & Ht & Hc & (u & Hu & Huc)).
      split; [done|]. split; [done|]. split; [done|]. cbn.
      destruct (decide (cf_subcategory_id r = entity_id)) as [Heq'|Hne].
      * rewrite Heq', lookup_insert_eq. eexists. split; [done|]. cbn.
        destruct Hsame as [-> | Hnone]; [congruence|].
        by destruct (count_where_zero_ne _ cf_subcategory_id _ _ _ Hnone Hk).
      * rewrite lookup_insert_ne by done. by exists u.
    + split; [done|]. cbn.
      intros k s [[<- <-]|[_ Hk]]%lookup_insert_Some; [done|].
      by apply (Hh2 k).
    + split; [done|]. split; [done|]. split; [done|]. cbn.
      apply (unique_key_insert_free subcategory_key _ (Some entity_id));
        [by right|done|done].
Qed.

Lemma serve_reference_delete entity entity_id db :
  well_formed db →
  well_formed (application (handle_reference_delete entity entity_id) db).1.
Proof.
  intros (Hl & Hn & [Hh1 Hh2] & (U1 & U2 & U3 & U4) & Hi).
  destruct (handle_reference_delete_after entity entity_id db)
    as [-> | [[Hz ->] | [(Hz1 & Hz2 & ->) | [(Hz1 & Hz2 & ->) | [Hz ->]]]]].
  - done.
  - split; [|split; [done|split; [done|split; [|done]]]].
    + intros k r Hk. destruct (Hl k r Hk) as (Hs & Ht & Hc & Hu).
      split; [|done]. cbn. rewrite lookup_delete_ne; [done|].
      intros Heq. by apply (count_where_zero_ne _ cf_status_id _ _ _ Hz Hk).
    + split; [|done]. by apply unique_key_delete.
  - split; [|split; [done|split; [|split; [|done]]]].
    + intros k r Hk. destruct (Hl k r Hk) as (Hs & Ht & Hc & Hu).
      split; [done|]. split; [|done]. cbn. rewrite lookup_delete_ne; [done|].
      intros Heq. by apply (count_where_zero_ne _ cf_type_id _ _ _ Hz2 Hk).
    + split; [|done]. intros k c Hk. cbn. rewrite lookup_delete_ne.
      * by apply (Hh1 k).
      * intros Heq. by apply (count_where_zero_ne _ cat_type_id _ _ _ Hz1 Hk).
    + split; [done|]. split; [|done]. by apply unique_key_delete.
  - split; [|split; [done|split; [|split; [|done]]]].
    + intros k r Hk. destruct (Hl k r Hk) as (Hs & Ht & Hc & Hu).
      split; [done|]. split; [done|]. split; [|done]. cbn.
      rewrite lookup_delete_ne; [done|].
      intros Heq. by apply (count_where_zero_ne _ cf_category_id _ _ _ Hz2 Hk).
    + split.
      * intros k c Hk. cbn in Hk. apply lookup_delete_Some in Hk as [_ Hk].
        by apply (Hh1 k).
      * intros k s Hk. cbn. rewrite lookup_delete_ne.
        -- by apply (Hh2 k).
        -- intros Heq.
           by apply (count_where_zero_ne _ sub_category_id _ _ _ Hz1 Hk).
    + split; [done|]. split; [done|]. split; [|done].
      by apply unique_key_delete.
  - split; [|split; [done|split; [|split; [|done]]]].
    + intros k r Hk. destruct (Hl k r Hk) as (Hs & Ht & Hc & Hu).
      split; [done|]. split; [done|]. split; [done|]. cbn.
      rewrite lookup_delete_ne; [done|].
      intros Heq.
      by apply (count_where_zero_ne _ cf_subcategory_id _ _ _ Hz Hk).
    + split; [done|]. intros k s Hk. cbn in Hk.
      apply lookup_delete_Some in Hk as [_ Hk]. by apply (Hh2 k).
    + split; [done|]. split; [done|]. split; [done|].
      by apply unique_key_delete.
Qed.

Lemma ensure_initial_data_extends st st' :
  ensure_initial_data st = Ok st' → extends st.1 st'.1.
Proof.
  intros (st1 & st2 & H1 & H2 & H3)%ensure_initial_data_steps.
  destruct (seed_statuses_after _ _ H1) as (E1 & _).
  destruct (seed_types_after _ _ H2) as (E2 & _).
  eapply extends_trans; [exact E1|]. eapply extends_trans; [exact E2|].
  destruct (table_count (categories st2.1) =? 0).
  - by destruct (seed_categories_extends _ _ _ H3).
  - injection H3 as <-. apply extends_refl.
Qed.

Lemma serve_well_formed r st :
  well_formed st.1 → well_formed (serve r st).1.
Proof.
  intros Hwf. destruct r as [form|id form|id|entity form|entity id form
                            |entity id|]; cbn [serve fst].
  - by apply serve_entry_new.
  - by apply serve_entry_edit.
  - by apply serve_entry_delete.
  - destruct (serve_reference_new entity form st) as (st' & resp & -> & Hk).
    by apply Hk.
  - by apply serve_reference_edit.
  - by apply serve_reference_delete.
  - destruct (ensure_initial_data st) as [st'|e] eqn:E; [|done].
    eapply well_formed_extends; [|done]. by apply ensure_initial_data_extends.
Qed.

Lemma empty_store_well_formed : well_formed empty_store.1.
Proof.
  split; [done|]. split; [done|]. split; [by split|].
  split; [by repeat split|]. intros id [row Hrow]. done.
Qed.

(** X18.  Every file that the application can produce is well formed.
    After the first start and any sequence of requests (creating,
    editing and deleting entries and reference rows, with any forms and
    ids, and restarts of the server), every stored entry has its status,
    type, category and subcategory, its category is of its type and its
    subcategory of its category, its date text is not empty, its amount
    is not zero and within 28 digits, its comment is not NULL; every
    category has its type and every subcategory its category; no two
    rows share a UNIQUE key; and no entry id is above the counter. *)
Theorem X18_every_reachable_file_well_formed requests :
  well_formed (run requests).1.
Proof.
  unfold run.
  assert (well_formed first_start.1) as Hstart.
  { unfold first_start.
    destruct (ensure_initial_data empty_store) as [st|e] eqn:E.
    - eapply well_formed_extends; [|apply empty_store_well_formed].
      by apply ensure_initial_data_extends.
    - apply empty_store_well_formed. }
  revert Hstart. generalize first_start.
  induction requests as [|r requests IH]; intros st Hst; cbn; [done|].
  apply IH. by apply serve_well_formed.
Qed.

(** ** Ids in pages and in URLs *)

Lemma string_forall_rev_app p (s t : string) :
  string_forall p (String.rev_app s t) = string_forall p s && string_forall p t.
Proof.
  revert t. induction s as [|c s IH]; intros t; cbn; [done|].
  rewrite IH. cbn. by rewrite !andb_assoc, (andb_comm (p c)).
Qed.

Lemma digit_not_int_space c : pystr.is_digit c = true → int_space c = false.
Proof.
  intros Hc%is_digit_cases.
  repeat (apply elem_of_cons in Hc as [->|Hc]; [done|]).
  by apply elem_of_nil in Hc.
Qed.

Lemma int_lstrip_digits (s : string) :
  string_forall pystr.is_digit s = true → int_lstrip s = s.
Proof.
  destruct s as [|c s]; cbn; [done|].
  intros [Hc _]%andb_true_iff. by rewrite (digit_not_int_space c Hc).
Qed.

Lemma int_digits_all (s : string) (prev : bool) acc :
  string_forall pystr.is_digit s = true →
  int_digits prev acc s
  = match s with
    | EmptyString => if prev then Some acc else None
    | _ => Some (pystr.int_of_digits_from acc s)
    end.
Proof.
  revert prev acc. induction s as [|c s IH]; intros prev acc; cbn; [done|].
  intros [Hc Hs]%andb_true_iff. rewrite Hc, (IH _ _ Hs). by destruct s.
Qed.

(** X19.  Ids survive the pages.  A string of one or more decimal
    digits, which is what the routes let through as an id, is read by
    [parse_int] as the number it spells, never as [None] and never as a
    negative number; and the decimal text of an id, as it is written into
    links and option values, is read back as the same id.  Both for texts
    of at most 4300 digits, the length up to which every interpreter
    converts. *)
Theorem X19_ids_read_back :
  (∀ s : string,
     s ≠ EmptyString → string_forall pystr.is_digit s = true →
     (String.length s ≤ 4300)%nat →
     parse_int s = Some (pystr.int_of_digits s) ∧ 0 ≤ pystr.int_of_digits s)
  ∧ (∀ n, 0 ≤ n → (String.length (str_nat n) ≤ 4300)%nat →
          parse_int (str_nat n) = Some n).
Proof.
  assert (∀ s : string,
            s ≠ EmptyString → string_forall pystr.is_digit s = true →
            parse_int s = Some (pystr.int_of_digits s)) as Hdigits.
  { intros s Hne Hs. unfold parse_int, py_int.
    rewrite (int_lstrip_digits s Hs).
    assert (string_forall pystr.is_digit (String.rev s) = true) as Hrev.
    { unfold String.rev. by rewrite string_forall_rev_app, Hs. }
    rewrite (int_lstrip_digits _ Hrev), string_rev_involutive.
    destruct s as [|c s]; [done|].
    assert (pystr.take_sign (String c s) = (false, String c s)) as ->.
    { cbn in Hs. apply andb_true_iff in Hs as [Hc _].
      apply is_digit_cases in Hc.
      repeat (apply elem_of_cons in Hc as [->|Hc]; [done|]).
      by apply elem_of_nil in Hc. }
    by rewrite (int_digits_all _ _ _ Hs). }
  split.
  - intros s Hne Hs _. split; [by apply Hdigits|].
    unfold pystr.int_of_digits.
    pose proof (span_digits_nonneg 0 s ltac:(done)) as Hnn.
    by rewrite (span_digits_all s Hs) in Hnn.
  - intros n Hn _.
    destruct (str_nat_digits n Hn) as (Hall & (c & r & Hs & _) & Hvalue).
    rewrite Hdigits; [|by rewrite Hs|done].
    unfold pystr.int_of_digits.
    specialize (Hvalue EmptyString). rewrite string_app_nil_r in Hvalue.
    by rewrite Hvalue.
Qed.

Lemma X19_ids_read_back_witness :
  (parse_int "0042" = Some (pystr.int_of_digits "0042")
   ∧ 0 ≤ pystr.int_of_digits "0042")
  ∧ parse_int (str_nat 1234567) = Some 1234567.
Proof.
  split.
  - apply (proj1 X19_ids_read_back "0042"); [done|done|].
    vm_compute. lia.
  - apply (proj2 X19_ids_read_back 1234567); [lia|].
    vm_compute. lia.
Defined.
